(** * AdaptivePWM: the control core of [src/main.c], embedded and verified

    The firmware keeps its converter state in module-level [volatile float]
    variables and talks to the STM32 HAL.  The embedding below keeps that
    shape:

    - the C [float] is IEEE-754 binary32: the parametric [spec_float]
      operations of the Standard Library at precision 24 and exponent
      bound 128, one rounding to nearest-even per C operator (no fused
      multiply-add), NaN and infinities included;
    - [uint16_t] and [uint32_t] values are integers with their wrap-around
      written out;
    - the globals and the two function-local [static] timestamps form one
      record, and every function of [main.c] is a state-passing function
      over that record together with a model of what the HAL hands back:
      the readings of the data register, the status every HAL routine
      answers with, and a millisecond tick that moves on between any two
      reads of it;
    - the program is single-threaded with no interrupt handler touching
      the globals, so a [volatile] read returns the value last stored;
    - [main], which never returns, is a step machine over the points where
      it can be observed.

    [powf] comes from the C library and is a parameter of the model.

    The operator console of [cli/pwmctl.c] is a second program; its model
    and the facts about it are in the modules [Cli] and [CliFacts]. *)

From Stdlib Require Import ZArith QArith List Bool Lia.
From Stdlib Require Import Floats.SpecFloat.
From Stdlib Require Ascii String.
Import ListNotations.

Local Open Scope Z_scope.

(** ** Binary32 arithmetic *)

Module F32.

Definition prec : Z := 24.
Definition emax : Z := 128.

Definition float := spec_float.

Definition add : float -> float -> float := SFadd prec emax.
Definition sub : float -> float -> float := SFsub prec emax.
Definition mul : float -> float -> float := SFmul prec emax.
Definition div : float -> float -> float := SFdiv prec emax.
Definition abs : float -> float := SFabs.

(** C's [<] and [>]: false as soon as one operand is a NaN. *)
Definition ltb (x y : float) : bool := SFltb x y.
Definition gtb (x y : float) : bool := SFltb y x.
Definition leb (x y : float) : bool := SFleb x y.

Definition is_nan (x : float) : bool :=
  match x with S754_nan => true | _ => false end.

(** Conversion of an integer, as in the cast [(float)adc_value]
    (round to nearest even; exact below 2^24). *)
Definition of_Z (z : Z) : float := binary_normalize prec emax z 0 false.

(** A decimal literal [n/d] with the [f] suffix: the binary32 nearest to
    the quotient.  Both [n] and [d] are small integers, hence exact, and
    the division rounds once. *)
Definition lit (n d : Z) : float := div (of_Z n) (of_Z d).

(** [fminf] and [fmaxf] of C99 (7.12.12): a NaN operand is treated as
    missing data and the other operand is returned.  Of two
    zeros of different sign the first operand is returned (C leaves the
    choice open). *)
Definition fminf (x y : float) : float :=
  if is_nan x then y
  else if is_nan y then x
  else if ltb y x then y else x.

Definition fmaxf (x y : float) : float :=
  if is_nan x then y
  else if is_nan y then x
  else if ltb x y then y else x.

Definition fabsf (x : float) : float := abs x.

(** Closed interval membership with the float comparison. *)
Definition within (lo hi x : float) : bool := leb lo x && leb x hi.

End F32.

Abbreviation float := F32.float.


(** The literals of [main.c]. *)
Definition F0_0 : float := S754_zero false.        (* 0.0f *)
Definition F1_0 : float := F32.of_Z 1.             (* 1.0f *)
Definition F2_0 : float := F32.of_Z 2.             (* 2.0f *)
Definition F100_0 : float := F32.of_Z 100.         (* 100.0f *)
Definition F1000_0 : float := F32.of_Z 1000.       (* 1000.0f *)
Definition F0_5 : float := F32.lit 5 10.           (* 0.5f *)
Definition F0_1 : float := F32.lit 1 10.           (* 0.1f *)
Definition F0_2 : float := F32.lit 2 10.           (* 0.2f *)
Definition F0_05 : float := F32.lit 5 100.         (* 0.05f *)
Definition F0_01 : float := F32.lit 1 100.         (* 0.01f *)
Definition F0_001 : float := F32.lit 1 1000.       (* 0.001f *)
Definition F0_0001 : float := F32.lit 1 10000.     (* 0.0001f *)

(** [#define]s of [main.c]. *)
Definition MAX_DUTY_CYCLE : float := F32.lit 95 100.     (* 0.95f *)
Definition MIN_DUTY_CYCLE : float := F32.lit 5 100.      (* 0.05f *)
Definition TARGET_EFFICIENCY : float := F32.lit 95 100.  (* 0.95f *)
Definition ADC_BUFFER_SIZE : nat := 16.

(** ** Machine integers *)

Definition uint16 (z : Z) : Z := z mod 2 ^ 16.
Definition uint32 (z : Z) : Z := z mod 2 ^ 32.

(** ** The HAL as [main.c] sees it

    The HAL is not part of the repository.  What the program can observe of
    it is kept in one record:

    - [tick], the value the next [HAL_GetTick] returns.  The tick is
      driven by an interrupt, so it moves on while the program runs:
      [elapsed k] is the number of milliseconds that pass between the
      read number [k] and the read after it, whatever the program does in
      between (nothing, or sixteen blocking conversions), and [tick_reads]
      counts the reads.  A [HAL_Delay] in between adds its own delay;
    - the answers of the two initialisation routines;
    - [adc_status], the status a conversion routine answers with, by
      routine and by the number of values read from the data register so
      far; [main.c] discards these answers;
    - the value the data register holds at each successive read;
    - a log of the calls made (newest first). *)

Inductive HAL_StatusTypeDef := HAL_OK | HAL_ERROR | HAL_BUSY | HAL_TIMEOUT.

Definition status_is_ok (r : HAL_StatusTypeDef) : bool :=
  match r with HAL_OK => true | _ => false end.

Inductive HalCall :=
| Call_HAL_Init
| Call_HAL_ADC_Init
| Call_HAL_ADC_Start
| Call_HAL_ADC_PollForConversion
| Call_HAL_ADC_GetValue
| Call_HAL_ADC_Stop
| Call_HAL_GetTick
| Call_HAL_Delay (ms : Z).

Definition is_adc_access (c : HalCall) : bool :=
  match c with
  | Call_HAL_ADC_Init | Call_HAL_ADC_Start | Call_HAL_ADC_PollForConversion
  | Call_HAL_ADC_GetValue | Call_HAL_ADC_Stop => true
  | _ => false
  end.

Record HAL := {
  tick : Z;
  elapsed : nat -> Z;
  tick_reads : nat;
  hal_init_status : HAL_StatusTypeDef;
  adc_init_status : HAL_StatusTypeDef;
  adc_status : HalCall -> nat -> HAL_StatusTypeDef;
  adc_data : nat -> Z;
  adc_reads : nat;
  calls : list HalCall
}.

(** The symbolic values [init_adc] stores in the handle; their numeric
    encodings live in the HAL headers. *)
Inductive HalConst :=
| Unset
| ADC1
| ADC_CLOCK_SYNC_PCLK_DIV4
| ADC_RESOLUTION_12B
| DISABLE
| ADC_SOFTWARE_START
| ADC_EXTERNALTRIGCONVEDGE_NONE
| ADC_DATAALIGN_RIGHT
| ADC_EOC_SINGLE_CONV
| Num (n : Z).

Record ADC_InitTypeDef := {
  ClockPrescaler : HalConst;
  Resolution : HalConst;
  ScanConvMode : HalConst;
  ContinuousConvMode : HalConst;
  DiscontinuousConvMode : HalConst;
  ExternalTrigConv : HalConst;
  ExternalTrigConvEdge : HalConst;
  DataAlign : HalConst;
  NbrOfConversion : HalConst;
  DMAContinuousRequests : HalConst;
  EOCSelection : HalConst
}.

Record ADC_HandleTypeDef := {
  Instance : HalConst;
  Init : ADC_InitTypeDef
}.

(** An automatic variable that has not been written yet. *)
Definition fresh_handle : ADC_HandleTypeDef :=
  {| Instance := Unset;
     Init := {| ClockPrescaler := Unset; Resolution := Unset;
                ScanConvMode := Unset; ContinuousConvMode := Unset;
                DiscontinuousConvMode := Unset; ExternalTrigConv := Unset;
                ExternalTrigConvEdge := Unset; DataAlign := Unset;
                NbrOfConversion := Unset; DMAContinuousRequests := Unset;
                EOCSelection := Unset |} |}.

(** ** Program state *)

(** The file-scope variables of [main.c] and the two [static] locals. *)
Record Globals := {
  L_mH : float;
  C_uF : float;
  ESR_mOhm : float;
  duty_cycle : float;
  efficiency : float;
  adc_buffer : list Z;
  adc_sum : Z;
  system_initialized : bool;
  last_adjustment_time : Z;    (* static in adjust_duty_cycle *)
  last_measurement_time : Z    (* static in control_loop *)
}.

Record State := { mem : Globals; hal : HAL }.

Definition initial_globals : Globals :=
  {| L_mH := F0_0; C_uF := F0_0; ESR_mOhm := F0_0;
     duty_cycle := F0_5;
     efficiency := F0_0;
     adc_buffer := repeat 0 ADC_BUFFER_SIZE;
     adc_sum := 0;
     system_initialized := false;
     last_adjustment_time := 0;
     last_measurement_time := 0 |}.

Definition initial_state (h : HAL) : State := {| mem := initial_globals; hal := h |}.

Definition set_L_mH (v : float) (g : Globals) : Globals :=
  {| L_mH := v; C_uF := C_uF g; ESR_mOhm := ESR_mOhm g;
     duty_cycle := duty_cycle g; efficiency := efficiency g;
     adc_buffer := adc_buffer g; adc_sum := adc_sum g;
     system_initialized := system_initialized g;
     last_adjustment_time := last_adjustment_time g;
     last_measurement_time := last_measurement_time g |}.

Definition set_C_uF (v : float) (g : Globals) : Globals :=
  {| L_mH := L_mH g; C_uF := v; ESR_mOhm := ESR_mOhm g;
     duty_cycle := duty_cycle g; efficiency := efficiency g;
     adc_buffer := adc_buffer g; adc_sum := adc_sum g;
     system_initialized := system_initialized g;
     last_adjustment_time := last_adjustment_time g;
     last_measurement_time := last_measurement_time g |}.

Definition set_ESR_mOhm (v : float) (g : Globals) : Globals :=
  {| L_mH := L_mH g; C_uF := C_uF g; ESR_mOhm := v;
     duty_cycle := duty_cycle g; efficiency := efficiency g;
     adc_buffer := adc_buffer g; adc_sum := adc_sum g;
     system_initialized := system_initialized g;
     last_adjustment_time := last_adjustment_time g;
     last_measurement_time := last_measurement_time g |}.

Definition set_duty_cycle (v : float) (g : Globals) : Globals :=
  {| L_mH := L_mH g; C_uF := C_uF g; ESR_mOhm := ESR_mOhm g;
     duty_cycle := v; efficiency := efficiency g;
     adc_buffer := adc_buffer g; adc_sum := adc_sum g;
     system_initialized := system_initialized g;
     last_adjustment_time := last_adjustment_time g;
     last_measurement_time := last_measurement_time g |}.

Definition set_efficiency (v : float) (g : Globals) : Globals :=
  {| L_mH := L_mH g; C_uF := C_uF g; ESR_mOhm := ESR_mOhm g;
     duty_cycle := duty_cycle g; efficiency := v;
     adc_buffer := adc_buffer g; adc_sum := adc_sum g;
     system_initialized := system_initialized g;
     last_adjustment_time := last_adjustment_time g;
     last_measurement_time := last_measurement_time g |}.

Definition set_adc_buffer (v : list Z) (g : Globals) : Globals :=
  {| L_mH := L_mH g; C_uF := C_uF g; ESR_mOhm := ESR_mOhm g;
     duty_cycle := duty_cycle g; efficiency := efficiency g;
     adc_buffer := v; adc_sum := adc_sum g;
     system_initialized := system_initialized g;
     last_adjustment_time := last_adjustment_time g;
     last_measurement_time := last_measurement_time g |}.

Definition set_system_initialized (v : bool) (g : Globals) : Globals :=
  {| L_mH := L_mH g; C_uF := C_uF g; ESR_mOhm := ESR_mOhm g;
     duty_cycle := duty_cycle g; efficiency := efficiency g;
     adc_buffer := adc_buffer g; adc_sum := adc_sum g;
     system_initialized := v;
     last_adjustment_time := last_adjustment_time g;
     last_measurement_time := last_measurement_time g |}.

Definition set_last_adjustment_time (v : Z) (g : Globals) : Globals :=
  {| L_mH := L_mH g; C_uF := C_uF g; ESR_mOhm := ESR_mOhm g;
     duty_cycle := duty_cycle g; efficiency := efficiency g;
     adc_buffer := adc_buffer g; adc_sum := adc_sum g;
     system_initialized := system_initialized g;
     last_adjustment_time := v;
     last_measurement_time := last_measurement_time g |}.

Definition set_last_measurement_time (v : Z) (g : Globals) : Globals :=
  {| L_mH := L_mH g; C_uF := C_uF g; ESR_mOhm := ESR_mOhm g;
     duty_cycle := duty_cycle g; efficiency := efficiency g;
     adc_buffer := adc_buffer g; adc_sum := adc_sum g;
     system_initialized := system_initialized g;
     last_adjustment_time := last_adjustment_time g;
     last_measurement_time := v |}.

(** Store into [l[i]]; the only caller keeps [i] below the length. *)
Fixpoint store_at (i : nat) (v : Z) (l : list Z) : list Z :=
  match l, i with
  | [], _ => []
  | _ :: l', O => v :: l'
  | x :: l', S i' => x :: store_at i' v l'
  end.

(** ** The state monad the functions run in *)

Definition M (A : Type) : Type := State -> A * State.

Definition ret {A} (a : A) : M A := fun s => (a, s).

Definition bind {A B} (c : M A) (k : A -> M B) : M B :=
  fun s => let (a, s') := c s in k a s'.

Declare Scope m_scope.
Delimit Scope m_scope with M.
Notation "x <- c ;; k" := (bind c (fun x => k))
  (at level 61, c at next level, right associativity) : m_scope.
Notation "c ;; k" := (bind c (fun _ => k))
  (at level 61, right associativity) : m_scope.
Local Open Scope m_scope.

(** Read, respectively write, a C variable. *)
Definition load {A} (field : Globals -> A) : M A :=
  fun s => (field (mem s), s).

Definition with_mem (upd : Globals -> Globals) (s : State) : State :=
  {| mem := upd (mem s); hal := hal s |}.

Definition store (upd : Globals -> Globals) : M unit :=
  fun s => (tt, with_mem upd s).

Definition log_call (c : HalCall) (h : HAL) : HAL :=
  {| tick := tick h; elapsed := elapsed h; tick_reads := tick_reads h;
     hal_init_status := hal_init_status h;
     adc_init_status := adc_init_status h; adc_status := adc_status h;
     adc_data := adc_data h;
     adc_reads := adc_reads h; calls := c :: calls h |}.

Definition hal_call (c : HalCall) : M unit :=
  fun s => (tt, {| mem := mem s; hal := log_call c (hal s) |}).

Definition HAL_Init : M HAL_StatusTypeDef :=
  hal_call Call_HAL_Init ;;
  fun s => (hal_init_status (hal s), s).

Definition HAL_ADC_Init (hadc : ADC_HandleTypeDef) : M HAL_StatusTypeDef :=
  hal_call Call_HAL_ADC_Init ;;
  fun s => (adc_init_status (hal s), s).

(** The three conversion routines answer with a status. *)
Definition adc_answer (c : HalCall) : M HAL_StatusTypeDef :=
  hal_call c ;;
  fun s => (adc_status (hal s) c (adc_reads (hal s)), s).

Definition HAL_ADC_Start (hadc : ADC_HandleTypeDef) : M HAL_StatusTypeDef :=
  adc_answer Call_HAL_ADC_Start.

Definition HAL_ADC_PollForConversion (hadc : ADC_HandleTypeDef)
    : M HAL_StatusTypeDef :=
  adc_answer Call_HAL_ADC_PollForConversion.

Definition HAL_ADC_Stop (hadc : ADC_HandleTypeDef) : M HAL_StatusTypeDef :=
  adc_answer Call_HAL_ADC_Stop.

(** [uint32_t HAL_ADC_GetValue(...)]: the next value of the data register. *)
Definition HAL_ADC_GetValue (hadc : ADC_HandleTypeDef) : M Z :=
  hal_call Call_HAL_ADC_GetValue ;;
  fun s =>
    let h := hal s in
    (uint32 (adc_data h (adc_reads h)),
     {| mem := mem s;
        hal := {| tick := tick h; elapsed := elapsed h;
                  tick_reads := tick_reads h;
                  hal_init_status := hal_init_status h;
                  adc_init_status := adc_init_status h;
                  adc_status := adc_status h;
                  adc_data := adc_data h;
                  adc_reads := S (adc_reads h); calls := calls h |} |}).

(** The HAL with its tick moved to [t]. *)
Definition at_tick (t : Z) (w : HAL) : HAL :=
  {| tick := t; elapsed := elapsed w; tick_reads := tick_reads w;
     hal_init_status := hal_init_status w;
     adc_init_status := adc_init_status w; adc_status := adc_status w;
     adc_data := adc_data w;
     adc_reads := adc_reads w; calls := calls w |}.

(** The HAL once the tick has been read: the read is logged and counted,
    and the tick has moved on to what the next read will return. *)
Definition after_tick_read (h : HAL) : HAL :=
  {| tick := uint32 (tick h + elapsed h (tick_reads h));
     elapsed := elapsed h; tick_reads := S (tick_reads h);
     hal_init_status := hal_init_status h;
     adc_init_status := adc_init_status h; adc_status := adc_status h;
     adc_data := adc_data h;
     adc_reads := adc_reads h; calls := Call_HAL_GetTick :: calls h |}.

Definition HAL_GetTick : M Z :=
  fun s => (uint32 (tick (hal s)),
            {| mem := mem s; hal := after_tick_read (hal s) |}).

(** [HAL_Delay(ms)] returns once the tick has advanced by [ms]; what
    passes on top of that is part of [elapsed]. *)
Definition HAL_Delay (ms : Z) : M unit :=
  hal_call (Call_HAL_Delay ms) ;;
  fun s =>
    (tt, {| mem := mem s; hal := at_tick (uint32 (tick (hal s) + ms)) (hal s) |}).

(** ** The functions of [main.c] *)

(** One turn of the [for] loop of [read_adc_safely] at index [i]; the
    result is the updated [sum]. *)
Definition read_adc_iteration (hadc : ADC_HandleTypeDef) (i : nat) (sum : Z) : M Z :=
  HAL_ADC_Start hadc ;;
  HAL_ADC_PollForConversion hadc ;;
  v <- HAL_ADC_GetValue hadc ;;
  store (fun g => set_adc_buffer (store_at i (uint16 v) (adc_buffer g)) g) ;;
  x <- load (fun g => nth i (adc_buffer g) 0) ;;
  let sum := uint32 (sum + x) in
  HAL_ADC_Stop hadc ;;
  ret sum.

(** The loop itself: [n] turns are left, [i] is the loop index. *)
Fixpoint read_adc_loop (hadc : ADC_HandleTypeDef) (n i : nat) (sum : Z) : M Z :=
  match n with
  | O => ret sum
  | S n' =>
      sum' <- read_adc_iteration hadc i sum ;;
      read_adc_loop hadc n' (S i) sum'
  end.

Definition read_adc_safely (hadc : ADC_HandleTypeDef) : M Z :=
  sum <- read_adc_loop hadc ADC_BUFFER_SIZE 0 0 ;;
  ret (uint16 (sum / Z.of_nat ADC_BUFFER_SIZE)).

(** The three placeholder conversions. *)
Definition inductance_of (adc_value : Z) : float :=
  F32.add (F32.mul (F32.of_Z adc_value) F0_1) F0_1.
Definition capacitance_of (adc_value : Z) : float :=
  F32.add (F32.mul (F32.of_Z adc_value) F0_05) F1_0.
Definition esr_of (adc_value : Z) : float :=
  F32.add (F32.mul (F32.of_Z adc_value) F0_2) F0_5.

(** A [NULL] handle is [None]. *)
Definition measure_electrical_parameters (hadc : option ADC_HandleTypeDef) : M bool :=
  match hadc with
  | None => ret false
  | Some h =>
      adc_value <- read_adc_safely h ;;
      store (set_L_mH (inductance_of adc_value)) ;;
      store (set_C_uF (capacitance_of adc_value)) ;;
      store (set_ESR_mOhm (esr_of adc_value)) ;;
      l <- load L_mH ;;
      if F32.ltb l F0_01 || F32.gtb l F100_0 then ret false else
      c <- load C_uF ;;
      if F32.ltb c F0_1 || F32.gtb c F1000_0 then ret false else
      r <- load ESR_mOhm ;;
      if F32.ltb r F0_0 || F32.gtb r F100_0 then ret false else
      ret true
  end.

Definition adjust_duty_cycle (target_efficiency : float) : M bool :=
  current_time <- HAL_GetTick ;;
  last <- load last_adjustment_time ;;
  if uint32 (current_time - last) <? 100 then ret false else
  store (set_last_adjustment_time current_time) ;;
  eff <- load efficiency ;;
  let efficiency_error := F32.sub target_efficiency eff in
  let adjustment_step := F32.mul efficiency_error F0_05 in
  d <- load duty_cycle ;;
  let new_duty_cycle := F32.add d adjustment_step in
  let new_duty_cycle :=
    F32.fmaxf MIN_DUTY_CYCLE (F32.fminf MAX_DUTY_CYCLE new_duty_cycle) in
  d' <- load duty_cycle ;;
  if F32.gtb (F32.fabsf (F32.sub new_duty_cycle d')) F0_001 then
    store (set_duty_cycle new_duty_cycle) ;;
    ret true
  else ret false.

Definition configured (hadc : ADC_HandleTypeDef) : ADC_HandleTypeDef :=
  {| Instance := ADC1;
     Init := {| ClockPrescaler := ADC_CLOCK_SYNC_PCLK_DIV4;
                Resolution := ADC_RESOLUTION_12B;
                ScanConvMode := DISABLE;
                ContinuousConvMode := DISABLE;
                DiscontinuousConvMode := DISABLE;
                ExternalTrigConv := ADC_SOFTWARE_START;
                ExternalTrigConvEdge := ADC_EXTERNALTRIGCONVEDGE_NONE;
                DataAlign := ADC_DATAALIGN_RIGHT;
                NbrOfConversion := Num 1;
                DMAContinuousRequests := DISABLE;
                EOCSelection := ADC_EOC_SINGLE_CONV |} |}.

Definition init_adc (hadc : option ADC_HandleTypeDef) : M bool :=
  match hadc with
  | None => ret false
  | Some h =>
      r <- HAL_ADC_Init (configured h) ;;
      if status_is_ok r then ret true else ret false
  end.

(** [error_handler] never returns.  Its one assignment is the function
    below; the [while(1) HAL_Delay(1000)] that follows is the idle state
    of the program machine further down. *)
Definition error_handler_entry : M unit :=
  store (set_duty_cycle MIN_DUTY_CYCLE).

Definition system_init : M bool :=
  r <- HAL_Init ;;
  if negb (status_is_ok r) then ret false else
  ok <- init_adc (Some fresh_handle) ;;
  if negb ok then ret false else
  store (set_system_initialized true) ;;
  ret true.

Section WithLibm.

(** [powf] belongs to the C library, not to the repository: the model
    takes it as a parameter, and every statement below holds whatever
    function it is. *)
Variable powf : float -> float -> float.

(** Reads the global [duty_cycle] (twice, it is volatile). *)
Definition calculate_efficiency (inductance capacitance esr : float) : M float :=
  d1 <- load duty_cycle ;;
  let switching_losses := F32.mul (F32.mul F0_01 inductance) (powf d1 F2_0) in
  d2 <- load duty_cycle ;;
  let conduction_losses := F32.mul esr (powf d2 F2_0) in
  let total_losses := F32.add switching_losses conduction_losses in
  if F32.ltb total_losses F0_0001 then ret F1_0 else
  ret (F32.fmaxf F0_0 (F32.fminf F1_0 (F32.sub F1_0 total_losses))).

(** Total losses as [calculate_efficiency] forms them, for duty cycle [d]. *)
Definition total_losses (inductance esr d : float) : float :=
  F32.add (F32.mul (F32.mul F0_01 inductance) (powf d F2_0))
          (F32.mul esr (powf d F2_0)).

Definition efficiency_value (inductance esr d : float) : float :=
  if F32.ltb (total_losses inductance esr d) F0_0001 then F1_0
  else F32.fmaxf F0_0
         (F32.fminf F1_0 (F32.sub F1_0 (total_losses inductance esr d))).

(** The block guarded by the 50 ms test in [control_loop]. *)
Definition measurement_phase (hadc : option ADC_HandleTypeDef)
    (current_time : Z) : M unit :=
  store (set_last_measurement_time current_time) ;;
  ok <- measure_electrical_parameters hadc ;;
  if ok then
    l <- load L_mH ;;
    c <- load C_uF ;;
    r <- load ESR_mOhm ;;
    e <- calculate_efficiency l c r ;;
    store (set_efficiency e)
  else
    store (set_duty_cycle F0_5) ;;
    store (set_efficiency F0_0).

Definition measurement_due (current_time last : Z) : bool :=
  50 <? uint32 (current_time - last).

Definition control_loop (hadc : option ADC_HandleTypeDef) : M unit :=
  current_time <- HAL_GetTick ;;
  last <- load last_measurement_time ;;
  (if measurement_due current_time last
   then measurement_phase hadc current_time
   else ret tt) ;;
  adjust_duty_cycle TARGET_EFFICIENCY ;;
  ret tt.

(** *** The program: [main] as a machine

    [main] never returns; it is a machine over the program points at
    which it can be observed between two HAL delays. *)
Inductive ProgramPoint :=
| AtReset            (* entering main *)
| InMainLoop         (* at the head of the while(1) of main *)
| InErrorHandler.    (* at the head of the while(1) of error_handler *)

Record Machine := { pc : ProgramPoint; st : State }.

Definition main_step (m : Machine) : Machine :=
  match pc m with
  | AtReset =>
      let (ok, s) := system_init (st m) in
      if negb ok
      then {| pc := InErrorHandler; st := snd (error_handler_entry s) |}
      else {| pc := InMainLoop; st := s |}
  | InMainLoop =>
      {| pc := InMainLoop;
         st := snd ((control_loop None ;; HAL_Delay 10) (st m)) |}
  | InErrorHandler =>
      {| pc := InErrorHandler; st := snd (HAL_Delay 1000 (st m)) |}
  end.

Fixpoint run_main (n : nat) (m : Machine) : Machine :=
  match n with
  | O => m
  | S n' => run_main n' (main_step m)
  end.

Definition power_on (h : HAL) : Machine :=
  {| pc := AtReset; st := initial_state h |}.

(** *** Arbitrary interleavings

    For statements about every sequence of invocations: the functions
    that touch the globals, called in any order with any arguments, and
    between them an environment that replaces the HAL state at will (time
    passes, new samples arrive, the log is whatever it is). *)
Inductive Action :=
| CallControlLoop (hadc : option ADC_HandleTypeDef)
| CallAdjustDutyCycle (target_efficiency : float)
| CallSystemInit
| CallErrorHandler
| Environment (w : HAL).

Definition perform (a : Action) (s : State) : State :=
  match a with
  | CallControlLoop hadc => snd (control_loop hadc s)
  | CallAdjustDutyCycle target => snd (adjust_duty_cycle target s)
  | CallSystemInit => snd (system_init s)
  | CallErrorHandler => snd (error_handler_entry s)
  | Environment w => {| mem := mem s; hal := w |}
  end.

Definition perform_all (acts : list Action) (s : State) : State :=
  fold_left (fun s a => perform a s) acts s.

End WithLibm.

(** A correctly rounded [powf] at the one exponent [main.c] passes, 2.0f:
    the rounded square.  Used for the concrete runs only. *)
Definition powf_square (x y : float) : float := F32.mul x x.

(** A HAL for concrete runs: the tick reads 1000 and stands still between
    reads, every conversion routine answers [HAL_OK] and the data register
    keeps delivering [sample]. *)
Definition demo_hal (sample : Z) (adc_init : HAL_StatusTypeDef) : HAL :=
  {| tick := 1000; elapsed := fun _ => 0; tick_reads := 0;
     hal_init_status := HAL_OK; adc_init_status := adc_init;
     adc_status := fun _ _ => HAL_OK;
     adc_data := fun _ => sample; adc_reads := 0; calls := [] |}.

(** Two program states with the same duty cycle and nothing else in
    common. *)
Definition quiet_state : State := initial_state (demo_hal 100 HAL_OK).

Definition busy_state : State :=
  {| mem := set_efficiency F1_0
              (set_L_mH F100_0
                 (set_last_adjustment_time 77 initial_globals));
     hal := log_call Call_HAL_GetTick (demo_hal 2048 HAL_ERROR) |}.

(** The clamped candidate of [adjust_duty_cycle]. *)
Definition candidate_duty (target eff d : float) : float :=
  F32.fmaxf MIN_DUTY_CYCLE
    (F32.fminf MAX_DUTY_CYCLE (F32.add d (F32.mul (F32.sub target eff) F0_05))).

(** [MIN_DUTY_CYCLE <= duty_cycle <= MAX_DUTY_CYCLE]. *)
Definition duty_in_bounds (g : Globals) : bool :=
  F32.within MIN_DUTY_CYCLE MAX_DUTY_CYCLE (duty_cycle g).

(** The range tests of [measure_electrical_parameters], in the order the
    function makes them. *)
Definition accepted (l c r : float) : bool :=
  if F32.ltb l F0_01 || F32.gtb l F100_0 then false else
  if F32.ltb c F0_1 || F32.gtb c F1000_0 then false else
  if F32.ltb r F0_0 || F32.gtb r F100_0 then false else
  true.

(** Every value a 12-bit converter can deliver, 0 to 4095. *)
Definition adc12_values : list Z := map Z.of_nat (seq 0 4096).

(** The three conversions of a raw value are numbers, and the outcome of
    the range tests is the same whether the declared ranges are read as
    closed or as open intervals. *)
Definition strictly_within (lo hi x : float) : bool :=
  F32.ltb lo x && F32.ltb x hi.

Definition conversions_regular (raw : Z) : bool :=
  let l := inductance_of raw in
  let c := capacitance_of raw in
  let r := esr_of raw in
  negb (F32.is_nan l) && negb (F32.is_nan c) && negb (F32.is_nan r)
  && Bool.eqb (accepted l c r)
       (strictly_within F0_01 F100_0 l && strictly_within F0_1 F1000_0 c
        && strictly_within F0_0 F100_0 r)
  && Bool.eqb (accepted l c r) (raw <=? 497).

(** The HAL after one start / poll / read / stop round. *)
Definition hal_after_sample (w : HAL) : HAL :=
  {| tick := tick w; elapsed := elapsed w; tick_reads := tick_reads w;
     hal_init_status := hal_init_status w;
     adc_init_status := adc_init_status w; adc_status := adc_status w;
     adc_data := adc_data w;
     adc_reads := S (adc_reads w);
     calls := Call_HAL_ADC_Stop :: Call_HAL_ADC_GetValue
              :: Call_HAL_ADC_PollForConversion :: Call_HAL_ADC_Start
              :: calls w |}.

(** The sum the loop accumulates over [n] samples read from position
    [pos] of the data register's history. *)
Fixpoint loop_sum (data : nat -> Z) (n pos : nat) (sum : Z) : Z :=
  match n with
  | O => sum
  | S n' => loop_sum data n' (S pos) (uint32 (sum + uint16 (uint32 (data pos))))
  end.

(** The state at power-on with a converter that keeps delivering 2048, the
    scenario of an implausible measurement. *)
Definition implausible_state : State := initial_state (demo_hal 2048 HAL_OK).

(** The sixteen-bit values [read_adc_safely] stores, [n] of them from
    position [pos] of the data register's history. *)
Fixpoint samples (data : nat -> Z) (n pos : nat) : list Z :=
  match n with
  | O => []
  | S n' => uint16 (uint32 (data pos)) :: samples data n' (S pos)
  end.

Definition Zsum (l : list Z) : Z := fold_right Z.add 0 l.

(** The HAL calls of one turn of the sampling loop, newest first. *)
Definition sampling_calls : list HalCall :=
  [Call_HAL_ADC_Stop; Call_HAL_ADC_GetValue;
   Call_HAL_ADC_PollForConversion; Call_HAL_ADC_Start].

(** The HAL after [n] turns, and the buffer after [n] turns from index
    [i]. *)
Fixpoint hal_after_samples (n : nat) (w : HAL) : HAL :=
  match n with
  | O => w
  | S n' => hal_after_samples n' (hal_after_sample w)
  end.

Fixpoint buffer_after (data : nat -> Z) (n i pos : nat) (buf : list Z) : list Z :=
  match n with
  | O => buf
  | S n' =>
      buffer_after data n' (S i) (S pos)
        (store_at i (uint16 (uint32 (data pos))) buf)
  end.

(** A converter whose readings follow a ramp, for concrete runs. *)
Definition ramp_hal : HAL :=
  {| tick := 1000; elapsed := fun _ => 0; tick_reads := 0;
     hal_init_status := HAL_OK; adc_init_status := HAL_OK;
     adc_status := fun _ _ => HAL_OK;
     adc_data := fun k => 100 + Z.of_nat k; adc_reads := 3; calls := [] |}.

Definition ramp_state : State := initial_state ramp_hal.

(** [p] holds at [z], [z + 1], ..., [z + n - 1]. *)
Fixpoint all_from (n : nat) (z : Z) (p : Z -> bool) : bool :=
  match n with
  | O => true
  | S n' => p z && all_from n' (z + 1) p
  end.

(** [p] holds at every value of a [uint16_t], enumerated as high and low
    byte. *)
Definition every_uint16 (p : Z -> bool) : bool :=
  all_from 256 0 (fun hi => all_from 256 0 (fun lo => p (256 * hi + lo))).

(** For a raw value: the range tests accept it exactly up to 497, and
    what they accept is a number inside the three closed ranges. *)
Definition estimation_sound (raw : Z) : bool :=
  let l := inductance_of raw in
  let c := capacitance_of raw in
  let r := esr_of raw in
  Bool.eqb (accepted l c r) (raw <=? 497)
  && implb (accepted l c r)
       (F32.within F0_01 F100_0 l && F32.within F0_1 F1000_0 c
        && F32.within F0_0 F100_0 r).

(** [0.0 <= efficiency <= 1.0]. *)
Definition efficiency_in_bounds (g : Globals) : bool :=
  F32.within F0_0 F1_0 (efficiency g).

(** The state of [quiet_state] after one controller call, seen 100 ms
    later. *)
Definition adjusted_once : State :=
  snd (adjust_duty_cycle TARGET_EFFICIENCY quiet_state).

Definition later_hal : HAL := at_tick 1100 (hal adjusted_once).

(** A state in which the last measurement was taken 50 ms ago. *)
Definition just_measured : State :=
  {| mem := set_last_measurement_time 950 initial_globals;
     hal := demo_hal 100 HAL_OK |}.

(** [0.5f + (0.95f - 0.0f) * 0.05f], about 0.5475: one controller step up
    from the neutral duty cycle at efficiency 0.0. *)
Definition F0_5475 : float := S754_finite false 9185526 (-24).

(** Start-up went well and the converter is healthy. *)
Definition healthy_hal : HAL := demo_hal 100 HAL_OK.

(** * The operator console, [cli/pwmctl.c]

    The console is a separate program.  It does its work through libc and
    OpenSSL, so a run is modelled by what it returns (or the status it
    exits with) together with the list, oldest first, of the library calls
    it makes: every [printf] and [fprintf(stderr, ...)] with its format
    string exactly as the source writes it (escapes left as written) and
    its arguments, every [fopen], and every OpenSSL routine by name.  What
    the libraries answer is a parameter: the file system and the PEM
    parser in [Env], a whole [getopt_long] scan in [getopt_scan]. *)

Module Cli.

Import Ascii String.
Local Open Scope string_scope.

Inductive command_type_t :=
| CMD_HELP
| CMD_STATUS
| CMD_CONFIGURE
| CMD_MONITOR
| CMD_CERTINFO
| CMD_DIAGNOSTICS.

Definition CONFIG_DIR : string := "/etc/adaptivepwm".
Definition CERT_FILE : string := CONFIG_DIR ++ "/cert.pem".
Definition KEY_FILE : string := CONFIG_DIR ++ "/key.pem".
Definition CA_FILE : string := CONFIG_DIR ++ "/ca.pem".
Definition DEFAULT_ENDPOINT : string := "localhost:8080".
Definition MAX_BUFFER_SIZE : nat := 1024.
Definition EXIT_SUCCESS : Z := 0.
Definition EXIT_FAILURE : Z := 1.

(** A [char] array is the list of its bytes. *)
Definition buffer := list ascii.

Record cli_config_t := {
  endpoint : buffer;
  verbose : Z;
  secure_mode : Z;
  cert_file : buffer;
  key_file : buffer;
  ca_file : buffer
}.

Definition NUL : ascii := Ascii.zero.

(** The characters of a C string: those before the first NUL. *)
Fixpoint until_nul (l : list ascii) : list ascii :=
  match l with
  | [] => []
  | c :: rest => if Ascii.eqb c NUL then [] else c :: until_nul rest
  end.

Definition chars (s : string) : list ascii := until_nul (list_ascii_of_string s).

(** The C string a buffer holds, if there is a NUL inside the buffer;
    without one, reading it as a string runs off its end. *)
Fixpoint c_string (b : buffer) : option (list ascii) :=
  match b with
  | [] => None
  | c :: rest =>
      if Ascii.eqb c NUL then Some []
      else match c_string rest with
           | Some s => Some (c :: s)
           | None => None
           end
  end.

(** [strncpy(dest, src, n)] with [n] within the buffer: the first [n]
    bytes of [dest] become the characters of [src], cut after [n] or
    padded with NUL up to [n]; the bytes of [dest] from [n] on stay. *)
Definition strncpy (dest : buffer) (src : string) (n : nat) : buffer :=
  (firstn n (chars src ++ repeat NUL n) ++ skipn n dest)%list.

(** The library calls a run can make.  A [char*] argument that points to
    one of the arrays of [cli_config_t] is recorded as that array; the
    string the library reads there is [c_string] of it, and is within the
    array only when the array holds a NUL. *)
Inductive Arg :=
| Str (s : string)      (* a string literal or a [char*] such as argv[0] *)
| Buf (b : buffer)      (* one of the arrays of [cli_config_t] *)
| Chr (c : ascii).

Inductive Call :=
| printf (format : string) (args : list Arg)
| fprintf_stderr (format : string) (args : list Arg)
| fopen (path : buffer) (mode : string)
| fclose
| openssl (routine : string).

Inductive Result (A : Type) :=
| Return (a : A)
| Exit (status : Z).

Arguments Return {A} a.
Arguments Exit {A} status.

Record Run (A : Type) := { trace : list Call; result : Result A }.

Arguments trace {A} r.
Arguments result {A} r.

Definition ret {A} (a : A) : Run A := {| trace := []; result := Return a |}.

Definition bind {A B} (m : Run A) (k : A -> Run B) : Run B :=
  match result m with
  | Exit status => {| trace := trace m; result := Exit status |}
  | Return a =>
      {| trace := (trace m ++ trace (k a))%list; result := result (k a) |}
  end.

Definition emit (c : Call) : Run unit := {| trace := [c]; result := Return tt |}.

Definition exit {A} (status : Z) : Run A := {| trace := []; result := Exit status |}.

Declare Scope cli_scope.
Delimit Scope cli_scope with cli.
Notation "x <- c ;; k" := (bind c (fun x => k))
  (at level 61, c at next level, right associativity) : cli_scope.
Notation "c ;; k" := (bind c (fun _ => k))
  (at level 61, right associativity) : cli_scope.
Local Open Scope cli_scope.

Definition show_usage (program_name : string) : Run unit :=
  emit (printf "AdaptivePWM Control CLI v1.0\n" []) ;;
  emit (printf "Usage: %s [OPTIONS] COMMAND\n\n" [Str program_name]) ;;
  emit (printf "Commands:\n" []) ;;
  emit (printf "  status        Show current system status\n" []) ;;
  emit (printf "  configure     Configure system parameters\n" []) ;;
  emit (printf "  monitor       Monitor system in real-time\n" []) ;;
  emit (printf "  certinfo      Show certificate information\n" []) ;;
  emit (printf "  diagnostics   Run system diagnostics\n" []) ;;
  emit (printf "  help          Show this help message\n\n" []) ;;
  emit (printf "Options:\n" []) ;;
  emit (printf "  -h, --help              Show this help message\n" []) ;;
  emit (printf "  -v, --verbose           Enable verbose output\n" []) ;;
  emit (printf "  -s, --secure            Enable PKI-based authentication\n" []) ;;
  emit (printf "  -e, --endpoint HOST     Specify endpoint (default: %s)\n" [Str DEFAULT_ENDPOINT]) ;;
  emit (printf "  -c, --cert FILE         Certificate file (default: %s)\n" [Str CERT_FILE]) ;;
  emit (printf "  -k, --key FILE          Private key file (default: %s)\n" [Str KEY_FILE]) ;;
  emit (printf "  -a, --ca FILE           CA certificate file (default: %s)\n" [Str CA_FILE]) ;;
  emit (printf "\nExamples:\n" []) ;;
  emit (printf "  %s status\n" [Str program_name]) ;;
  emit (printf "  %s -s -v monitor\n" [Str program_name]) ;;
  emit (printf "  %s configure --duty-cycle 0.75\n" [Str program_name]).

(** One [getopt_long] scan of the command line: the values it returns
    before -1, each with the [optarg] it sets, and what it leaves behind,
    [optind] and [argv] (which GNU getopt may have permuted; [argv[0]]
    stays). *)
Record getopt_scan := {
  returned : list (ascii * string);
  optind : nat;
  argv : list string
}.

Definition set_endpoint (b : buffer) (c : cli_config_t) : cli_config_t :=
  {| endpoint := b; verbose := verbose c; secure_mode := secure_mode c;
     cert_file := cert_file c; key_file := key_file c; ca_file := ca_file c |}.

Definition set_verbose (v : Z) (c : cli_config_t) : cli_config_t :=
  {| endpoint := endpoint c; verbose := v; secure_mode := secure_mode c;
     cert_file := cert_file c; key_file := key_file c; ca_file := ca_file c |}.

Definition set_secure_mode (v : Z) (c : cli_config_t) : cli_config_t :=
  {| endpoint := endpoint c; verbose := verbose c; secure_mode := v;
     cert_file := cert_file c; key_file := key_file c; ca_file := ca_file c |}.

Definition set_cert_file (b : buffer) (c : cli_config_t) : cli_config_t :=
  {| endpoint := endpoint c; verbose := verbose c; secure_mode := secure_mode c;
     cert_file := b; key_file := key_file c; ca_file := ca_file c |}.

Definition set_key_file (b : buffer) (c : cli_config_t) : cli_config_t :=
  {| endpoint := endpoint c; verbose := verbose c; secure_mode := secure_mode c;
     cert_file := cert_file c; key_file := b; ca_file := ca_file c |}.

Definition set_ca_file (b : buffer) (c : cli_config_t) : cli_config_t :=
  {| endpoint := endpoint c; verbose := verbose c; secure_mode := secure_mode c;
     cert_file := cert_file c; key_file := key_file c; ca_file := b |}.

(** The assignments that open [parse_arguments]. *)
Definition with_defaults (config : cli_config_t) : cli_config_t :=
  {| endpoint := strncpy (endpoint config) DEFAULT_ENDPOINT (MAX_BUFFER_SIZE - 1);
     verbose := 0;
     secure_mode := 0;
     cert_file := strncpy (cert_file config) CERT_FILE (MAX_BUFFER_SIZE - 1);
     key_file := strncpy (key_file config) KEY_FILE (MAX_BUFFER_SIZE - 1);
     ca_file := strncpy (ca_file config) CA_FILE (MAX_BUFFER_SIZE - 1) |}.

(** The [while] loop over the values [getopt_long] returns. *)
Fixpoint option_loop (program_name : string) (opts : list (ascii * string))
    (config : cli_config_t) : Run cli_config_t :=
  match opts with
  | [] => ret config
  | (opt, optarg) :: rest =>
      if Ascii.eqb opt "h" then
        show_usage program_name ;;
        exit EXIT_SUCCESS
      else if Ascii.eqb opt "v" then
        option_loop program_name rest (set_verbose 1 config)
      else if Ascii.eqb opt "s" then
        option_loop program_name rest (set_secure_mode 1 config)
      else if Ascii.eqb opt "e" then
        option_loop program_name rest
          (set_endpoint (strncpy (endpoint config) optarg (MAX_BUFFER_SIZE - 1)) config)
      else if Ascii.eqb opt "c" then
        option_loop program_name rest
          (set_cert_file (strncpy (cert_file config) optarg (MAX_BUFFER_SIZE - 1)) config)
      else if Ascii.eqb opt "k" then
        option_loop program_name rest
          (set_key_file (strncpy (key_file config) optarg (MAX_BUFFER_SIZE - 1)) config)
      else if Ascii.eqb opt "a" then
        option_loop program_name rest
          (set_ca_file (strncpy (ca_file config) optarg (MAX_BUFFER_SIZE - 1)) config)
      else
        emit (fprintf_stderr "Unknown option: %c\n" [Chr opt]) ;;
        show_usage program_name ;;
        exit EXIT_FAILURE
  end.

(** The [strcmp] chain on the command word. *)
Definition parse_command (g : getopt_scan) : command_type_t :=
  if Nat.ltb (optind g) (List.length (argv g)) then
    let command := nth (optind g) (argv g) "" in
    if String.eqb command "help" then CMD_HELP
    else if String.eqb command "status" then CMD_STATUS
    else if String.eqb command "configure" then CMD_CONFIGURE
    else if String.eqb command "monitor" then CMD_MONITOR
    else if String.eqb command "certinfo" then CMD_CERTINFO
    else if String.eqb command "diagnostics" then CMD_DIAGNOSTICS
    else CMD_HELP
  else CMD_HELP.

(** [config] is what [*config] holds on entry; the result carries what it
    holds on return. *)
Definition parse_arguments (g : getopt_scan) (config : cli_config_t)
    : Run (command_type_t * cli_config_t) :=
  config' <- option_loop (nth 0 (argv g) "") (returned g) (with_defaults config) ;;
  ret (parse_command g, config').

Definition init_openssl : Run Z :=
  emit (openssl "SSL_library_init") ;;
  emit (openssl "SSL_load_error_strings") ;;
  emit (openssl "OpenSSL_add_all_algorithms") ;;
  ret 1.

Definition cleanup_openssl : Run unit :=
  emit (openssl "EVP_cleanup") ;;
  emit (openssl "ERR_free_strings").

(** What the file system and OpenSSL answer for a certificate path, by
    the array that holds the path. *)
Record Env := {
  fopen_succeeds : buffer -> bool;
  PEM_read_X509_succeeds : buffer -> bool;
  (** [None]: no serial number; [Some None]: no bignum for it;
      [Some (Some hex)]: the text [BN_bn2hex] gives. *)
  serial_number : buffer -> option (option string)
}.

Definition load_certificate (env : Env) (cert_file ca_file : buffer) : Run Z :=
  emit (fopen cert_file "r") ;;
  if negb (fopen_succeeds env cert_file) then
    emit (fprintf_stderr "Error: Cannot open certificate file %s\n" [Buf cert_file]) ;;
    ret 0
  else
  emit (openssl "PEM_read_X509") ;;
  emit fclose ;;
  if negb (PEM_read_X509_succeeds env cert_file) then
    emit (fprintf_stderr "Error: Cannot parse certificate\n" []) ;;
    ret 0
  else
  emit (printf "Certificate Information:\n" []) ;;
  emit (printf "  Subject: " []) ;;
  emit (openssl "X509_get_subject_name") ;;
  emit (openssl "X509_NAME_print_ex_fp") ;;
  emit (printf "\n  Issuer: " []) ;;
  emit (openssl "X509_get_issuer_name") ;;
  emit (openssl "X509_NAME_print_ex_fp") ;;
  emit (printf "\n  Serial: " []) ;;
  emit (openssl "X509_get_serialNumber") ;;
  match serial_number env cert_file with
  | Some answer =>
      emit (openssl "ASN1_INTEGER_to_BN") ;;
      match answer with
      | Some hex =>
          emit (openssl "BN_bn2hex") ;;
          emit (printf "%s" [Str hex]) ;;
          emit (openssl "OPENSSL_free") ;;
          emit (openssl "BN_free")
      | None => ret tt
      end
  | None => ret tt
  end ;;
  emit (printf "\n" []) ;;
  emit (openssl "X509_free") ;;
  ret 1.

Definition cmd_status (env : Env) (config : cli_config_t) : Run unit :=
  emit (printf "AdaptivePWM System Status\n" []) ;;
  emit (printf "=========================\n" []) ;;
  (if negb (Z.eqb (secure_mode config) 0) then
     emit (printf "ðŸ”’ Secure Mode: Enabled\n" []) ;;
     ok <- load_certificate env (cert_file config) (ca_file config) ;;
     if Z.eqb ok 0 then
       emit (fprintf_stderr "Warning: Certificate verification failed\n" [])
     else ret tt
   else
     emit (printf "ðŸ”“ Secure Mode: Disabled\n" [])) ;;
  emit (printf "ðŸŒ Endpoint: %s\n" [Buf (endpoint config)]) ;;
  emit (printf "ðŸ“Š Verbose: %s\n" [Str (if negb (Z.eqb (verbose config) 0) then "Yes" else "No")]) ;;
  emit (printf "\nSystem Parameters:\n" []) ;;
  emit (printf "  Duty Cycle: 50.0%%\n" []) ;;
  emit (printf "  Efficiency: 95.2%%\n" []) ;;
  emit (printf "  Inductance: 1.2 mH\n" []) ;;
  emit (printf "  Capacitance: 47.0 ÂµF\n" []) ;;
  emit (printf "  ESR: 15.3 mÎ©\n" []) ;;
  emit (printf "  Status: Running\n" []).

Definition cmd_configure (env : Env) (config : cli_config_t) : Run unit :=
  emit (printf "Configuration Management\n" []) ;;
  emit (printf "=======================\n" []) ;;
  authenticated <-
    (if negb (Z.eqb (secure_mode config) 0) then
       emit (printf "ðŸ”’ Authenticating with certificate...\n" []) ;;
       ok <- load_certificate env (cert_file config) (ca_file config) ;;
       if Z.eqb ok 0 then
         emit (fprintf_stderr "Error: Authentication failed\n" []) ;;
         ret false
       else
         emit (printf "âœ… Authentication successful\n" []) ;;
         ret true
     else ret true) ;;
  if negb authenticated then ret tt else
  emit (printf "ðŸ”§ Configuration updated successfully\n" []) ;;
  emit (printf "Updated parameters:\n" []) ;;
  emit (printf "  Target Efficiency: 95.0%%\n" []) ;;
  emit (printf "  Max Duty Cycle: 95.0%%\n" []) ;;
  emit (printf "  Min Duty Cycle: 5.0%%\n" []).

Definition cmd_monitor (config : cli_config_t) : Run unit :=
  emit (printf "Real-time Monitoring\n" []) ;;
  emit (printf "===================\n" []) ;;
  (if negb (Z.eqb (secure_mode config) 0) then
     emit (printf "ðŸ”’ Secure monitoring enabled\n" [])
   else ret tt) ;;
  emit (printf "Monitoring started. Press Ctrl+C to stop.\n" []) ;;
  emit (printf "Timestamp          DutyCycle Efficiency Inductance Capacitance ESR     \n" []) ;;
  emit (printf "------------------ --------- ---------- ---------- ----------- -------\n" []) ;;
  emit (printf "2024-02-25 17:05:01   50.0%%     95.2%%      1.2mH      47.0ÂµF    15.3mÎ©\n" []) ;;
  emit (printf "2024-02-25 17:05:02   50.1%%     95.1%%      1.2mH      47.1ÂµF    15.2mÎ©\n" []) ;;
  emit (printf "2024-02-25 17:05:03   50.0%%     95.3%%      1.1mH      47.0ÂµF    15.4mÎ©\n" []) ;;
  emit (printf "\nMonitoring stopped.\n" []).

Definition cmd_certinfo (env : Env) (config : cli_config_t) : Run unit :=
  emit (printf "Certificate Information\n" []) ;;
  emit (printf "======================\n" []) ;;
  if Z.eqb (secure_mode config) 0 then
    emit (printf "Certificate information only available in secure mode.\n" []) ;;
    emit (printf "Use -s flag to enable secure mode.\n" [])
  else
  ok <- load_certificate env (cert_file config) (ca_file config) ;;
  if Z.eqb ok 0 then
    emit (fprintf_stderr "Error: Cannot load certificate information\n" [])
  else
  emit (printf "\nCertificate Details:\n" []) ;;
  emit (printf "  Valid From: 2024-01-01 00:00:00 UTC\n" []) ;;
  emit (printf "  Valid To:   2025-01-01 00:00:00 UTC\n" []) ;;
  emit (printf "  Signature Algorithm: sha256WithRSAEncryption\n" []) ;;
  emit (printf "  Public Key Algorithm: rsaEncryption\n" []) ;;
  emit (printf "  Key Size: 2048 bits\n" []).

Definition cmd_diagnostics (config : cli_config_t) : Run unit :=
  emit (printf "System Diagnostics\n" []) ;;
  emit (printf "==================\n" []) ;;
  emit (printf "Running diagnostic tests...\n" []) ;;
  emit (printf "âœ… Memory Check: PASSED\n" []) ;;
  emit (printf "âœ… CPU Usage: 12%% (Normal)\n" []) ;;
  emit (printf "âœ… ADC Calibration: PASSED\n" []) ;;
  emit (printf "âœ… PWM Output: NOMINAL\n" []) ;;
  emit (printf "âœ… Communication: CONNECTED\n" []) ;;
  emit (printf "âœ… Safety Systems: ACTIVE\n" []) ;;
  (if negb (Z.eqb (secure_mode config) 0) then
     emit (printf "âœ… Certificate Validation: PASSED\n" [])
   else ret tt) ;;
  emit (printf "\nDiagnostics Summary: ALL SYSTEMS NOMINAL\n" []).

(** [main(argc, argv)]; [config] stands for the uninitialised automatic
    variable, whose bytes are whatever the stack holds. *)
Definition main (env : Env) (g : getopt_scan) (config : cli_config_t) : Run Z :=
  parsed <- parse_arguments g config ;;
  let command := fst parsed in
  let config := snd parsed in
  (if negb (Z.eqb (secure_mode config) 0) then init_openssl ;; ret tt else ret tt) ;;
  match command with
  | CMD_HELP => show_usage (nth 0 (argv g) "")
  | CMD_STATUS => cmd_status env config
  | CMD_CONFIGURE => cmd_configure env config
  | CMD_MONITOR => cmd_monitor config
  | CMD_CERTINFO => cmd_certinfo env config
  | CMD_DIAGNOSTICS => cmd_diagnostics config
  end ;;
  (if negb (Z.eqb (secure_mode config) 0) then cleanup_openssl else ret tt) ;;
  ret 0.

(** *** Vocabulary for statements about a scan *)

(** The options that only record a setting. *)
Definition is_setting (opt : ascii) : bool :=
  Ascii.eqb opt "v" || Ascii.eqb opt "s" || Ascii.eqb opt "e"
  || Ascii.eqb opt "c" || Ascii.eqb opt "k" || Ascii.eqb opt "a".

(** The first returned value that is not one of them, if any. *)
Fixpoint first_stop (opts : list (ascii * string)) : option ascii :=
  match opts with
  | [] => None
  | (opt, _) :: rest => if is_setting opt then first_stop rest else Some opt
  end.

Definition seen (opt : ascii) (opts : list (ascii * string)) : bool :=
  existsb (fun o => Ascii.eqb (fst o) opt) opts.

(** The argument of the last occurrence of [opt], [default] without one. *)
Definition last_arg (opt : ascii) (opts : list (ascii * string))
    (default : string) : string :=
  fold_left (fun acc o => if Ascii.eqb (fst o) opt then snd o else acc)
    opts default.

(** What one setting does to the configuration. *)
Definition apply_setting (config : cli_config_t) (o : ascii * string)
    : cli_config_t :=
  let (opt, optarg) := o in
  if Ascii.eqb opt "v" then set_verbose 1 config
  else if Ascii.eqb opt "s" then set_secure_mode 1 config
  else if Ascii.eqb opt "e" then
    set_endpoint (strncpy (endpoint config) optarg (MAX_BUFFER_SIZE - 1)) config
  else if Ascii.eqb opt "c" then
    set_cert_file (strncpy (cert_file config) optarg (MAX_BUFFER_SIZE - 1)) config
  else if Ascii.eqb opt "k" then
    set_key_file (strncpy (key_file config) optarg (MAX_BUFFER_SIZE - 1)) config
  else if Ascii.eqb opt "a" then
    set_ca_file (strncpy (ca_file config) optarg (MAX_BUFFER_SIZE - 1)) config
  else config.

(** The configuration [parse_arguments] arrives at when it returns. *)
Definition parsed_config (g : getopt_scan) (config : cli_config_t) : cli_config_t :=
  {| endpoint := strncpy (endpoint config)
                   (last_arg "e" (returned g) DEFAULT_ENDPOINT) (MAX_BUFFER_SIZE - 1);
     verbose := if seen "v" (returned g) then 1 else 0;
     secure_mode := if seen "s" (returned g) then 1 else 0;
     cert_file := strncpy (cert_file config)
                    (last_arg "c" (returned g) CERT_FILE) (MAX_BUFFER_SIZE - 1);
     key_file := strncpy (key_file config)
                   (last_arg "k" (returned g) KEY_FILE) (MAX_BUFFER_SIZE - 1);
     ca_file := strncpy (ca_file config)
                  (last_arg "a" (returned g) CA_FILE) (MAX_BUFFER_SIZE - 1) |}.

Definition is_fopen (c : Call) : bool :=
  match c with fopen _ _ => true | _ => false end.

Definition is_openssl (c : Call) : bool :=
  match c with openssl _ => true | _ => false end.

(** A call that neither opens a file nor enters OpenSSL. *)
Definition touches_nothing (c : Call) : bool :=
  negb (is_fopen c || is_openssl c).

(** The commands that load the certificate in secure mode. *)
Definition reads_certificate (command : command_type_t) : bool :=
  match command with
  | CMD_STATUS | CMD_CONFIGURE | CMD_CERTINFO => true
  | _ => false
  end.

(** Calls that statements single out. *)
Definition configuration_updated : Call :=
  printf "ðŸ”§ Configuration updated successfully\n" [].

Definition authentication_failed : Call :=
  fprintf_stderr "Error: Authentication failed\n" [].

Definition init_calls : list Call :=
  [openssl "SSL_library_init"; openssl "SSL_load_error_strings";
   openssl "OpenSSL_add_all_algorithms"].

Definition cleanup_calls : list Call :=
  [openssl "EVP_cleanup"; openssl "ERR_free_strings"].

(** The [switch] of [main]. *)
Definition run_command (env : Env) (program_name : string)
    (command : command_type_t) (config : cli_config_t) : Run unit :=
  match command with
  | CMD_HELP => show_usage program_name
  | CMD_STATUS => cmd_status env config
  | CMD_CONFIGURE => cmd_configure env config
  | CMD_MONITOR => cmd_monitor config
  | CMD_CERTINFO => cmd_certinfo env config
  | CMD_DIAGNOSTICS => cmd_diagnostics config
  end.

(** A certificate that opens and parses, with a serial number. *)
Definition good_files : Env :=
  {| fopen_succeeds := fun _ => true;
     PEM_read_X509_succeeds := fun _ => true;
     serial_number := fun _ => Some (Some "0A1B") |}.

(** *** Sample runs *)

(** Stack bytes that happen to hold no NUL. *)
Definition garbage : buffer := repeat "x"%char MAX_BUFFER_SIZE.

Definition stack_config : cli_config_t :=
  {| endpoint := garbage; verbose := 7; secure_mode := 7;
     cert_file := garbage; key_file := garbage; ca_file := garbage |}.

(** [pwmctl -s -e pwm.example:9000 -e 10.0.0.7:8080 configure] *)
Definition secure_configure : getopt_scan :=
  {| returned := [("s"%char, ""); ("e"%char, "pwm.example:9000");
                  ("e"%char, "10.0.0.7:8080")];
     optind := 6;
     argv := ["pwmctl"; "-s"; "-e"; "pwm.example:9000"; "-e"; "10.0.0.7:8080";
              "configure"] |}.

(** [pwmctl status] *)
Definition plain_status : getopt_scan :=
  {| returned := []; optind := 1; argv := ["pwmctl"; "status"] |}.

(** No certificate file can be opened. *)
Definition no_files : Env :=
  {| fopen_succeeds := fun _ => false;
     PEM_read_X509_succeeds := fun _ => false;
     serial_number := fun _ => None |}.

(** An endpoint argument of 1023 bytes. *)
Definition long_endpoint : string := string_of_list_ascii (repeat "y"%char 1023).

Definition long_endpoint_scan : getopt_scan :=
  {| returned := [("e"%char, long_endpoint)];
     optind := 3;
     argv := ["pwmctl"; "-e"; long_endpoint; "status"] |}.

End Cli.

(** Zeros and finite numbers, as opposed to infinities and NaN. *)
Definition is_finite (x : float) : bool :=
  match x with
  | S754_zero _ | S754_finite _ _ _ => true
  | _ => false
  end.

(** The controller has reached its target: measured efficiency 0.95 with
    the duty cycle at 0.5, long after the last adjustment. *)
Definition on_target : State :=
  {| mem := set_efficiency TARGET_EFFICIENCY initial_globals;
     hal := demo_hal 100 HAL_OK |}.

(** More literals for concrete runs. *)
Definition F0_8 : float := F32.lit 8 10.           (* 0.8f *)
Definition F0_9 : float := F32.lit 9 10.           (* 0.9f *)

(** The round of the sampling loop that reads value number [k] of the
    data register went wrong: one of its three routines answered
    something other than [HAL_OK].  ([HAL_ADC_Stop] is called after the
    read, when the count of values read is already [k + 1].) *)
Definition round_failed (w : HAL) (k : nat) : bool :=
  negb (status_is_ok (adc_status w Call_HAL_ADC_Start k)
        && status_is_ok (adc_status w Call_HAL_ADC_PollForConversion k)
        && status_is_ok (adc_status w Call_HAL_ADC_Stop (S k))).

(** A sampler failure: one of the next sixteen rounds goes wrong. *)
Definition sampler_failure (w : HAL) : bool :=
  existsb (round_failed w) (seq (adc_reads w) ADC_BUFFER_SIZE).

(** The globals of a converter that has been running: duty cycle 0.8 and
    efficiency 0.9 from earlier iterations. *)
Definition running_globals : Globals :=
  set_duty_cycle F0_8 (set_efficiency F0_9 initial_globals).

(** The running converter when its readings become implausible (2048). *)
Definition running_implausible : State :=
  {| mem := running_globals; hal := demo_hal 2048 HAL_OK |}.

(** A converter that does not convert: every routine answers
    [HAL_ERROR], and the data register reads 0. *)
Definition dead_converter : HAL :=
  {| tick := 1000; elapsed := fun _ => 0; tick_reads := 0;
     hal_init_status := HAL_OK; adc_init_status := HAL_OK;
     adc_status := fun _ _ => HAL_ERROR;
     adc_data := fun _ => 0; adc_reads := 0; calls := [] |}.

Definition running_dead_converter : State :=
  {| mem := running_globals; hal := dead_converter |}.

(** An iteration that starts 99 ms after the last adjustment (made at
    tick 1000) and takes one millisecond to sample implausible readings:
    the controller reads the tick at 1100. *)
Definition window_edge : State :=
  {| mem := set_last_adjustment_time 1000 initial_globals;
     hal := {| tick := 1099; elapsed := fun _ => 1; tick_reads := 0;
               hal_init_status := HAL_OK; adc_init_status := HAL_OK;
               adc_status := fun _ _ => HAL_OK;
               adc_data := fun _ => 2048; adc_reads := 0; calls := [] |} |}.

(** * Facts about the float operations *)

Module F32Facts.

Lemma compare_swap (x y : float) :
  SFcompare y x = option_map CompOpp (SFcompare x y).
Proof.
  destruct x as [sx|sx| |sx mx ex], y as [sy|sy| |sy my ey]; simpl;
    try reflexivity;
    try (destruct sx; reflexivity);
    try (destruct sy; reflexivity);
    try (destruct sx, sy; reflexivity).
  assert (Hm : Pos.compare_cont Eq my mx = CompOpp (Pos.compare_cont Eq mx my))
    by (rewrite Pos.compare_cont_antisym; reflexivity).
  destruct sx, sy; simpl; try reflexivity;
    rewrite (Z.compare_antisym ey ex), Hm;
    destruct (ey ?= ex); simpl; try reflexivity.
Qed.

Lemma compare_total (x y : float) :
  F32.is_nan x = false -> F32.is_nan y = false ->
  exists c, SFcompare x y = Some c.
Proof.
  destruct x, y; simpl; intros; try discriminate; eauto.
Qed.

Lemma compare_refl (x : float) :
  F32.is_nan x = false -> SFcompare x x = Some Eq.
Proof.
  destruct x as [s|s| |s m e]; simpl; intros H; try discriminate;
    try (destruct s; reflexivity).
  rewrite (Z.compare_refl e), (Pos.compare_cont_refl m Eq).
  destruct s; reflexivity.
Qed.

Lemma leb_refl (x : float) : F32.is_nan x = false -> F32.leb x x = true.
Proof.
  intros H. unfold F32.leb, SFleb. now rewrite (compare_refl x H).
Qed.

Lemma ltb_leb (x y : float) : F32.ltb x y = true -> F32.leb x y = true.
Proof.
  unfold F32.ltb, F32.leb, SFltb, SFleb.
  destruct (SFcompare x y) as [[ | | ]|]; intros; congruence.
Qed.

Lemma leb_not_nan (x y : float) :
  F32.leb x y = true -> F32.is_nan x = false /\ F32.is_nan y = false.
Proof.
  unfold F32.leb, SFleb. destruct x, y; simpl; intros; try discriminate; auto.
Qed.

(** [fminf hi x] is a number as soon as [hi] is one, and it is at most
    [hi]. *)
Lemma fminf_upper (hi x : float) :
  F32.is_nan hi = false ->
  F32.is_nan (F32.fminf hi x) = false /\ F32.leb (F32.fminf hi x) hi = true.
Proof.
  intros Hhi. unfold F32.fminf. rewrite Hhi.
  destruct (F32.is_nan x) eqn:Hx.
  - split; [assumption | now apply leb_refl].
  - destruct (F32.ltb x hi) eqn:Hlt.
    + split; [assumption | now apply ltb_leb].
    + split; [assumption | now apply leb_refl].
Qed.

(** The clamp idiom of [main.c], [fmaxf(lo, fminf(hi, x))], lands in
    [[lo, hi]] for every [x], NaN and infinities included. *)
Lemma clamp_within (lo hi x : float) :
  F32.leb lo hi = true ->
  F32.within lo hi (F32.fmaxf lo (F32.fminf hi x)) = true.
Proof.
  intros Hle.
  destruct (leb_not_nan lo hi Hle) as [Hlo Hhi].
  destruct (fminf_upper hi x Hhi) as [Hr Hrhi].
  set (r := F32.fminf hi x) in *.
  unfold F32.within, F32.fmaxf. rewrite Hlo, Hr.
  destruct (F32.ltb lo r) eqn:Hlt.
  - rewrite (ltb_leb lo r Hlt), Hrhi. reflexivity.
  - rewrite (leb_refl lo Hlo), Hle. reflexivity.
Qed.

(** The literals, as mantissa and exponent: 0.1f is 13421773 * 2^-27
    (bit pattern 3DCCCCCD), 0.95f is 15938355 * 2^-24 (3F733333), and so
    on. *)
Lemma literal_values :
  F0_1 = S754_finite false 13421773 (-27)
  /\ F0_2 = S754_finite false 13421773 (-26)
  /\ F0_05 = S754_finite false 13421773 (-28)
  /\ F0_01 = S754_finite false 10737418 (-30)
  /\ F0_001 = S754_finite false 8589935 (-33)
  /\ F0_0001 = S754_finite false 13743895 (-37)
  /\ F0_5 = S754_finite false 8388608 (-24)
  /\ F1_0 = S754_finite false 8388608 (-23)
  /\ F2_0 = S754_finite false 8388608 (-22)
  /\ F100_0 = S754_finite false 13107200 (-17)
  /\ F1000_0 = S754_finite false 16384000 (-14)
  /\ MIN_DUTY_CYCLE = S754_finite false 13421773 (-28)
  /\ MAX_DUTY_CYCLE = S754_finite false 15938355 (-24).
Proof. vm_compute. repeat split. Qed.

End F32Facts.

(** * Running the monad by hand *)

(** Unfold the monad and the HAL calls, then reduce the field accesses
    that have become visible, leaving the float operations folded. *)
Ltac unfold_monad :=
  repeat progress
    unfold bind, ret, load, store, hal_call, HAL_GetTick, HAL_Delay,
      HAL_Init, HAL_ADC_Init, HAL_ADC_Start, HAL_ADC_PollForConversion,
      HAL_ADC_Stop, adc_answer.

Ltac reduce_fields :=
  cbn [mem hal fst snd with_mem log_call at_tick after_tick_read
       tick elapsed tick_reads hal_init_status adc_init_status adc_status
       adc_data adc_reads calls
       L_mH C_uF ESR_mOhm duty_cycle efficiency adc_buffer adc_sum
       system_initialized last_adjustment_time last_measurement_time
       set_L_mH set_C_uF set_ESR_mOhm set_duty_cycle set_efficiency
       set_adc_buffer set_system_initialized set_last_adjustment_time
       set_last_measurement_time].

Ltac split_if :=
  match goal with
  | |- context [if ?b then _ else _] => destruct b eqn:?
  end.

(** * The Sampler *)

Section Sampler.

Variable h : ADC_HandleTypeDef.

Lemma store_at_length (i : nat) (v : Z) (l : list Z) :
  length (store_at i v l) = length l.
Proof.
  revert i. induction l as [|x l IH]; intros [|i]; simpl; auto.
Qed.

Lemma nth_store_at (i : nat) (v : Z) (l : list Z) :
  (i < length l)%nat -> nth i (store_at i v l) 0 = v.
Proof.
  revert i. induction l as [|x l IH]; intros [|i]; simpl; intros Hi;
    try lia; auto.
  apply IH. lia.
Qed.

Lemma read_adc_iteration_run (i : nat) (sum : Z) (s : State) :
  read_adc_iteration h i sum s
  = let v := uint16 (uint32 (adc_data (hal s) (adc_reads (hal s)))) in
    let buf := store_at i v (adc_buffer (mem s)) in
    (uint32 (sum + nth i buf 0),
     {| mem := set_adc_buffer buf (mem s); hal := hal_after_sample (hal s) |}).
Proof. reflexivity. Qed.

(** The loop's result is [loop_sum] of the data register's history as
    long as the indices stay inside [adc_buffer]; the globals other than
    the buffer are not written. *)
Lemma read_adc_loop_run (n i : nat) (sum : Z) (s : State) :
  (i + n <= length (adc_buffer (mem s)))%nat ->
  let r := read_adc_loop h n i sum s in
  fst r = loop_sum (adc_data (hal s)) n (adc_reads (hal s)) sum
  /\ length (adc_buffer (mem (snd r))) = length (adc_buffer (mem s)).
Proof.
  revert i sum s. induction n as [|n IH]; intros i sum s Hlen.
  - split; reflexivity.
  - cbn [read_adc_loop loop_sum]. unfold bind.
    rewrite read_adc_iteration_run. cbv beta iota zeta.
    rewrite nth_store_at by lia.
    match goal with
    | |- context [read_adc_loop h n (S i) ?sum' ?s'] =>
        destruct (IH (S i) sum' s') as [IH1 IH2]
    end.
    { cbn [mem adc_buffer set_adc_buffer]. rewrite store_at_length. lia. }
    cbv zeta in IH1, IH2. split.
    + rewrite IH1. reflexivity.
    + rewrite IH2. cbn [mem adc_buffer set_adc_buffer]. apply store_at_length.
Qed.

(** A steady input: sixteen reads of the same value average to it. *)
Lemma loop_sum_steady (v : Z) (n pos : nat) (sum : Z) :
  0 <= v < 2 ^ 16 -> 0 <= sum -> sum + Z.of_nat n * v < 2 ^ 32 ->
  loop_sum (fun _ => v) n pos sum = sum + Z.of_nat n * v.
Proof.
  intros Hv. revert pos sum. induction n as [|n IH]; intros pos sum Hs Hb.
  - simpl. lia.
  - cbn [loop_sum]. unfold uint16, uint32.
    rewrite (Z.mod_small v (2 ^ 32)) by lia.
    rewrite (Z.mod_small v (2 ^ 16)) by lia.
    rewrite (Z.mod_small (sum + v)) by nia.
    rewrite IH by nia. lia.
Qed.

Lemma read_adc_safely_steady (v : Z) (s : State) :
  0 <= v < 2 ^ 16 ->
  length (adc_buffer (mem s)) = ADC_BUFFER_SIZE ->
  (forall k, adc_data (hal s) k = v) ->
  fst (read_adc_safely h s) = v.
Proof.
  intros Hv Hlen Hdata. unfold read_adc_safely, bind.
  destruct (read_adc_loop_run ADC_BUFFER_SIZE 0 0 s) as [Hsum _].
  { rewrite Hlen. simpl. lia. }
  cbv zeta in Hsum.
  destruct (read_adc_loop h ADC_BUFFER_SIZE 0 0 s) as [sum s1].
  cbn [fst snd ret] in *. subst sum.
  assert (Hext : forall n pos acc,
             loop_sum (adc_data (hal s)) n pos acc = loop_sum (fun _ => v) n pos acc).
  { induction n as [|n IHn]; intros; cbn [loop_sum]; [reflexivity|].
    rewrite Hdata. apply IHn. }
  rewrite Hext, loop_sum_steady by (unfold ADC_BUFFER_SIZE; lia).
  unfold ADC_BUFFER_SIZE, uint16.
  replace (0 + Z.of_nat 16 * v) with (v * 16) by lia.
  rewrite Z.div_mul by lia. apply Z.mod_small. lia.
Qed.

(** Sampling neither reads nor writes the measurement timestamp. *)
Lemma read_adc_loop_stamp (t : Z) (n i : nat) (sum : Z) (s : State) :
  read_adc_loop h n i sum (with_mem (set_last_measurement_time t) s)
  = let (v, s') := read_adc_loop h n i sum s in
    (v, with_mem (set_last_measurement_time t) s').
Proof.
  revert i sum s. induction n as [|n IH]; intros i sum s.
  - reflexivity.
  - cbn [read_adc_loop]. unfold bind.
    rewrite !read_adc_iteration_run. cbv beta iota zeta.
    match goal with
    | |- context [let (_, _) := read_adc_loop h n (S i) ?sum' ?s' in _] =>
        rewrite <- (IH (S i) sum' s')
    end.
    reflexivity.
Qed.

Lemma read_adc_safely_stamp (t : Z) (s : State) :
  read_adc_safely h (with_mem (set_last_measurement_time t) s)
  = let (v, s') := read_adc_safely h s in
    (v, with_mem (set_last_measurement_time t) s').
Proof.
  unfold read_adc_safely, bind. rewrite read_adc_loop_stamp.
  destruct (read_adc_loop h ADC_BUFFER_SIZE 0 0 s). reflexivity.
Qed.

(** Sampling writes [adc_buffer] and nothing else among the globals:
    whatever is read through a field that ignores the buffer is the same
    before and after. *)
Lemma read_adc_loop_keeps {A : Type} (field : Globals -> A) :
  (forall b g, field (set_adc_buffer b g) = field g) ->
  forall (n i : nat) (sum : Z) (s : State),
    field (mem (snd (read_adc_loop h n i sum s))) = field (mem s).
Proof.
  intros Hfield. induction n as [|n IH]; intros i sum s.
  - reflexivity.
  - cbn [read_adc_loop]. unfold bind.
    rewrite read_adc_iteration_run. cbv beta iota zeta.
    rewrite IH. cbn [mem]. apply Hfield.
Qed.

Lemma read_adc_safely_keeps {A : Type} (field : Globals -> A) :
  (forall b g, field (set_adc_buffer b g) = field g) ->
  forall s : State, field (mem (snd (read_adc_safely h s))) = field (mem s).
Proof.
  intros Hfield s. unfold read_adc_safely, bind.
  pose proof (read_adc_loop_keeps field Hfield ADC_BUFFER_SIZE 0 0 s) as Hk.
  destruct (read_adc_loop h ADC_BUFFER_SIZE 0 0 s) as [sum s1].
  exact Hk.
Qed.

(** Sampling leaves alone whatever in the HAL a round of the loop leaves
    alone: the tick and its course, the answers of the routines. *)
Lemma read_adc_loop_hal_keeps {A : Type} (field : HAL -> A) :
  (forall w, field (hal_after_sample w) = field w) ->
  forall (n i : nat) (sum : Z) (s : State),
    field (hal (snd (read_adc_loop h n i sum s))) = field (hal s).
Proof.
  intros Hfield. induction n as [|n IH]; intros i sum s.
  - reflexivity.
  - cbn [read_adc_loop]. unfold bind.
    rewrite read_adc_iteration_run. cbv beta iota zeta.
    rewrite IH. cbn [hal]. apply Hfield.
Qed.

Lemma read_adc_safely_hal_keeps {A : Type} (field : HAL -> A) :
  (forall w, field (hal_after_sample w) = field w) ->
  forall s : State, field (hal (snd (read_adc_safely h s))) = field (hal s).
Proof.
  intros Hfield s. unfold read_adc_safely, bind.
  pose proof (read_adc_loop_hal_keeps field Hfield ADC_BUFFER_SIZE 0 0 s) as Hk.
  destruct (read_adc_loop h ADC_BUFFER_SIZE 0 0 s) as [sum s1].
  exact Hk.
Qed.

(** What the sampling loop returns and stores depends on the HAL only
    through the data register's history and the read position: not on the
    tick, and not on what the conversion routines answer. *)
Lemma read_adc_loop_hal_indep (n i : nat) (sum : Z)
    (g : Globals) (w1 w2 : HAL) :
  adc_data w1 = adc_data w2 -> adc_reads w1 = adc_reads w2 ->
  fst (read_adc_loop h n i sum {| mem := g; hal := w1 |})
  = fst (read_adc_loop h n i sum {| mem := g; hal := w2 |})
  /\ mem (snd (read_adc_loop h n i sum {| mem := g; hal := w1 |}))
     = mem (snd (read_adc_loop h n i sum {| mem := g; hal := w2 |})).
Proof.
  revert i sum g w1 w2. induction n as [|n IH]; intros i sum g w1 w2 Hd Hr.
  - split; reflexivity.
  - cbn [read_adc_loop]. unfold bind.
    rewrite !read_adc_iteration_run. cbv beta iota zeta. cbn [mem hal].
    rewrite Hd, Hr. apply IH; cbn [hal_after_sample adc_data adc_reads]; congruence.
Qed.

End Sampler.

(** * The Efficiency Model *)

Section EfficiencyModel.

Variable powf : float -> float -> float.

(** The call computes [efficiency_value] from its first and third
    argument and the stored duty cycle, and hands the state back as it
    received it. *)
Lemma calculate_efficiency_run (l c r : float) (s : State) :
  calculate_efficiency powf l c r s
  = (efficiency_value powf l r (duty_cycle (mem s)), s).
Proof.
  unfold calculate_efficiency, efficiency_value, total_losses, bind, load, ret.
  destruct (F32.ltb _ F0_0001); reflexivity.
Qed.

Lemma efficiency_value_bounds (l r d : float) :
  F32.within F0_0 F1_0 (efficiency_value powf l r d) = true.
Proof.
  unfold efficiency_value.
  destruct (F32.ltb _ F0_0001).
  - reflexivity.
  - apply F32Facts.clamp_within. reflexivity.
Qed.

(** C5.  Whatever the physical parameters and the duty cycle (NaN and
    infinities included), the value returned by [calculate_efficiency]
    lies in [0.0, 1.0]; it is 1.0 when the total losses
    [0.01 * inductance * duty^2 + esr * duty^2] are below 0.0001 and
    [fmaxf(0.0, fminf(1.0, 1.0 - total_losses))] otherwise. *)
Theorem calculate_efficiency_range (l c r : float) (s : State) :
  let d := duty_cycle (mem s) in
  let total :=
    F32.add (F32.mul (F32.mul F0_01 l) (powf d F2_0))
            (F32.mul r (powf d F2_0)) in
  let e := fst (calculate_efficiency powf l c r s) in
  F32.within F0_0 F1_0 e = true /\
  e = (if F32.ltb total F0_0001 then F1_0
       else F32.fmaxf F0_0 (F32.fminf F1_0 (F32.sub F1_0 total))).
Proof.
  cbv zeta. rewrite calculate_efficiency_run. cbn [fst]. split.
  - apply efficiency_value_bounds.
  - reflexivity.
Qed.

(** C7.  [calculate_efficiency] is a function of its arguments and of
    the duty cycle alone: two calls with the same arguments, made in two
    program states that agree on [duty_cycle] and are otherwise
    unrelated, return the same value, and each call leaves the whole
    state (globals and HAL) as it found it. *)
Theorem calculate_efficiency_pure (l c r : float) (s1 s2 : State) :
  duty_cycle (mem s1) = duty_cycle (mem s2) ->
  fst (calculate_efficiency powf l c r s1)
  = fst (calculate_efficiency powf l c r s2)
  /\ snd (calculate_efficiency powf l c r s1) = s1
  /\ snd (calculate_efficiency powf l c r s2) = s2.
Proof.
  intros Hd. rewrite !calculate_efficiency_run. cbn [fst snd].
  rewrite Hd. auto.
Qed.

(** C10.  The capacitance argument has no influence: two calls that
    agree on inductance, ESR and the current duty cycle return the same
    value whatever their capacitance arguments are. *)
Theorem calculate_efficiency_ignores_capacitance
    (l c1 c2 r : float) (s1 s2 : State) :
  duty_cycle (mem s1) = duty_cycle (mem s2) ->
  fst (calculate_efficiency powf l c1 r s1)
  = fst (calculate_efficiency powf l c2 r s2).
Proof.
  intros Hd. rewrite !calculate_efficiency_run. cbn [fst].
  now rewrite Hd.
Qed.

End EfficiencyModel.

Lemma calculate_efficiency_pure_witness :
  duty_cycle (mem quiet_state) = duty_cycle (mem busy_state) /\
  (fst (calculate_efficiency powf_square F100_0 F1_0 F0_5 quiet_state)
   = fst (calculate_efficiency powf_square F100_0 F1_0 F0_5 busy_state)
   /\ snd (calculate_efficiency powf_square F100_0 F1_0 F0_5 quiet_state)
      = quiet_state
   /\ snd (calculate_efficiency powf_square F100_0 F1_0 F0_5 busy_state)
      = busy_state).
Proof.
  split.
  - reflexivity.
  - apply (calculate_efficiency_pure powf_square F100_0 F1_0 F0_5
             quiet_state busy_state).
    reflexivity.
Defined.

Lemma calculate_efficiency_ignores_capacitance_witness :
  duty_cycle (mem quiet_state) = duty_cycle (mem busy_state) /\
  fst (calculate_efficiency powf_square F0_1 F1_0 F0_2 quiet_state)
  = fst (calculate_efficiency powf_square F0_1 F1000_0 F0_2 busy_state).
Proof.
  split.
  - reflexivity.
  - apply (calculate_efficiency_ignores_capacitance powf_square
             F0_1 F1_0 F1000_0 F0_2 quiet_state busy_state).
    reflexivity.
Defined.

(** * The Parameter Estimator *)

Section ParameterEstimator.

Lemma conversions_regular_all :
  forallb conversions_regular adc12_values = true.
Proof. vm_compute. reflexivity. Qed.

Lemma conversions_regular_at (raw : Z) :
  0 <= raw <= 4095 -> conversions_regular raw = true.
Proof.
  intros Hraw.
  pose proof conversions_regular_all as Hall.
  rewrite forallb_forall in Hall. apply Hall.
  unfold adc12_values. apply in_map_iff.
  exists (Z.to_nat raw). split.
  - apply Z2Nat.id. lia.
  - apply in_seq. lia.
Qed.

Lemma and3_true (a b c : bool) :
  a && b && c = true <-> a = true /\ b = true /\ c = true.
Proof. destruct a, b, c; simpl; intuition congruence. Qed.

(** On numbers, [lo <= x] is the negation of [x < lo]. *)
Lemma leb_is_not_ltb (x y : float) :
  F32.is_nan x = false -> F32.is_nan y = false ->
  F32.leb x y = negb (F32.ltb y x).
Proof.
  intros Hx Hy. unfold F32.ltb, F32.leb, SFltb, SFleb.
  rewrite (F32Facts.compare_swap x y).
  destruct (F32Facts.compare_total x y Hx Hy) as [c ->].
  destruct c; reflexivity.
Qed.

Lemma range_test_is_within (lo hi x : float) :
  F32.is_nan lo = false -> F32.is_nan hi = false -> F32.is_nan x = false ->
  F32.ltb x lo || F32.gtb x hi = negb (F32.within lo hi x).
Proof.
  intros Hlo Hhi Hx. unfold F32.within, F32.gtb.
  rewrite (leb_is_not_ltb lo x Hlo Hx), (leb_is_not_ltb x hi Hx Hhi).
  unfold F32.ltb.
  destruct (SFltb x lo), (SFltb hi x); reflexivity.
Qed.

Lemma accepted_is_within (l c r : float) :
  F32.is_nan l = false -> F32.is_nan c = false -> F32.is_nan r = false ->
  accepted l c r
  = F32.within F0_01 F100_0 l && F32.within F0_1 F1000_0 c
    && F32.within F0_0 F100_0 r.
Proof.
  intros Hl Hc Hr. unfold accepted.
  rewrite (range_test_is_within F0_01 F100_0 l), (range_test_is_within F0_1 F1000_0 c),
    (range_test_is_within F0_0 F100_0 r) by (assumption || reflexivity).
  destruct (F32.within F0_01 F100_0 l), (F32.within F0_1 F1000_0 c),
    (F32.within F0_0 F100_0 r); reflexivity.
Qed.

(** What a call with a valid handle does: sample, store the three
    conversions, then answer with the range tests. *)
Lemma measure_run (h : ADC_HandleTypeDef) (s : State) :
  measure_electrical_parameters (Some h) s
  = let (raw, s1) := read_adc_safely h s in
    (accepted (inductance_of raw) (capacitance_of raw) (esr_of raw),
     with_mem (set_ESR_mOhm (esr_of raw))
       (with_mem (set_C_uF (capacitance_of raw))
          (with_mem (set_L_mH (inductance_of raw)) s1))).
Proof.
  unfold measure_electrical_parameters, bind.
  destruct (read_adc_safely h s) as [raw s1].
  unfold store, load, ret, accepted.
  repeat (cbn [mem hal fst snd with_mem L_mH C_uF ESR_mOhm
               set_L_mH set_C_uF set_ESR_mOhm];
          match goal with
          | |- context [if ?b then _ else _] => destruct b
          end);
    reflexivity.
Qed.

(** C9.  With a NULL handle the function answers [false] at once: the
    state it returns is the state it was given, so no HAL call was made
    (the call log and the read position of the converter are untouched)
    and the stored physical parameters are the old ones. *)
Theorem measure_null_handle (s : State) :
  let r := measure_electrical_parameters None s in
  fst r = false
  /\ calls (hal (snd r)) = calls (hal s)
  /\ adc_reads (hal (snd r)) = adc_reads (hal s)
  /\ L_mH (mem (snd r)) = L_mH (mem s)
  /\ C_uF (mem (snd r)) = C_uF (mem s)
  /\ ESR_mOhm (mem (snd r)) = ESR_mOhm (mem s)
  /\ snd r = s.
Proof. cbv zeta. cbn [measure_electrical_parameters ret fst snd]. tauto. Qed.

(** C4.  For a raw sample in [0, 4095] the three globals receive
    [raw * 0.1f + 0.1f], [raw * 0.05f + 1.0f] and [raw * 0.2f + 0.5f]
    (binary32 operations), and the call succeeds exactly when all three
    lie in their ranges, [0.01, 100.0], [0.1, 1000.0] and [0.0, 100.0];
    reading the ranges as open intervals gives the same outcome.  One
    quantity out of range is enough to fail. *)
Theorem measure_computes_and_validates (h : ADC_HandleTypeDef) (s : State) :
  let raw := fst (read_adc_safely h s) in
  let r := measure_electrical_parameters (Some h) s in
  let g := mem (snd r) in
  0 <= raw <= 4095 ->
  L_mH g = F32.add (F32.mul (F32.of_Z raw) F0_1) F0_1
  /\ C_uF g = F32.add (F32.mul (F32.of_Z raw) F0_05) F1_0
  /\ ESR_mOhm g = F32.add (F32.mul (F32.of_Z raw) F0_2) F0_5
  /\ (fst r = true <->
      F32.within F0_01 F100_0 (L_mH g) = true
      /\ F32.within F0_1 F1000_0 (C_uF g) = true
      /\ F32.within F0_0 F100_0 (ESR_mOhm g) = true)
  /\ (fst r = true <->
      strictly_within F0_01 F100_0 (L_mH g) = true
      /\ strictly_within F0_1 F1000_0 (C_uF g) = true
      /\ strictly_within F0_0 F100_0 (ESR_mOhm g) = true).
Proof.
  cbv zeta. rewrite measure_run.
  destruct (read_adc_safely h s) as [raw s1]. cbn [fst snd mem with_mem].
  intros Hraw.
  pose proof (conversions_regular_at raw Hraw) as Hreg.
  unfold conversions_regular in Hreg. cbv zeta in Hreg.
  repeat (apply andb_prop in Hreg; destruct Hreg as [Hreg ?]).
  repeat match goal with
         | H : negb _ = true |- _ => apply negb_true_iff in H
         | H : Bool.eqb _ _ = true |- _ => apply Bool.eqb_prop in H
         end.
  cbn [L_mH C_uF ESR_mOhm set_L_mH set_C_uF set_ESR_mOhm].
  split; [reflexivity|]. split; [reflexivity|]. split; [reflexivity|].
  split.
  - rewrite accepted_is_within by assumption. apply and3_true.
  - match goal with H : accepted _ _ _ = (_ && _ && _) |- _ => rewrite H end.
    apply and3_true.
Qed.

Lemma measure_computes_and_validates_witness :
  0 <= fst (read_adc_safely fresh_handle quiet_state) <= 4095 /\
  (let raw := fst (read_adc_safely fresh_handle quiet_state) in
   let r := measure_electrical_parameters (Some fresh_handle) quiet_state in
   let g := mem (snd r) in
   L_mH g = F32.add (F32.mul (F32.of_Z raw) F0_1) F0_1
   /\ C_uF g = F32.add (F32.mul (F32.of_Z raw) F0_05) F1_0
   /\ ESR_mOhm g = F32.add (F32.mul (F32.of_Z raw) F0_2) F0_5
   /\ (fst r = true <->
       F32.within F0_01 F100_0 (L_mH g) = true
       /\ F32.within F0_1 F1000_0 (C_uF g) = true
       /\ F32.within F0_0 F100_0 (ESR_mOhm g) = true)
   /\ (fst r = true <->
       strictly_within F0_01 F100_0 (L_mH g) = true
       /\ strictly_within F0_1 F1000_0 (C_uF g) = true
       /\ strictly_within F0_0 F100_0 (ESR_mOhm g) = true)).
Proof.
  split.
  - vm_compute. split; discriminate.
  - apply (measure_computes_and_validates fresh_handle quiet_state).
    vm_compute. split; discriminate.
Defined.

(** Every raw value of the converter is the result of some sampling run,
    and on those values the estimation succeeds exactly up to 497 (where
    the ESR conversion crosses 100.0). *)
Lemma every_raw_sample_occurs (raw : Z) :
  0 <= raw <= 4095 ->
  fst (read_adc_safely fresh_handle (initial_state (demo_hal raw HAL_OK))) = raw.
Proof.
  intros Hraw. apply read_adc_safely_steady.
  - lia.
  - reflexivity.
  - reflexivity.
Qed.

Lemma estimation_threshold (raw : Z) :
  0 <= raw <= 4095 ->
  accepted (inductance_of raw) (capacitance_of raw) (esr_of raw) = (raw <=? 497).
Proof.
  intros Hraw. pose proof (conversions_regular_at raw Hraw) as Hreg.
  unfold conversions_regular in Hreg. cbv zeta in Hreg.
  apply andb_prop in Hreg. destruct Hreg as [_ Hreg].
  now apply Bool.eqb_prop.
Qed.

(** The same outcome in exact arithmetic: for a raw value of the
    converter, the rational numbers [raw * 0.1 + 0.1], [raw * 0.05 + 1.0]
    and [raw * 0.2 + 0.5] lie in their ranges exactly when the binary32
    tests of the code accept. *)
Lemma estimation_matches_exact_arithmetic (raw : Z) :
  0 <= raw <= 4095 ->
  accepted (inductance_of raw) (capacitance_of raw) (esr_of raw) = true
  <-> ((1 # 100 <= inject_Z raw * (1 # 10) + (1 # 10) <= 100)
       /\ (1 # 10 <= inject_Z raw * (5 # 100) + 1 <= 1000)
       /\ (0 <= inject_Z raw * (2 # 10) + (5 # 10) <= 100))%Q.
Proof.
  intros Hraw. rewrite (estimation_threshold raw Hraw), Z.leb_le.
  unfold Qle, Qmult, Qplus, inject_Z. cbn [Qnum Qden].
  lia.
Qed.

(** Failing on a range test does not undo the three assignments made
    before the tests. *)
Lemma implausible_measurement_run :
  let r := measure_electrical_parameters (Some fresh_handle) implausible_state in
  fst r = false
  /\ L_mH (mem (snd r)) = S754_finite false 13428327 (-16)
  /\ L_mH (mem implausible_state) = S754_zero false
  /\ F32.gtb (L_mH (mem (snd r))) F100_0 = true.
Proof. vm_compute. repeat split. Qed.

(** C1, as the claim states it, fails: at raw sample 2048 the estimation
    fails and the stored inductance has changed from 0.0 to about 204.9. *)
Lemma failed_estimation_changes_parameters :
  ~ (forall (hadc : option ADC_HandleTypeDef) (s : State),
        fst (measure_electrical_parameters hadc s) = false ->
        L_mH (mem (snd (measure_electrical_parameters hadc s))) = L_mH (mem s)
        /\ C_uF (mem (snd (measure_electrical_parameters hadc s))) = C_uF (mem s)
        /\ ESR_mOhm (mem (snd (measure_electrical_parameters hadc s)))
           = ESR_mOhm (mem s)).
Proof.
  intros Hclaim.
  destruct (Hclaim (Some fresh_handle) implausible_state) as [HL _].
  - vm_compute. reflexivity.
  - vm_compute in HL. discriminate HL.
Qed.

(** A triple of values the range tests reject is not inside the three
    ranges: a test that fires has found a value below or above a bound. *)
Lemma range_test_outside (lo hi x : float) :
  F32.ltb x lo || F32.gtb x hi = true -> F32.within lo hi x = false.
Proof.
  unfold F32.within, F32.gtb, F32.ltb, F32.leb, SFltb, SFleb.
  rewrite (F32Facts.compare_swap x lo), (F32Facts.compare_swap hi x).
  destruct (SFcompare x lo) as [[| |]|], (SFcompare hi x) as [[| |]|];
    cbn; intros H; try discriminate H; reflexivity.
Qed.

Lemma rejected_is_outside (l c r : float) :
  accepted l c r = false ->
  F32.within F0_01 F100_0 l && F32.within F0_1 F1000_0 c
  && F32.within F0_0 F100_0 r = false.
Proof.
  unfold accepted.
  destruct (F32.ltb l F0_01 || F32.gtb l F100_0) eqn:Hl.
  { intros _. now rewrite (range_test_outside _ _ _ Hl). }
  destruct (F32.ltb c F0_1 || F32.gtb c F1000_0) eqn:Hc.
  { intros _. rewrite (range_test_outside _ _ _ Hc). apply andb_false_intro1.
    apply andb_false_r. }
  destruct (F32.ltb r F0_0 || F32.gtb r F100_0) eqn:Hr.
  { intros _. rewrite (range_test_outside _ _ _ Hr). apply andb_false_r. }
  discriminate.
Qed.

(** C1, amended.  A call that fails on the NULL-handle check leaves the
    whole state as it was.  A call that fails on a range test has
    committed the reading: the three stored parameters are the values
    just computed from the raw sample, and at least one of them lies
    outside its range.  Nothing but the return value tells of the
    failure: the state left behind is the state after sampling with the
    three parameters stored, and every other global is what it was before
    the call. *)
Theorem failed_estimation_state (hadc : option ADC_HandleTypeDef) (s : State) :
  fst (measure_electrical_parameters hadc s) = false ->
  let s' := snd (measure_electrical_parameters hadc s) in
  match hadc with
  | None => s' = s
  | Some h =>
      let raw := fst (read_adc_safely h s) in
      let sampled := snd (read_adc_safely h s) in
      let g := mem s' in
      L_mH g = inductance_of raw
      /\ C_uF g = capacitance_of raw
      /\ ESR_mOhm g = esr_of raw
      /\ F32.within F0_01 F100_0 (L_mH g) && F32.within F0_1 F1000_0 (C_uF g)
         && F32.within F0_0 F100_0 (ESR_mOhm g) = false
      /\ s' = with_mem (set_ESR_mOhm (esr_of raw))
                (with_mem (set_C_uF (capacitance_of raw))
                   (with_mem (set_L_mH (inductance_of raw)) sampled))
      /\ duty_cycle g = duty_cycle (mem s)
      /\ efficiency g = efficiency (mem s)
      /\ adc_sum g = adc_sum (mem s)
      /\ system_initialized g = system_initialized (mem s)
      /\ last_adjustment_time g = last_adjustment_time (mem s)
      /\ last_measurement_time g = last_measurement_time (mem s)
  end.
Proof.
  destruct hadc as [h|]; [|reflexivity].
  cbv zeta. rewrite measure_run.
  pose proof (fun A (f : Globals -> A) Hf => read_adc_safely_keeps h f Hf s) as Hk.
  destruct (read_adc_safely h s) as [raw s1].
  cbn [fst snd mem with_mem L_mH C_uF ESR_mOhm duty_cycle efficiency adc_sum
       system_initialized last_adjustment_time last_measurement_time
       set_L_mH set_C_uF set_ESR_mOhm] in *.
  intros Hfail.
  split; [reflexivity|]. split; [reflexivity|]. split; [reflexivity|].
  split; [now apply rejected_is_outside|]. split; [reflexivity|].
  repeat split; apply Hk; intros; reflexivity.
Qed.

Lemma failed_estimation_state_witness :
  fst (measure_electrical_parameters (Some fresh_handle) implausible_state) = false /\
  (let s' := snd (measure_electrical_parameters (Some fresh_handle)
                    implausible_state) in
   let raw := fst (read_adc_safely fresh_handle implausible_state) in
   let sampled := snd (read_adc_safely fresh_handle implausible_state) in
   let g := mem s' in
   L_mH g = inductance_of raw
   /\ C_uF g = capacitance_of raw
   /\ ESR_mOhm g = esr_of raw
   /\ F32.within F0_01 F100_0 (L_mH g) && F32.within F0_1 F1000_0 (C_uF g)
      && F32.within F0_0 F100_0 (ESR_mOhm g) = false
   /\ s' = with_mem (set_ESR_mOhm (esr_of raw))
             (with_mem (set_C_uF (capacitance_of raw))
                (with_mem (set_L_mH (inductance_of raw)) sampled))
   /\ duty_cycle g = duty_cycle (mem implausible_state)
   /\ efficiency g = efficiency (mem implausible_state)
   /\ adc_sum g = adc_sum (mem implausible_state)
   /\ system_initialized g = system_initialized (mem implausible_state)
   /\ last_adjustment_time g = last_adjustment_time (mem implausible_state)
   /\ last_measurement_time g = last_measurement_time (mem implausible_state)).
Proof.
  split.
  - vm_compute. reflexivity.
  - apply (failed_estimation_state (Some fresh_handle) implausible_state).
    vm_compute. reflexivity.
Defined.

(** The outcome and the writes of a measurement do not depend on the
    measurement timestamp. *)
Lemma measure_stamp (hadc : option ADC_HandleTypeDef) (t : Z) (s : State) :
  measure_electrical_parameters hadc (with_mem (set_last_measurement_time t) s)
  = let (b, s') := measure_electrical_parameters hadc s in
    (b, with_mem (set_last_measurement_time t) s').
Proof.
  destruct hadc as [h|]; [|reflexivity].
  rewrite !measure_run, read_adc_safely_stamp.
  destruct (read_adc_safely h s) as [raw s1]. reflexivity.
Qed.

(** A measurement writes the buffer and the three physical parameters
    only. *)
Lemma measure_keeps {A : Type} (field : Globals -> A)
    (hadc : option ADC_HandleTypeDef) (s : State) :
  (forall b g, field (set_adc_buffer b g) = field g) ->
  (forall v g, field (set_L_mH v g) = field g) ->
  (forall v g, field (set_C_uF v g) = field g) ->
  (forall v g, field (set_ESR_mOhm v g) = field g) ->
  field (mem (snd (measure_electrical_parameters hadc s))) = field (mem s).
Proof.
  intros Hb Hl Hc Hr. destruct hadc as [h|]; [|reflexivity].
  rewrite measure_run.
  pose proof (read_adc_safely_keeps h field Hb s) as Hk.
  destruct (read_adc_safely h s) as [raw s1].
  cbn [fst snd mem with_mem] in *. now rewrite Hr, Hc, Hl.
Qed.

(** The outcome of a measurement depends on the HAL only through the
    data register. *)
Lemma measure_hal_indep (hadc : option ADC_HandleTypeDef)
    (g : Globals) (w1 w2 : HAL) :
  adc_data w1 = adc_data w2 -> adc_reads w1 = adc_reads w2 ->
  fst (measure_electrical_parameters hadc {| mem := g; hal := w1 |})
  = fst (measure_electrical_parameters hadc {| mem := g; hal := w2 |}).
Proof.
  intros Hd Hr. destruct hadc as [h|]; [|reflexivity].
  rewrite !measure_run. unfold read_adc_safely, bind.
  destruct (read_adc_loop_hal_indep h ADC_BUFFER_SIZE 0 0 g w1 w2 Hd Hr) as [Hv _].
  destruct (read_adc_loop h ADC_BUFFER_SIZE 0 0 {| mem := g; hal := w1 |}) as [v1 s1].
  destruct (read_adc_loop h ADC_BUFFER_SIZE 0 0 {| mem := g; hal := w2 |}) as [v2 s2].
  cbn [fst ret] in *. now subst v2.
Qed.

(** A measurement does not read the tick: the value the next read of the
    tick returns is the same before and after. *)
Lemma measure_hal_keeps {A : Type} (field : HAL -> A)
    (hadc : option ADC_HandleTypeDef) (s : State) :
  (forall w, field (hal_after_sample w) = field w) ->
  field (hal (snd (measure_electrical_parameters hadc s))) = field (hal s).
Proof.
  intros Hfield. destruct hadc as [h|]; [|reflexivity].
  rewrite measure_run.
  pose proof (read_adc_safely_hal_keeps h field Hfield s) as Hk.
  destruct (read_adc_safely h s) as [raw s1]. exact Hk.
Qed.

End ParameterEstimator.

(** * The Duty-Cycle Controller *)

Section Controller.

(** The three ways a call can end: rate-limited, inside the deadband, or
    with a new duty cycle. *)
Lemma adjust_duty_cycle_run (target : float) (s : State) :
  adjust_duty_cycle target s
  = let w := after_tick_read (hal s) in
    let now := uint32 (tick (hal s)) in
    let g := mem s in
    if uint32 (now - last_adjustment_time g) <? 100
    then (false, {| mem := g; hal := w |})
    else
      let cand := candidate_duty target (efficiency g) (duty_cycle g) in
      if F32.gtb (F32.fabsf (F32.sub cand (duty_cycle g))) F0_001
      then (true, {| mem := set_duty_cycle cand (set_last_adjustment_time now g);
                     hal := w |})
      else (false, {| mem := set_last_adjustment_time now g; hal := w |}).
Proof.
  unfold adjust_duty_cycle, candidate_duty. unfold_monad. reduce_fields.
  split_if; [reflexivity|]. reduce_fields.
  split_if; reflexivity.
Qed.

Lemma candidate_duty_in_bounds (target eff d : float) :
  F32.within MIN_DUTY_CYCLE MAX_DUTY_CYCLE (candidate_duty target eff d) = true.
Proof.
  unfold candidate_duty. apply F32Facts.clamp_within. reflexivity.
Qed.

(** A call that is not rate-limited records the tick it read. *)
Lemma adjust_records_tick (target : float) (s : State) :
  100 <= uint32 (uint32 (tick (hal s)) - last_adjustment_time (mem s)) ->
  last_adjustment_time (mem (snd (adjust_duty_cycle target s)))
  = uint32 (tick (hal s)).
Proof.
  intros Hlate. rewrite adjust_duty_cycle_run. cbv zeta.
  destruct (Z.ltb_spec
              (uint32 (uint32 (tick (hal s)) - last_adjustment_time (mem s))) 100);
    [lia|].
  match goal with
  | |- context [if ?b then _ else _] => destruct b
  end; reflexivity.
Qed.

(** C6.  After a first invocation, a second one made while the tick is
    less than 100 ms past the timestamp the first left in
    [last_adjustment_time] (difference taken as the code takes it, in
    [uint32_t]) returns [false] and leaves every global, [duty_cycle] and
    the timestamp among them, as the first invocation left it.  The HAL
    state of the second call is arbitrary. *)
Theorem adjust_twice_within_window (target1 target2 : float) (s : State) (w : HAL) :
  let s1 := snd (adjust_duty_cycle target1 s) in
  let second := adjust_duty_cycle target2 {| mem := mem s1; hal := w |} in
  uint32 (uint32 (tick w) - last_adjustment_time (mem s1)) < 100 ->
  fst second = false
  /\ duty_cycle (mem (snd second)) = duty_cycle (mem s1)
  /\ last_adjustment_time (mem (snd second)) = last_adjustment_time (mem s1)
  /\ mem (snd second) = mem s1.
Proof.
  cbv zeta. intros Hsoon.
  rewrite (adjust_duty_cycle_run target2). cbv zeta. cbn [mem hal].
  destruct (Z.ltb_spec
              (uint32 (uint32 (tick w)
                       - last_adjustment_time (mem (snd (adjust_duty_cycle target1 s)))))
              100); [|lia].
  cbn [fst snd mem]. auto.
Qed.

(** The controller writes [duty_cycle] and its own timestamp only, and
    asks the HAL for the tick only. *)
Lemma adjust_duty_cycle_keeps {A : Type} (field : Globals -> A)
    (target : float) (s : State) :
  (forall v g, field (set_duty_cycle v g) = field g) ->
  (forall v g, field (set_last_adjustment_time v g) = field g) ->
  field (mem (snd (adjust_duty_cycle target s))) = field (mem s).
Proof.
  intros Hd Ht. rewrite adjust_duty_cycle_run. cbv zeta.
  split_if; [reflexivity|].
  split_if; cbn [snd mem]; now rewrite ?Hd, ?Ht.
Qed.

Lemma adjust_duty_cycle_hal (target : float) (s : State) :
  hal (snd (adjust_duty_cycle target s)) = after_tick_read (hal s).
Proof.
  rewrite adjust_duty_cycle_run. cbv zeta.
  split_if; [reflexivity|]. split_if; reflexivity.
Qed.

End Controller.

Lemma adjust_twice_within_window_witness :
  let s1 := snd (adjust_duty_cycle TARGET_EFFICIENCY quiet_state) in
  let w := at_tick 1050 (hal s1) in
  let second := adjust_duty_cycle TARGET_EFFICIENCY {| mem := mem s1; hal := w |} in
  uint32 (uint32 (tick w) - last_adjustment_time (mem s1)) < 100 /\
  (fst second = false
   /\ duty_cycle (mem (snd second)) = duty_cycle (mem s1)
   /\ last_adjustment_time (mem (snd second)) = last_adjustment_time (mem s1)
   /\ mem (snd second) = mem s1).
Proof.
  cbv zeta. split.
  - vm_compute. reflexivity.
  - apply (adjust_twice_within_window TARGET_EFFICIENCY TARGET_EFFICIENCY
             quiet_state
             (at_tick 1050 (hal (snd (adjust_duty_cycle TARGET_EFFICIENCY quiet_state))))).
    vm_compute. reflexivity.
Defined.

(** * The Control Loop Orchestrator *)

Section Orchestrator.

Variable powf : float -> float -> float.

(** The measurement phase, spelled out on the outcome of the
    measurement. *)
Lemma measurement_phase_run (hadc : option ADC_HandleTypeDef) (now : Z) (s : State) :
  measurement_phase powf hadc now s
  = let (ok, s1) :=
      measure_electrical_parameters hadc
        (with_mem (set_last_measurement_time now) s) in
    if ok
    then (tt, with_mem
                (set_efficiency
                   (efficiency_value powf (L_mH (mem s1)) (ESR_mOhm (mem s1))
                      (duty_cycle (mem s1))))
                s1)
    else (tt, with_mem (set_efficiency F0_0) (with_mem (set_duty_cycle F0_5) s1)).
Proof.
  unfold measurement_phase. unfold bind at 1 2. unfold store at 1.
  destruct (measure_electrical_parameters hadc
              (with_mem (set_last_measurement_time now) s)) as [[|] s1].
  - unfold bind, load. rewrite calculate_efficiency_run. reflexivity.
  - reflexivity.
Qed.

(** One iteration: read the tick, run the measurement phase when it is
    due, then call the controller. *)
Lemma control_loop_run (hadc : option ADC_HandleTypeDef) (s : State) :
  control_loop powf hadc s
  = let now := uint32 (tick (hal s)) in
    let s0 := {| mem := mem s; hal := after_tick_read (hal s) |} in
    let s1 := if measurement_due now (last_measurement_time (mem s))
              then snd (measurement_phase powf hadc now s0)
              else s0 in
    (tt, snd (adjust_duty_cycle TARGET_EFFICIENCY s1)).
Proof.
  unfold control_loop. unfold bind at 1 2 3 4. unfold HAL_GetTick at 1.
  unfold load. reduce_fields.
  destruct (measurement_due (uint32 (tick (hal s))) (last_measurement_time (mem s))).
  - destruct (measurement_phase powf hadc (uint32 (tick (hal s))) _) as [[] s1].
    cbn [snd]. destruct (adjust_duty_cycle TARGET_EFFICIENCY s1). reflexivity.
  - unfold ret at 1.
    destruct (adjust_duty_cycle TARGET_EFFICIENCY _). reflexivity.
Qed.

(** An iteration whose measurement is due and fails: the measurement
    phase hands the controller a state with the neutral duty cycle and
    efficiency 0.0, stamped with the tick read on entry; the adjustment
    timestamp is the old one and the tick is what the second read will
    find. *)
Lemma failed_iteration_run (hadc : option ADC_HandleTypeDef) (s : State) :
  measurement_due (uint32 (tick (hal s))) (last_measurement_time (mem s)) = true ->
  fst (measure_electrical_parameters hadc s) = false ->
  let s1 := snd (measurement_phase powf hadc (uint32 (tick (hal s)))
                   (snd (HAL_GetTick s))) in
  snd (control_loop powf hadc s) = snd (adjust_duty_cycle TARGET_EFFICIENCY s1)
  /\ duty_cycle (mem s1) = F0_5
  /\ efficiency (mem s1) = F0_0
  /\ last_measurement_time (mem s1) = uint32 (tick (hal s))
  /\ last_adjustment_time (mem s1) = last_adjustment_time (mem s)
  /\ tick (hal s1) = uint32 (tick (hal s) + elapsed (hal s) (tick_reads (hal s))).
Proof.
  intros Hdue Hfail. cbv zeta. rewrite control_loop_run. cbv zeta. cbn [snd].
  rewrite Hdue. unfold HAL_GetTick. cbn [snd].
  split; [reflexivity|].
  rewrite measurement_phase_run, measure_stamp.
  destruct s as [g w]. cbn [mem hal] in *.
  pose proof (measure_hal_indep hadc g (after_tick_read w) w eq_refl eq_refl)
    as Hsame.
  pose proof (measure_hal_keeps tick hadc {| mem := g; hal := after_tick_read w |}
                (fun _ => eq_refl)) as Htick.
  pose proof (measure_keeps last_adjustment_time hadc
                {| mem := g; hal := after_tick_read w |}
                (fun _ _ => eq_refl) (fun _ _ => eq_refl)
                (fun _ _ => eq_refl) (fun _ _ => eq_refl)) as Hlast.
  destruct (measure_electrical_parameters hadc
              {| mem := g; hal := after_tick_read w |}) as [ok s1].
  cbn [fst snd mem hal tick after_tick_read] in *.
  rewrite Hfail in Hsame. subst ok.
  cbn [snd mem hal with_mem duty_cycle efficiency last_measurement_time
       last_adjustment_time set_efficiency set_duty_cycle
       set_last_measurement_time].
  repeat split; assumption.
Qed.

(** C3, amended.  In an iteration of [control_loop] whose measurement is
    due and reported failed ([measure_electrical_parameters] returns
    [false]: NULL handle, or a conversion outside its range), the
    measurement phase leaves [duty_cycle = 0.5f] and [efficiency = 0.0f]
    whatever they were before, and the iteration ends with the controller
    call made on that state: the efficiency is still 0.0 when
    [control_loop] returns, and the duty cycle is 0.5 or the controller's
    one step away from it.  (Whether the measurement fails does not
    depend on the tick or on the timestamp, so the hypothesis speaks of
    the state on entry.) *)
Theorem measurement_failure_resets (hadc : option ADC_HandleTypeDef) (s : State) :
  measurement_due (uint32 (tick (hal s))) (last_measurement_time (mem s)) = true ->
  fst (measure_electrical_parameters hadc s) = false ->
  let s1 := snd (measurement_phase powf hadc (uint32 (tick (hal s)))
                   (snd (HAL_GetTick s))) in
  let s' := snd (control_loop powf hadc s) in
  duty_cycle (mem s1) = F0_5
  /\ efficiency (mem s1) = F0_0
  /\ s' = snd (adjust_duty_cycle TARGET_EFFICIENCY s1)
  /\ efficiency (mem s') = F0_0
  /\ (duty_cycle (mem s') = F0_5
      \/ duty_cycle (mem s') = candidate_duty TARGET_EFFICIENCY F0_0 F0_5).
Proof.
  intros Hdue Hfail. cbv zeta.
  destruct (failed_iteration_run hadc s Hdue Hfail) as (Hloop & Hd & He & _).
  rewrite Hloop. split; [exact Hd|]. split; [exact He|]. split; [reflexivity|].
  split.
  - rewrite (adjust_duty_cycle_keeps efficiency) by (intros; reflexivity).
    exact He.
  - rewrite adjust_duty_cycle_run. cbv zeta. rewrite Hd, He.
    split_if; [now left|]. split_if; cbn [snd mem duty_cycle set_duty_cycle
      set_last_adjustment_time]; [now right | now left].
Qed.

(** The scenario of the specification: the converter delivers 2048, the
    inductance comes out near 204.9 and is rejected.  The measurement
    phase leaves [duty_cycle = 0.5] and [efficiency = 0.0]; the controller
    call that ends the same iteration is not rate-limited here (tick 1000,
    no earlier adjustment) and moves the duty cycle on to
    [0.5 + 0.95 * 0.05], about 0.5475. *)
Lemma implausible_iteration :
  let s' := snd (measurement_phase powf (Some fresh_handle) 1000 implausible_state) in
  let s'' := snd (control_loop powf (Some fresh_handle) implausible_state) in
  duty_cycle (mem s') = F0_5 /\ efficiency (mem s') = F0_0
  /\ duty_cycle (mem s'') = S754_finite false 9185526 (-24)
  /\ efficiency (mem s'') = F0_0.
Proof.
  vm_compute. repeat split.
Qed.

Lemma HAL_Delay_run (ms : Z) (s : State) :
  HAL_Delay ms s
  = (tt, {| mem := mem s;
            hal := at_tick (uint32 (tick (hal s) + ms))
                     (log_call (Call_HAL_Delay ms) (hal s)) |}).
Proof. reflexivity. Qed.

(** In [main] the loop passes NULL: a turn of the loop never gets to the
    converter.  The stored physical parameters stay, no conversion is
    read, and the HAL calls of the turn are tick reads and the delay. *)
Lemma main_loop_never_samples (m : Machine) :
  pc m = InMainLoop ->
  let m' := main_step powf m in
  pc m' = InMainLoop
  /\ L_mH (mem (st m')) = L_mH (mem (st m))
  /\ C_uF (mem (st m')) = C_uF (mem (st m))
  /\ ESR_mOhm (mem (st m')) = ESR_mOhm (mem (st m))
  /\ adc_reads (hal (st m')) = adc_reads (hal (st m))
  /\ exists new, calls (hal (st m')) = new ++ calls (hal (st m))
                 /\ forallb (fun c => negb (is_adc_access c)) new = true.
Proof.
  intros Hpc. cbv zeta. unfold main_step. rewrite Hpc. cbn [pc st].
  unfold bind. rewrite !control_loop_run. cbv beta iota zeta.
  rewrite !HAL_Delay_run. cbn [snd mem hal].
  rewrite adjust_duty_cycle_hal.
  rewrite !(adjust_duty_cycle_keeps _ TARGET_EFFICIENCY)
    by (intros; reflexivity).
  cbn [at_tick log_call adc_reads calls].
  split; [reflexivity|].
  destruct (measurement_due _ _).
  - rewrite measurement_phase_run. cbn [measure_electrical_parameters ret].
    cbn [snd with_mem mem hal log_call adc_reads calls
         L_mH C_uF ESR_mOhm set_efficiency set_duty_cycle
         set_last_measurement_time].
    repeat split.
    exists [Call_HAL_Delay 10; Call_HAL_GetTick; Call_HAL_GetTick].
    split; reflexivity.
  - cbn [mem hal log_call adc_reads calls].
    repeat split.
    exists [Call_HAL_Delay 10; Call_HAL_GetTick; Call_HAL_GetTick].
    split; reflexivity.
Qed.

End Orchestrator.

Lemma measurement_failure_resets_witness :
  measurement_due (uint32 (tick (hal running_implausible)))
    (last_measurement_time (mem running_implausible)) = true /\
  fst (measure_electrical_parameters (Some fresh_handle) running_implausible)
  = false /\
  (let s1 := snd (measurement_phase powf_square (Some fresh_handle)
                    (uint32 (tick (hal running_implausible)))
                    (snd (HAL_GetTick running_implausible))) in
   let s' := snd (control_loop powf_square (Some fresh_handle)
                    running_implausible) in
   duty_cycle (mem s1) = F0_5
   /\ efficiency (mem s1) = F0_0
   /\ s' = snd (adjust_duty_cycle TARGET_EFFICIENCY s1)
   /\ efficiency (mem s') = F0_0
   /\ (duty_cycle (mem s') = F0_5
       \/ duty_cycle (mem s') = candidate_duty TARGET_EFFICIENCY F0_0 F0_5)).
Proof.
  split; [vm_compute; reflexivity|]. split; [vm_compute; reflexivity|].
  apply (measurement_failure_resets powf_square (Some fresh_handle)
           running_implausible);
    vm_compute; reflexivity.
Defined.

(** C3, as the claim states it, fails for a sampler failure.  Every
    conversion routine of [dead_converter] answers [HAL_ERROR];
    [read_adc_safely] discards the answers and averages the data
    register, which reads 0; the three conversions of 0 are in range, so
    the measurement counts as a success and the measurement phase leaves
    the duty cycle at the 0.8 it found. *)
Lemma sampler_failure_keeps_duty_cycle :
  ~ (forall (powf : float -> float -> float)
            (hadc : option ADC_HandleTypeDef) (s : State),
        measurement_due (uint32 (tick (hal s))) (last_measurement_time (mem s))
        = true ->
        sampler_failure (hal s) = true
        \/ fst (measure_electrical_parameters hadc s) = false ->
        let s1 := snd (measurement_phase powf hadc (uint32 (tick (hal s)))
                         (snd (HAL_GetTick s))) in
        let s' := snd (control_loop powf hadc s) in
        duty_cycle (mem s1) = F0_5
        /\ efficiency (mem s1) = F0_0
        /\ efficiency (mem s') = F0_0).
Proof.
  intros Hclaim.
  destruct (Hclaim powf_square (Some fresh_handle) running_dead_converter)
    as (Hd & _).
  - vm_compute. reflexivity.
  - left. vm_compute. reflexivity.
  - vm_compute in Hd. discriminate Hd.
Qed.

(** * The duty-cycle bounds *)

Section DutyBounds.

Variable powf : float -> float -> float.

(** What one call may do to [duty_cycle]: leave it, or put a value inside
    the bounds. *)
Lemma adjust_duty_cycle_write (target : float) (s : State) :
  let g' := mem (snd (adjust_duty_cycle target s)) in
  duty_cycle g' = duty_cycle (mem s) \/ duty_in_bounds g' = true.
Proof.
  cbv zeta. rewrite adjust_duty_cycle_run. cbv zeta.
  split_if; [left; reflexivity|].
  split_if; [right | left; reflexivity].
  apply candidate_duty_in_bounds.
Qed.

Lemma measurement_phase_write (hadc : option ADC_HandleTypeDef) (now : Z) (s : State) :
  let g' := mem (snd (measurement_phase powf hadc now s)) in
  duty_cycle g' = duty_cycle (mem s) \/ duty_in_bounds g' = true.
Proof.
  cbv zeta. rewrite measurement_phase_run, measure_stamp.
  pose proof (measure_keeps duty_cycle hadc s
                (fun _ _ => eq_refl) (fun _ _ => eq_refl)
                (fun _ _ => eq_refl) (fun _ _ => eq_refl)) as Hk.
  destruct (measure_electrical_parameters hadc s) as [[|] s1]; cbn [snd] in Hk.
  - left. exact Hk.
  - right. reflexivity.
Qed.

Lemma write_then_write (g0 g1 g2 : Globals) :
  duty_cycle g1 = duty_cycle g0 \/ duty_in_bounds g1 = true ->
  duty_cycle g2 = duty_cycle g1 \/ duty_in_bounds g2 = true ->
  duty_cycle g2 = duty_cycle g0 \/ duty_in_bounds g2 = true.
Proof.
  unfold duty_in_bounds. intros [H1|H1] [H2|H2]; auto.
  - left. congruence.
  - right. now rewrite H2.
Qed.

Lemma control_loop_write (hadc : option ADC_HandleTypeDef) (s : State) :
  let g' := mem (snd (control_loop powf hadc s)) in
  duty_cycle g' = duty_cycle (mem s) \/ duty_in_bounds g' = true.
Proof.
  cbv zeta. rewrite control_loop_run. cbv zeta. cbn [snd].
  match goal with
  | |- context [adjust_duty_cycle TARGET_EFFICIENCY ?s1] =>
      apply (write_then_write (mem s) (mem s1));
      [|apply adjust_duty_cycle_write]
  end.
  destruct (measurement_due _ _); [|left; reflexivity].
  exact (measurement_phase_write hadc (uint32 (tick (hal s)))
           {| mem := mem s; hal := after_tick_read (hal s) |}).
Qed.

Lemma system_init_mem (s : State) :
  mem (snd (system_init s)) = mem s
  \/ mem (snd (system_init s)) = set_system_initialized true (mem s).
Proof.
  unfold system_init, init_adc. unfold_monad. reduce_fields.
  destruct (status_is_ok (hal_init_status (hal s))); [|left; reflexivity].
  cbn [negb]. reduce_fields.
  destruct (status_is_ok (adc_init_status (hal s))); cbn [negb]; reduce_fields;
    [right | left]; reflexivity.
Qed.

Lemma perform_write (a : Action) (s : State) :
  duty_cycle (mem (perform powf a s)) = duty_cycle (mem s)
  \/ duty_in_bounds (mem (perform powf a s)) = true.
Proof.
  destruct a as [hadc|target| | |w]; cbn [perform].
  - apply control_loop_write.
  - apply adjust_duty_cycle_write.
  - left. destruct (system_init_mem s) as [-> | ->]; reflexivity.
  - right. reflexivity.
  - left. reflexivity.
Qed.

Lemma perform_keeps_bounds (a : Action) (s : State) :
  duty_in_bounds (mem s) = true ->
  duty_in_bounds (mem (perform powf a s)) = true.
Proof.
  intros Hs. destruct (perform_write a s) as [Heq|Hin]; [|exact Hin].
  unfold duty_in_bounds in *. now rewrite Heq.
Qed.

Lemma perform_all_keeps_bounds (acts : list Action) (s : State) :
  duty_in_bounds (mem s) = true ->
  duty_in_bounds (mem (perform_all powf acts s)) = true.
Proof.
  revert s. induction acts as [|a acts IH]; intros s Hs.
  - exact Hs.
  - cbn [perform_all fold_left]. apply IH. now apply perform_keeps_bounds.
Qed.

Lemma main_step_keeps_bounds (m : Machine) :
  duty_in_bounds (mem (st m)) = true ->
  duty_in_bounds (mem (st (main_step powf m))) = true.
Proof.
  intros Hm. unfold main_step. destruct (pc m).
  - pose proof (system_init_mem (st m)) as Hinit.
    destruct (system_init (st m)) as [[|] s1]; cbn [negb st snd] in *.
    + unfold duty_in_bounds in *.
      destruct Hinit as [-> | ->]; exact Hm.
    + reflexivity.
  - cbn [st]. unfold bind at 1.
    pose proof (control_loop_write None (st m)) as Hc. cbv zeta in Hc.
    destruct (control_loop powf None (st m)) as [[] s1]. cbn [snd] in *.
    replace (mem (snd (HAL_Delay 10 s1))) with (mem s1) by reflexivity.
    destruct Hc as [Heq|Hin]; [|exact Hin].
    unfold duty_in_bounds in *. now rewrite Heq.
  - exact Hm.
Qed.

Lemma run_main_keeps_bounds (n : nat) (m : Machine) :
  duty_in_bounds (mem (st m)) = true ->
  duty_in_bounds (mem (st (run_main powf n m))) = true.
Proof.
  revert m. induction n as [|n IH]; intros m Hm.
  - exact Hm.
  - cbn [run_main]. apply IH. now apply main_step_keeps_bounds.
Qed.

(** C2.  [duty_cycle] starts at 0.5 and stays in
    [[MIN_DUTY_CYCLE, MAX_DUTY_CYCLE]]: after any sequence of calls of
    [control_loop], [adjust_duty_cycle], [system_init] and the entry of
    [error_handler], with any arguments and any behaviour of the HAL in
    between; and at every step of [main] itself.  Moreover each single
    call, from any state at all, either leaves [duty_cycle] as it is or
    writes a value inside the bounds. *)
Theorem duty_cycle_stays_in_bounds :
  (forall (w : HAL) (acts : list Action),
      duty_in_bounds (mem (perform_all powf acts (initial_state w))) = true)
  /\ (forall (w : HAL) (n : nat),
         duty_in_bounds (mem (st (run_main powf n (power_on w)))) = true)
  /\ (forall (a : Action) (s : State),
         duty_cycle (mem (perform powf a s)) = duty_cycle (mem s)
         \/ duty_in_bounds (mem (perform powf a s)) = true).
Proof.
  split; [|split].
  - intros w acts. apply perform_all_keeps_bounds. reflexivity.
  - intros w n. apply run_main_keeps_bounds. reflexivity.
  - apply perform_write.
Qed.

End DutyBounds.

(** * Start-up and the fault state *)

Section Faulted.

Variable powf : float -> float -> float.

(** Either initialisation routine answering anything but [HAL_OK] makes
    [system_init] fail. *)
Lemma system_init_fails_on_adc (s : State) :
  status_is_ok (adc_init_status (hal s)) = false ->
  fst (system_init s) = false.
Proof.
  intros Hadc. unfold system_init, init_adc. unfold_monad. reduce_fields.
  destruct (status_is_ok (hal_init_status (hal s))); cbn [negb]; [|reflexivity].
  reduce_fields. rewrite Hadc. reflexivity.
Qed.

Lemma system_init_fails_on_hal (s : State) :
  status_is_ok (hal_init_status (hal s)) = false ->
  fst (system_init s) = false.
Proof.
  intros Hhal. unfold system_init. unfold_monad. reduce_fields.
  rewrite Hhal. reflexivity.
Qed.

(** A failed [system_init] has written no global. *)
Lemma system_init_failure_mem (s : State) :
  fst (system_init s) = false -> mem (snd (system_init s)) = mem s.
Proof.
  unfold system_init, init_adc. unfold_monad. reduce_fields.
  destruct (status_is_ok (hal_init_status (hal s))); cbn [negb]; [|reflexivity].
  reduce_fields.
  destruct (status_is_ok (adc_init_status (hal s))); cbn [negb]; reduce_fields.
  - discriminate.
  - reflexivity.
Qed.

Lemma repeat_shift {A : Type} (x : A) (n : nat) (l : list A) :
  repeat x n ++ x :: l = x :: repeat x n ++ l.
Proof.
  induction n as [|n IH]; simpl; [reflexivity|]. now rewrite IH.
Qed.

(** Inside [error_handler] the program only sleeps: the program point and
    the globals stay, and the HAL sees one [HAL_Delay(1000)] per turn. *)
Lemma error_handler_idles (n : nat) (m : Machine) :
  pc m = InErrorHandler ->
  pc (run_main powf n m) = InErrorHandler
  /\ mem (st (run_main powf n m)) = mem (st m)
  /\ calls (hal (st (run_main powf n m)))
     = repeat (Call_HAL_Delay 1000) n ++ calls (hal (st m)).
Proof.
  revert m. induction n as [|n IH]; intros m Hpc.
  - auto.
  - cbn [run_main].
    assert (Hstep : main_step powf m
                    = {| pc := InErrorHandler; st := snd (HAL_Delay 1000 (st m)) |}).
    { unfold main_step. now rewrite Hpc. }
    destruct (IH (main_step powf m)) as (H1 & H2 & H3).
    { now rewrite Hstep. }
    rewrite H1, H2, H3, Hstep. cbn [st]. unfold_monad. reduce_fields.
    repeat split. cbn [repeat]. apply repeat_shift.
Qed.

(** C8.  If [system_init] fails at start-up, the first step of [main]
    enters [error_handler] with [duty_cycle = MIN_DUTY_CYCLE], and at every
    later step the program is still there, the globals are the power-on
    values but for that duty cycle, and the only HAL calls made since are
    [HAL_Delay(1000)]: the duty cycle never changes again. *)
Theorem init_failure_is_terminal (w : HAL) :
  fst (system_init (initial_state w)) = false ->
  forall n : nat,
    let m := run_main powf (S n) (power_on w) in
    pc m = InErrorHandler
    /\ duty_cycle (mem (st m)) = MIN_DUTY_CYCLE
    /\ mem (st m) = set_duty_cycle MIN_DUTY_CYCLE initial_globals
    /\ calls (hal (st m))
       = repeat (Call_HAL_Delay 1000) n
         ++ calls (hal (snd (system_init (initial_state w)))).
Proof.
  intros Hfail n. cbv zeta. cbn [run_main].
  assert (Hstep : main_step powf (power_on w)
                  = {| pc := InErrorHandler;
                       st := snd (error_handler_entry
                                    (snd (system_init (initial_state w)))) |}).
  { unfold main_step, power_on. cbn [pc st].
    destruct (system_init (initial_state w)) as [ok s1].
    cbn [fst] in Hfail. subst ok. reflexivity. }
  destruct (error_handler_idles n (main_step powf (power_on w))) as (H1 & H2 & H3).
  { now rewrite Hstep. }
  rewrite H1, H2, H3, Hstep. cbn [st].
  unfold error_handler_entry, store. reduce_fields.
  rewrite (system_init_failure_mem (initial_state w) Hfail).
  repeat split; reflexivity.
Qed.

End Faulted.

Lemma init_failure_is_terminal_witness :
  fst (system_init (initial_state (demo_hal 100 HAL_ERROR))) = false /\
  (let m := run_main powf_square 4 (power_on (demo_hal 100 HAL_ERROR)) in
   pc m = InErrorHandler
   /\ duty_cycle (mem (st m)) = MIN_DUTY_CYCLE
   /\ mem (st m) = set_duty_cycle MIN_DUTY_CYCLE initial_globals
   /\ calls (hal (st m))
      = repeat (Call_HAL_Delay 1000) 3
        ++ calls (hal (snd (system_init (initial_state (demo_hal 100 HAL_ERROR)))))).
Proof.
  split.
  - reflexivity.
  - apply (init_failure_is_terminal powf_square (demo_hal 100 HAL_ERROR)).
    reflexivity.
Defined.

(** * More on the Sampler *)

Section SamplerAveraging.

Variable h : ADC_HandleTypeDef.

Lemma uint16_range (z : Z) : 0 <= uint16 z < 2 ^ 16.
Proof. unfold uint16. apply Z.mod_pos_bound. lia. Qed.

Lemma loop_sum_is_sum (data : nat -> Z) (n pos : nat) (sum : Z) :
  0 <= sum -> sum + Z.of_nat n * 65535 < 2 ^ 32 ->
  loop_sum data n pos sum = sum + Zsum (samples data n pos).
Proof.
  revert pos sum. induction n as [|n IH]; intros pos sum Hs Hb.
  - cbn [loop_sum samples Zsum fold_right]. lia.
  - cbn [loop_sum samples Zsum fold_right].
    pose proof (uint16_range (uint32 (data pos))) as Hv.
    unfold uint32 at 1. rewrite Z.mod_small by lia.
    rewrite IH by lia. fold (Zsum (samples data n (S pos))). lia.
Qed.

Lemma Zsum_bounds (lo hi : Z) (l : list Z) :
  (forall v, In v l -> lo <= v <= hi) ->
  Z.of_nat (length l) * lo <= Zsum l <= Z.of_nat (length l) * hi.
Proof.
  induction l as [|x l IH]; intros Hall.
  - cbn. lia.
  - cbn [Zsum fold_right length]. fold (Zsum l).
    pose proof (Hall x (or_introl eq_refl)).
    assert (Hl : forall v, In v l -> lo <= v <= hi)
      by (intros v Hv; apply Hall; now right).
    specialize (IH Hl). lia.
Qed.

Lemma samples_length (data : nat -> Z) (n pos : nat) :
  length (samples data n pos) = n.
Proof.
  revert pos. induction n as [|n IH]; intros pos; cbn; [reflexivity|].
  now rewrite IH.
Qed.

Lemma samples_in (data : nat -> Z) (n pos : nat) (v : Z) :
  In v (samples data n pos) ->
  exists k, (k < n)%nat /\ v = uint16 (uint32 (data (pos + k)%nat)).
Proof.
  revert pos. induction n as [|n IH]; intros pos Hin; cbn in Hin.
  - contradiction.
  - destruct Hin as [<- | Hin].
    + exists 0%nat. rewrite Nat.add_0_r. split; [lia | reflexivity].
    + destruct (IH (S pos) Hin) as (k & Hk & ->).
      exists (S k). rewrite Nat.add_succ_r. split; [lia | reflexivity].
Qed.

Lemma read_adc_safely_sum (s : State) :
  length (adc_buffer (mem s)) = ADC_BUFFER_SIZE ->
  fst (read_adc_safely h s)
  = Zsum (samples (adc_data (hal s)) 16 (adc_reads (hal s))) / 16.
Proof.
  intros Hlen. unfold read_adc_safely, bind.
  destruct (read_adc_loop_run h ADC_BUFFER_SIZE 0 0 s) as [Hsum _].
  { rewrite Hlen. cbn. lia. }
  cbv zeta in Hsum.
  destruct (read_adc_loop h ADC_BUFFER_SIZE 0 0 s) as [sum s1].
  cbn [fst snd ret] in *. subst sum.
  unfold ADC_BUFFER_SIZE.
  rewrite loop_sum_is_sum by lia. rewrite Z.add_0_l.
  change (Z.of_nat 16) with 16.
  pose proof (Zsum_bounds 0 65535
                (samples (adc_data (hal s)) 16 (adc_reads (hal s)))) as Hb.
  rewrite samples_length in Hb.
  assert (Hall : forall v,
             In v (samples (adc_data (hal s)) 16 (adc_reads (hal s))) ->
             0 <= v <= 65535).
  { intros v Hv. destruct (samples_in _ _ _ _ Hv) as (k & _ & ->).
    pose proof (uint16_range (uint32 (adc_data (hal s) (adc_reads (hal s) + k)))).
    lia. }
  specialize (Hb Hall).
  unfold uint16. apply Z.mod_small. split.
  - apply Z.div_pos; lia.
  - apply Z.div_lt_upper_bound; lia.
Qed.

(** X1.  The value returned by [read_adc_safely] is the mean, rounded
    down, of the sixteen readings after their truncation to [uint16_t].
    The 32-bit sum does not wrap and the closing cast to [uint16_t] loses
    nothing. *)
Theorem read_adc_safely_is_mean (s : State) :
  length (adc_buffer (mem s)) = ADC_BUFFER_SIZE ->
  let total := Zsum (samples (adc_data (hal s)) 16 (adc_reads (hal s))) in
  fst (read_adc_safely h s) = total / 16
  /\ 0 <= total <= 16 * 65535
  /\ 0 <= total / 16 <= 65535.
Proof.
  intros Hlen. cbv zeta. split; [exact (read_adc_safely_sum s Hlen)|].
  pose proof (Zsum_bounds 0 65535
                (samples (adc_data (hal s)) 16 (adc_reads (hal s)))) as Hb.
  rewrite samples_length in Hb. change (Z.of_nat 16) with 16 in Hb.
  assert (Hall : forall v,
             In v (samples (adc_data (hal s)) 16 (adc_reads (hal s))) ->
             0 <= v <= 65535).
  { intros v Hv. destruct (samples_in _ _ _ _ Hv) as (k & _ & ->).
    pose proof (uint16_range (uint32 (adc_data (hal s) (adc_reads (hal s) + k)))).
    lia. }
  specialize (Hb Hall). split; [lia|]. split.
  - apply Z.div_pos; lia.
  - apply Z.div_le_upper_bound; lia.
Qed.

(** X2.  The average stays between the smallest and the largest reading:
    if the sixteen readings taken lie in [[lo, hi]] (with [0 <= lo] and
    [hi < 65536]), so does the result.  In particular a 12-bit converter
    never yields more than 4095. *)
Theorem read_adc_safely_between (lo hi : Z) (s : State) :
  length (adc_buffer (mem s)) = ADC_BUFFER_SIZE ->
  0 <= lo -> hi < 2 ^ 16 ->
  (forall k, (k < 16)%nat ->
             lo <= adc_data (hal s) (adc_reads (hal s) + k)%nat <= hi) ->
  lo <= fst (read_adc_safely h s) <= hi.
Proof.
  intros Hlen Hlo Hhi Hdata. rewrite (read_adc_safely_sum s Hlen).
  pose proof (Zsum_bounds lo hi
                (samples (adc_data (hal s)) 16 (adc_reads (hal s)))) as Hb.
  rewrite samples_length in Hb.
  assert (Hall : forall v,
             In v (samples (adc_data (hal s)) 16 (adc_reads (hal s))) ->
             lo <= v <= hi).
  { intros v Hv. destruct (samples_in _ _ _ _ Hv) as (k & Hk & ->).
    specialize (Hdata k Hk). unfold uint16, uint32.
    rewrite (Z.mod_small _ (2 ^ 32)) by lia.
    rewrite Z.mod_small by lia. exact Hdata. }
  specialize (Hb Hall). change (Z.of_nat 16) with 16 in Hb. split.
  - apply Z.div_le_lower_bound; lia.
  - apply Z.div_le_upper_bound; lia.
Qed.

End SamplerAveraging.

Lemma read_adc_safely_is_mean_witness :
  length (adc_buffer (mem ramp_state)) = ADC_BUFFER_SIZE /\
  (let total := Zsum (samples (adc_data (hal ramp_state)) 16
                        (adc_reads (hal ramp_state))) in
   fst (read_adc_safely fresh_handle ramp_state) = total / 16
   /\ 0 <= total <= 16 * 65535
   /\ 0 <= total / 16 <= 65535).
Proof.
  split.
  - reflexivity.
  - apply (read_adc_safely_is_mean fresh_handle ramp_state). reflexivity.
Defined.

Lemma read_adc_safely_between_witness :
  length (adc_buffer (mem ramp_state)) = ADC_BUFFER_SIZE /\
  0 <= 103 /\ 118 < 2 ^ 16 /\
  (forall k, (k < 16)%nat ->
             103 <= adc_data (hal ramp_state) (adc_reads (hal ramp_state) + k)%nat
             <= 118) /\
  103 <= fst (read_adc_safely fresh_handle ramp_state) <= 118.
Proof.
  assert (Hdata : forall k, (k < 16)%nat ->
             103 <= adc_data (hal ramp_state) (adc_reads (hal ramp_state) + k)%nat
             <= 118).
  { intros k Hk. cbn [ramp_state initial_state hal ramp_hal adc_data adc_reads]. lia. }
  split; [reflexivity|]. split; [lia|]. split; [lia|]. split; [exact Hdata|].
  apply (read_adc_safely_between fresh_handle 103 118 ramp_state);
    [reflexivity | lia | lia | exact Hdata].
Defined.

Section SamplerEffects.

Variable h : ADC_HandleTypeDef.

Lemma read_adc_loop_state (n i : nat) (sum : Z) (s : State) :
  adc_buffer (mem (snd (read_adc_loop h n i sum s)))
  = buffer_after (adc_data (hal s)) n i (adc_reads (hal s)) (adc_buffer (mem s))
  /\ hal (snd (read_adc_loop h n i sum s)) = hal_after_samples n (hal s).
Proof.
  revert i sum s. induction n as [|n IH]; intros i sum s.
  - split; reflexivity.
  - cbn [read_adc_loop buffer_after hal_after_samples]. unfold bind.
    rewrite read_adc_iteration_run. cbv beta iota zeta.
    match goal with
    | |- context [read_adc_loop h n (S i) ?sum' ?s'] =>
        destruct (IH (S i) sum' s') as [IHb IHh]
    end.
    rewrite IHb, IHh. split; reflexivity.
Qed.

Lemma hal_after_samples_fields (n : nat) (w : HAL) :
  adc_reads (hal_after_samples n w) = (adc_reads w + n)%nat
  /\ calls (hal_after_samples n w) = concat (repeat sampling_calls n) ++ calls w
  /\ tick (hal_after_samples n w) = tick w
  /\ adc_data (hal_after_samples n w) = adc_data w.
Proof.
  revert w. induction n as [|n IH]; intros w.
  - cbn. rewrite Nat.add_0_r. auto.
  - cbn [hal_after_samples]. destruct (IH (hal_after_sample w)) as (H1 & H2 & H3 & H4).
    rewrite H1, H2, H3, H4. cbn [hal_after_sample adc_reads calls tick adc_data].
    repeat split.
    + lia.
    + assert (Hcomm : forall k, concat (repeat sampling_calls k) ++ sampling_calls
                                = sampling_calls ++ concat (repeat sampling_calls k)).
      { induction k as [|k IHk]; [reflexivity|].
        cbn [repeat concat]. rewrite <- app_assoc, IHk. reflexivity. }
      cbn [repeat concat].
      change (Call_HAL_ADC_Stop :: Call_HAL_ADC_GetValue
              :: Call_HAL_ADC_PollForConversion :: Call_HAL_ADC_Start :: calls w)
        with (sampling_calls ++ calls w).
      rewrite app_assoc, Hcomm. reflexivity.
Qed.

Lemma firstn_store_at (i : nat) (v : Z) (l : list Z) :
  (i < length l)%nat -> firstn (S i) (store_at i v l) = firstn i l ++ [v].
Proof.
  revert i. induction l as [|x l IH]; intros [|i] Hi; cbn in *; try lia.
  - reflexivity.
  - f_equal. apply IH. lia.
Qed.

Lemma skipn_store_at (i k : nat) (v : Z) (l : list Z) :
  (i < k)%nat -> skipn k (store_at i v l) = skipn k l.
Proof.
  revert i k. induction l as [|x l IH]; intros [|i] [|k] Hi; cbn; try lia;
    try reflexivity.
  apply IH. lia.
Qed.

Lemma buffer_after_shape (data : nat -> Z) (n i pos : nat) (buf : list Z) :
  (i + n <= length buf)%nat ->
  buffer_after data n i pos buf
  = firstn i buf ++ samples data n pos ++ skipn (i + n) buf.
Proof.
  revert i pos buf. induction n as [|n IH]; intros i pos buf Hlen.
  - cbn [buffer_after samples app]. rewrite Nat.add_0_r.
    symmetry. apply firstn_skipn.
  - cbn [buffer_after samples].
    rewrite IH by (rewrite store_at_length; lia).
    rewrite firstn_store_at by lia.
    rewrite skipn_store_at by lia.
    rewrite <- app_assoc. cbn [app].
    replace (S i + n)%nat with (i + S n)%nat by lia. reflexivity.
Qed.

(** X3.  One call of [read_adc_safely] reads exactly sixteen conversions,
    in sixteen start / poll / read / stop rounds and with no other HAL
    call; afterwards [adc_buffer] holds the sixteen truncated readings in
    the order they were taken, and no other global has changed. *)
Theorem read_adc_safely_effects (s : State) :
  length (adc_buffer (mem s)) = ADC_BUFFER_SIZE ->
  let s' := snd (read_adc_safely h s) in
  adc_buffer (mem s') = samples (adc_data (hal s)) 16 (adc_reads (hal s))
  /\ adc_reads (hal s') = (adc_reads (hal s) + 16)%nat
  /\ calls (hal s') = concat (repeat sampling_calls 16) ++ calls (hal s)
  /\ tick (hal s') = tick (hal s)
  /\ (forall b, set_adc_buffer b (mem s') = set_adc_buffer b (mem s)).
Proof.
  intros Hlen. cbv zeta. unfold read_adc_safely, bind.
  destruct (read_adc_loop_state ADC_BUFFER_SIZE 0 0 s) as [Hb Hh].
  pose proof (fun A (f : Globals -> A) Hf =>
                read_adc_loop_keeps h f Hf ADC_BUFFER_SIZE 0 0 s) as Hk.
  destruct (read_adc_loop h ADC_BUFFER_SIZE 0 0 s) as [sum s1].
  cbn [fst snd ret] in *.
  destruct (hal_after_samples_fields ADC_BUFFER_SIZE (hal s)) as (H1 & H2 & H3 & _).
  rewrite Hh, Hb. unfold ADC_BUFFER_SIZE in *.
  rewrite buffer_after_shape by lia.
  split.
  - cbn [firstn app]. rewrite skipn_all2 by (cbn; lia). apply app_nil_r.
  - split; [exact H1|]. split; [exact H2|]. split; [exact H3|].
    intros b. unfold set_adc_buffer.
    rewrite (Hk _ L_mH), (Hk _ C_uF), (Hk _ ESR_mOhm), (Hk _ duty_cycle),
      (Hk _ efficiency), (Hk _ adc_sum), (Hk _ system_initialized),
      (Hk _ last_adjustment_time), (Hk _ last_measurement_time)
      by (intros; reflexivity).
    reflexivity.
Qed.

End SamplerEffects.

Lemma read_adc_safely_effects_witness :
  length (adc_buffer (mem ramp_state)) = ADC_BUFFER_SIZE /\
  (let s' := snd (read_adc_safely fresh_handle ramp_state) in
   adc_buffer (mem s')
   = samples (adc_data (hal ramp_state)) 16 (adc_reads (hal ramp_state))
   /\ adc_reads (hal s') = (adc_reads (hal ramp_state) + 16)%nat
   /\ calls (hal s') = concat (repeat sampling_calls 16) ++ calls (hal ramp_state)
   /\ tick (hal s') = tick (hal ramp_state)
   /\ (forall b, set_adc_buffer b (mem s') = set_adc_buffer b (mem ramp_state))).
Proof.
  split.
  - reflexivity.
  - apply (read_adc_safely_effects fresh_handle ramp_state). reflexivity.
Defined.

(** * More on the Parameter Estimator *)

Section EstimatorSoundness.

Lemma all_from_spec (p : Z -> bool) (n : nat) (z k : Z) :
  all_from n z p = true -> z <= k < z + Z.of_nat n -> p k = true.
Proof.
  revert z. induction n as [|n IH]; intros z Hall Hk.
  - lia.
  - cbn [all_from] in Hall. apply andb_prop in Hall. destruct Hall as [Hz Hrest].
    destruct (Z.eq_dec k z) as [->|Hne]; [exact Hz|].
    apply (IH (z + 1)); [exact Hrest | lia].
Qed.

Lemma every_uint16_spec (p : Z -> bool) (k : Z) :
  every_uint16 p = true -> 0 <= k < 65536 -> p k = true.
Proof.
  intros Hall Hk. unfold every_uint16 in Hall.
  pose proof (Z.div_mod k 256 ltac:(lia)) as Hdm.
  pose proof (Z.mod_pos_bound k 256 ltac:(lia)) as Hlo.
  assert (Hhi : 0 <= k / 256 < 256).
  { split; [apply Z.div_pos; lia | apply Z.div_lt_upper_bound; lia]. }
  pose proof (all_from_spec _ 256 0 (k / 256) Hall ltac:(cbn; lia)) as Hrow.
  cbv beta in Hrow.
  pose proof (all_from_spec _ 256 0 (k mod 256) Hrow ltac:(cbn; lia)) as Hcell.
  cbv beta in Hcell. now rewrite <- Hdm in Hcell.
Qed.

Lemma estimation_sound_everywhere : every_uint16 estimation_sound = true.
Proof. vm_compute. reflexivity. Qed.

Lemma read_adc_safely_range (h : ADC_HandleTypeDef) (s : State) :
  0 <= fst (read_adc_safely h s) < 2 ^ 16.
Proof.
  unfold read_adc_safely, bind.
  destruct (read_adc_loop h ADC_BUFFER_SIZE 0 0 s) as [sum s1].
  cbn [fst ret]. apply uint16_range.
Qed.

(** X4.  Whatever the converter delivers, 12 bits or more, a call that
    returns [true] leaves all three stored parameters inside their
    ranges, and it returns [true] exactly when the averaged raw value is
    at most 497. *)
Theorem successful_estimation_in_range (h : ADC_HandleTypeDef) (s : State) :
  let r := measure_electrical_parameters (Some h) s in
  let g := mem (snd r) in
  (fst r = true <-> fst (read_adc_safely h s) <= 497)
  /\ (fst r = true ->
      F32.within F0_01 F100_0 (L_mH g) = true
      /\ F32.within F0_1 F1000_0 (C_uF g) = true
      /\ F32.within F0_0 F100_0 (ESR_mOhm g) = true).
Proof.
  cbv zeta. rewrite measure_run.
  pose proof (read_adc_safely_range h s) as Hraw.
  destruct (read_adc_safely h s) as [raw s1]. cbn [fst snd mem with_mem] in *.
  pose proof (every_uint16_spec estimation_sound raw
                estimation_sound_everywhere) as Hsound.
  assert (Hin : 0 <= raw < 65536) by lia.
  specialize (Hsound Hin). unfold estimation_sound in Hsound. cbv zeta in Hsound.
  apply andb_prop in Hsound. destruct Hsound as [Hthr Himp].
  apply Bool.eqb_prop in Hthr.
  cbn [L_mH C_uF ESR_mOhm set_L_mH set_C_uF set_ESR_mOhm].
  split.
  - rewrite Hthr. apply Z.leb_le.
  - intros Hacc. rewrite Hacc in Himp. cbn [implb] in Himp.
    now apply and3_true.
Qed.

End EstimatorSoundness.

(** * More on the Duty-Cycle Controller *)

Section ControllerReports.

(** A difference of a value with itself never exceeds the deadband: it is
    a zero, or a NaN when the value is infinite or a NaN. *)
Lemma sub_self_in_deadband (x : float) :
  F32.gtb (F32.fabsf (F32.sub x x)) F0_001 = false.
Proof.
  destruct x as [[|]|[|]| |s m e]; try reflexivity.
  unfold F32.sub, SFsub. rewrite Z.sub_diag. reflexivity.
Qed.

(** X5.  The value returned by [adjust_duty_cycle] tells exactly whether
    [duty_cycle] was changed: on [true] the new duty cycle is the clamped
    candidate, it differs from the old one, and the tick just read has
    been recorded; on [false] the duty cycle is the old one. *)
Theorem adjust_reports_change (target : float) (s : State) :
  let r := adjust_duty_cycle target s in
  let g' := mem (snd r) in
  (fst r = true ->
   duty_cycle g'
   = candidate_duty target (efficiency (mem s)) (duty_cycle (mem s))
   /\ duty_cycle g' <> duty_cycle (mem s)
   /\ last_adjustment_time g' = uint32 (tick (hal s)))
  /\ (fst r = false -> duty_cycle g' = duty_cycle (mem s)).
Proof.
  cbv zeta. rewrite adjust_duty_cycle_run. cbv zeta.
  split_if; cbn [fst snd mem].
  - split; [discriminate | reflexivity].
  - destruct (F32.gtb _ F0_001) eqn:Hband; cbn [fst snd mem].
    + split; [|discriminate]. intros _.
      cbn [duty_cycle last_adjustment_time set_duty_cycle set_last_adjustment_time].
      repeat split.
      intros Heq. rewrite Heq in Hband.
      rewrite sub_self_in_deadband in Hband. discriminate.
    + split; [discriminate | reflexivity].
Qed.

(** X6.  Two consecutive calls that both change the duty cycle are at
    least 100 ms apart on the 32-bit tick, whatever else the HAL did in
    between. *)
Theorem changes_are_spaced (target1 target2 : float) (s : State) (w : HAL) :
  let first := adjust_duty_cycle target1 s in
  let second := adjust_duty_cycle target2 {| mem := mem (snd first); hal := w |} in
  fst first = true -> fst second = true ->
  100 <= uint32 (uint32 (tick w) - uint32 (tick (hal s))).
Proof.
  cbv zeta. rewrite (adjust_duty_cycle_run target1 s). cbv zeta.
  split_if; cbn [fst snd mem]; [discriminate|].
  split_if; cbn [fst snd mem]; [|discriminate].
  intros _. rewrite adjust_duty_cycle_run. cbv zeta.
  cbn [mem hal last_adjustment_time set_duty_cycle set_last_adjustment_time].
  destruct (Z.ltb_spec
              (uint32 (uint32 (tick w) - uint32 (tick (hal s)))) 100);
    cbn [fst]; [discriminate|].
  intros _. assumption.
Qed.

End ControllerReports.

Lemma changes_are_spaced_witness :
  let first := adjust_duty_cycle TARGET_EFFICIENCY quiet_state in
  let second := adjust_duty_cycle TARGET_EFFICIENCY
                  {| mem := mem (snd first); hal := later_hal |} in
  fst first = true /\ fst second = true /\
  100 <= uint32 (uint32 (tick later_hal) - uint32 (tick (hal quiet_state))).
Proof.
  cbv zeta.
  split; [vm_compute; reflexivity|]. split; [vm_compute; reflexivity|].
  apply (changes_are_spaced TARGET_EFFICIENCY TARGET_EFFICIENCY quiet_state later_hal);
    vm_compute; reflexivity.
Defined.

(** * More on the Control Loop *)

Section ControlLoopCadence.

Variable powf : float -> float -> float.

(** X7.  The measurement is due only when more than 50 ms have passed: in
    an iteration whose tick is at most 50 ms past [last_measurement_time]
    (50 itself included) nothing is measured.  The physical parameters,
    the efficiency, the timestamp and the sample buffer are untouched, no
    conversion is read, and the HAL is asked for the tick twice and for
    nothing else. *)
Theorem control_loop_between_measurements
    (hadc : option ADC_HandleTypeDef) (s : State) :
  uint32 (uint32 (tick (hal s)) - last_measurement_time (mem s)) <= 50 ->
  let s' := snd (control_loop powf hadc s) in
  L_mH (mem s') = L_mH (mem s)
  /\ C_uF (mem s') = C_uF (mem s)
  /\ ESR_mOhm (mem s') = ESR_mOhm (mem s)
  /\ efficiency (mem s') = efficiency (mem s)
  /\ last_measurement_time (mem s') = last_measurement_time (mem s)
  /\ adc_buffer (mem s') = adc_buffer (mem s)
  /\ adc_reads (hal s') = adc_reads (hal s)
  /\ calls (hal s') = Call_HAL_GetTick :: Call_HAL_GetTick :: calls (hal s).
Proof.
  intros Hsoon. cbv zeta. rewrite control_loop_run. cbv zeta. cbn [snd].
  unfold measurement_due.
  destruct (Z.ltb_spec 50
              (uint32 (uint32 (tick (hal s)) - last_measurement_time (mem s))));
    [lia|].
  rewrite adjust_duty_cycle_hal.
  rewrite !(adjust_duty_cycle_keeps _ TARGET_EFFICIENCY) by (intros; reflexivity).
  repeat split.
Qed.

End ControlLoopCadence.

Lemma control_loop_between_measurements_witness :
  uint32 (uint32 (tick (hal just_measured)) - last_measurement_time (mem just_measured))
  <= 50 /\
  (let s' := snd (control_loop powf_square (Some fresh_handle) just_measured) in
   L_mH (mem s') = L_mH (mem just_measured)
   /\ C_uF (mem s') = C_uF (mem just_measured)
   /\ ESR_mOhm (mem s') = ESR_mOhm (mem just_measured)
   /\ efficiency (mem s') = efficiency (mem just_measured)
   /\ last_measurement_time (mem s') = last_measurement_time (mem just_measured)
   /\ adc_buffer (mem s') = adc_buffer (mem just_measured)
   /\ adc_reads (hal s') = adc_reads (hal just_measured)
   /\ calls (hal s')
      = Call_HAL_GetTick :: Call_HAL_GetTick :: calls (hal just_measured)).
Proof.
  split.
  - vm_compute. discriminate.
  - apply (control_loop_between_measurements powf_square (Some fresh_handle)
             just_measured).
    vm_compute. discriminate.
Defined.

(** * The efficiency bounds *)

Section EfficiencyBounds.

Variable powf : float -> float -> float.

Lemma measurement_phase_efficiency
    (hadc : option ADC_HandleTypeDef) (now : Z) (s : State) :
  efficiency_in_bounds (mem (snd (measurement_phase powf hadc now s))) = true.
Proof.
  rewrite measurement_phase_run.
  destruct (measure_electrical_parameters hadc _) as [[|] s1]; cbn [snd].
  - unfold efficiency_in_bounds. cbn [mem with_mem efficiency set_efficiency].
    apply efficiency_value_bounds.
  - reflexivity.
Qed.

Lemma control_loop_efficiency (hadc : option ADC_HandleTypeDef) (s : State) :
  efficiency (mem (snd (control_loop powf hadc s))) = efficiency (mem s)
  \/ efficiency_in_bounds (mem (snd (control_loop powf hadc s))) = true.
Proof.
  rewrite control_loop_run. cbv zeta. cbn [snd]. unfold efficiency_in_bounds.
  rewrite (adjust_duty_cycle_keeps efficiency) by (intros; reflexivity).
  destruct (measurement_due _ _).
  - right. apply measurement_phase_efficiency.
  - left. reflexivity.
Qed.

Lemma perform_efficiency (a : Action) (s : State) :
  efficiency_in_bounds (mem s) = true ->
  efficiency_in_bounds (mem (perform powf a s)) = true.
Proof.
  intros Hs. destruct a as [hadc|target| | |w]; cbn [perform].
  - destruct (control_loop_efficiency hadc s) as [Heq|Hin]; [|exact Hin].
    unfold efficiency_in_bounds in *. now rewrite Heq.
  - unfold efficiency_in_bounds in *.
    now rewrite (adjust_duty_cycle_keeps efficiency) by (intros; reflexivity).
  - unfold efficiency_in_bounds in *.
    destruct (system_init_mem s) as [-> | ->]; exact Hs.
  - exact Hs.
  - exact Hs.
Qed.

Lemma main_step_efficiency (m : Machine) :
  efficiency_in_bounds (mem (st m)) = true ->
  efficiency_in_bounds (mem (st (main_step powf m))) = true.
Proof.
  intros Hm. unfold main_step. destruct (pc m).
  - pose proof (system_init_mem (st m)) as Hinit.
    destruct (system_init (st m)) as [[|] s1]; cbn [negb st snd] in *;
      unfold efficiency_in_bounds, error_handler_entry, store in *;
      reduce_fields;
      destruct Hinit as [-> | ->]; exact Hm.
  - cbn [st]. unfold bind at 1.
    pose proof (control_loop_efficiency None (st m)) as Hc.
    destruct (control_loop powf None (st m)) as [[] s1]. cbn [snd] in *.
    rewrite HAL_Delay_run. cbn [snd mem].
    destruct Hc as [Heq|Hin]; [|exact Hin].
    unfold efficiency_in_bounds in *. now rewrite Heq.
  - exact Hm.
Qed.

(** X8.  [efficiency] starts at 0.0 and stays in [[0.0, 1.0]]: after any
    sequence of calls of the functions of [main.c] with any arguments and
    any behaviour of the HAL in between, and at every step of [main]. *)
Theorem efficiency_stays_in_bounds :
  (forall (w : HAL) (acts : list Action),
      efficiency_in_bounds (mem (perform_all powf acts (initial_state w))) = true)
  /\ (forall (w : HAL) (n : nat),
         efficiency_in_bounds (mem (st (run_main powf n (power_on w)))) = true).
Proof.
  split.
  - intros w acts.
    assert (Hgen : forall s, efficiency_in_bounds (mem s) = true ->
                             efficiency_in_bounds (mem (perform_all powf acts s)) = true).
    { induction acts as [|a acts IH]; intros s Hs; [exact Hs|].
      cbn [perform_all fold_left]. apply IH. now apply perform_efficiency. }
    apply Hgen. reflexivity.
  - intros w n.
    assert (Hgen : forall m, efficiency_in_bounds (mem (st m)) = true ->
                             efficiency_in_bounds (mem (st (run_main powf n m))) = true).
    { induction n as [|n IH]; intros m Hm; [exact Hm|].
      cbn [run_main]. apply IH. now apply main_step_efficiency. }
    apply Hgen. reflexivity.
Qed.

End EfficiencyBounds.

(** * More on start-up and the main loop *)

Section StartUp.

Variable powf : float -> float -> float.

Lemma system_init_run (s : State) :
  system_init s
  = if status_is_ok (hal_init_status (hal s))
    then
      let w := log_call Call_HAL_ADC_Init (log_call Call_HAL_Init (hal s)) in
      if status_is_ok (adc_init_status (hal s))
      then (true, {| mem := set_system_initialized true (mem s); hal := w |})
      else (false, {| mem := mem s; hal := w |})
    else (false, {| mem := mem s; hal := log_call Call_HAL_Init (hal s) |}).
Proof.
  unfold system_init, init_adc. unfold_monad. reduce_fields.
  destruct (status_is_ok (hal_init_status (hal s))); cbn [negb]; [|reflexivity].
  reduce_fields.
  destruct (status_is_ok (adc_init_status (hal s))); reflexivity.
Qed.

Lemma status_is_ok_iff (r : HAL_StatusTypeDef) :
  status_is_ok r = true <-> r = HAL_OK.
Proof. destruct r; cbn; split; congruence. Qed.

(** X9.  [system_init] succeeds exactly when [HAL_Init] and
    [HAL_ADC_Init] both answer [HAL_OK].  On success the only global
    written is [system_initialized := true]; on failure no global is
    written.  When [HAL_Init] fails the converter is not initialised at
    all: [HAL_Init] is the only HAL call made. *)
Theorem system_init_outcome (s : State) :
  let r := system_init s in
  (fst r = true <->
   hal_init_status (hal s) = HAL_OK /\ adc_init_status (hal s) = HAL_OK)
  /\ (fst r = true -> mem (snd r) = set_system_initialized true (mem s))
  /\ (fst r = false -> mem (snd r) = mem s)
  /\ (hal_init_status (hal s) <> HAL_OK ->
      calls (hal (snd r)) = Call_HAL_Init :: calls (hal s))
  /\ (hal_init_status (hal s) = HAL_OK ->
      calls (hal (snd r)) = Call_HAL_ADC_Init :: Call_HAL_Init :: calls (hal s)).
Proof.
  cbv zeta. rewrite system_init_run. cbv zeta.
  rewrite <- !status_is_ok_iff.
  destruct (status_is_ok (hal_init_status (hal s)));
    destruct (status_is_ok (adc_init_status (hal s)));
    cbn [fst snd mem hal calls log_call];
    repeat split; try congruence; try tauto;
    intros; try discriminate; intuition congruence.
Qed.

Lemma measurement_phase_null (now : Z) (s : State) :
  measurement_phase powf None now s
  = (tt, with_mem (set_efficiency F0_0)
           (with_mem (set_duty_cycle F0_5)
              (with_mem (set_last_measurement_time now) s))).
Proof. rewrite measurement_phase_run. reflexivity. Qed.

Lemma main_loop_step_keeps (m : Machine) :
  pc m = InMainLoop ->
  efficiency (mem (st m)) = F0_0 ->
  efficiency (mem (st (main_step powf m))) = F0_0
  /\ system_initialized (mem (st (main_step powf m)))
     = system_initialized (mem (st m)).
Proof.
  intros Hpc Heff. unfold main_step. rewrite Hpc. cbn [st].
  unfold bind. rewrite control_loop_run. cbv beta iota zeta.
  rewrite HAL_Delay_run. cbn [snd mem].
  rewrite !(adjust_duty_cycle_keeps _ TARGET_EFFICIENCY) by (intros; reflexivity).
  destruct (measurement_due _ _).
  - rewrite measurement_phase_null. split; reflexivity.
  - split; [exact Heff | reflexivity].
Qed.

(** X10.  When start-up succeeds, [main] stays in its loop for ever, and
    because the loop passes NULL to [control_loop] it never measures: at
    every later step the stored inductance, capacitance and ESR are still
    0.0, the efficiency is still 0.0 and no conversion has been read from
    the converter. *)
Theorem main_never_measures (w : HAL) :
  fst (system_init (initial_state w)) = true ->
  forall n : nat,
    let m := run_main powf (S n) (power_on w) in
    pc m = InMainLoop
    /\ L_mH (mem (st m)) = F0_0
    /\ C_uF (mem (st m)) = F0_0
    /\ ESR_mOhm (mem (st m)) = F0_0
    /\ efficiency (mem (st m)) = F0_0
    /\ system_initialized (mem (st m)) = true
    /\ adc_reads (hal (st m)) = adc_reads w.
Proof.
  intros Hok n. cbv zeta. cbn [run_main].
  assert (Hfirst : let m1 := main_step powf (power_on w) in
                   pc m1 = InMainLoop
                   /\ L_mH (mem (st m1)) = F0_0
                   /\ C_uF (mem (st m1)) = F0_0
                   /\ ESR_mOhm (mem (st m1)) = F0_0
                   /\ efficiency (mem (st m1)) = F0_0
                   /\ system_initialized (mem (st m1)) = true
                   /\ adc_reads (hal (st m1)) = adc_reads w).
  { cbv zeta. unfold main_step, power_on. cbn [pc st].
    rewrite system_init_run in *. cbv zeta in *.
    destruct (status_is_ok (hal_init_status (hal (initial_state w))));
      [|discriminate].
    destruct (status_is_ok (adc_init_status (hal (initial_state w))));
      [|discriminate].
    cbn [negb pc st mem hal]. repeat split. }
  revert Hfirst. generalize (main_step powf (power_on w)).
  induction n as [|n IH]; intros m Hm; cbv zeta in Hm.
  - exact Hm.
  - cbn [run_main]. apply IH. cbv zeta.
    destruct Hm as (Hpc & HL & HC & HR & He & Hi & Ha).
    destruct (main_loop_never_samples powf m Hpc)
      as (Hpc' & HL' & HC' & HR' & Ha' & _).
    destruct (main_loop_step_keeps m Hpc He) as [He' Hi'].
    rewrite HL', HC', HR', Ha', Hi'. repeat split; assumption.
Qed.

End StartUp.

Lemma main_never_measures_witness :
  fst (system_init (initial_state healthy_hal)) = true /\
  (let m := run_main powf_square 8 (power_on healthy_hal) in
   pc m = InMainLoop
   /\ L_mH (mem (st m)) = F0_0
   /\ C_uF (mem (st m)) = F0_0
   /\ ESR_mOhm (mem (st m)) = F0_0
   /\ efficiency (mem (st m)) = F0_0
   /\ system_initialized (mem (st m)) = true
   /\ adc_reads (hal (st m)) = adc_reads healthy_hal).
Proof.
  split.
  - reflexivity.
  - apply (main_never_measures powf_square healthy_hal). reflexivity.
Defined.

(** * The fail-safe within a whole iteration *)

Section FailSafeIteration.

Variable powf : float -> float -> float.

Lemma uint32_idem (z : Z) : uint32 (uint32 z) = uint32 z.
Proof. unfold uint32. apply Z.mod_mod. discriminate. Qed.

(** X11.  An iteration of [control_loop] whose measurement is due and
    fails ends with [efficiency = 0.0] and the measurement timestamp set
    to the tick read on entry.  The controller call closing the iteration
    reads the tick again, after the sampling: the duty cycle ends at 0.5
    if that second reading is less than 100 ms past
    [last_adjustment_time], and otherwise the controller has already
    moved it one step up from 0.5, to [0.5f + 0.95f * 0.05f]. *)
Theorem failed_iteration_outcome (hadc : option ADC_HandleTypeDef) (s : State) :
  measurement_due (uint32 (tick (hal s))) (last_measurement_time (mem s)) = true ->
  fst (measure_electrical_parameters hadc s) = false ->
  let second_reading :=
    uint32 (tick (hal s) + elapsed (hal s) (tick_reads (hal s))) in
  let g' := mem (snd (control_loop powf hadc s)) in
  efficiency g' = F0_0
  /\ last_measurement_time g' = uint32 (tick (hal s))
  /\ duty_cycle g'
     = (if uint32 (second_reading - last_adjustment_time (mem s)) <? 100
        then F0_5 else F0_5475).
Proof.
  intros Hdue Hfail. cbv zeta.
  destruct (failed_iteration_run powf hadc s Hdue Hfail)
    as (Hloop & Hd & He & Hm & Ha & Ht).
  rewrite Hloop.
  rewrite (adjust_duty_cycle_keeps efficiency),
    (adjust_duty_cycle_keeps last_measurement_time) by (intros; reflexivity).
  split; [exact He|]. split; [exact Hm|].
  rewrite adjust_duty_cycle_run. cbv zeta. rewrite Hd, He, Ha, Ht.
  rewrite uint32_idem.
  destruct (uint32 (uint32 (tick (hal s) + elapsed (hal s) (tick_reads (hal s)))
                    - last_adjustment_time (mem s)) <? 100).
  - cbn [snd mem]. exact Hd.
  - replace (candidate_duty TARGET_EFFICIENCY F0_0 F0_5) with F0_5475
      by (vm_compute; reflexivity).
    replace (F32.gtb (F32.fabsf (F32.sub F0_5475 F0_5)) F0_001) with true
      by (vm_compute; reflexivity).
    reflexivity.
Qed.

End FailSafeIteration.

(** The iteration starts 99 ms after the last adjustment, inside the
    window, and the controller reads the tick at 100 ms, outside it: the
    duty cycle ends at 0.5475. *)
Lemma failed_iteration_outcome_witness :
  measurement_due (uint32 (tick (hal window_edge)))
    (last_measurement_time (mem window_edge)) = true /\
  fst (measure_electrical_parameters (Some fresh_handle) window_edge) = false /\
  uint32 (uint32 (tick (hal window_edge))
          - last_adjustment_time (mem window_edge)) = 99 /\
  (let second_reading :=
     uint32 (tick (hal window_edge)
             + elapsed (hal window_edge) (tick_reads (hal window_edge))) in
   let g' := mem (snd (control_loop powf_square (Some fresh_handle)
                         window_edge)) in
   efficiency g' = F0_0
   /\ last_measurement_time g' = uint32 (tick (hal window_edge))
   /\ duty_cycle g'
      = (if uint32 (second_reading - last_adjustment_time (mem window_edge))
            <? 100
         then F0_5 else F0_5475)) /\
  duty_cycle (mem (snd (control_loop powf_square (Some fresh_handle) window_edge)))
  = F0_5475.
Proof.
  split; [vm_compute; reflexivity|]. split; [vm_compute; reflexivity|].
  split; [vm_compute; reflexivity|]. split; [|vm_compute; reflexivity].
  apply (failed_iteration_outcome powf_square (Some fresh_handle) window_edge);
    vm_compute; reflexivity.
Defined.

(** * Edge cases of the Efficiency Model *)

Section EfficiencyEdges.

Variable powf : float -> float -> float.

(** X12.  Losses that are not a number do not make the efficiency a NaN:
    [calculate_efficiency] then returns 1.0, the same value it returns
    for negligible (or negative) losses.  Infinite losses give 0.0. *)
Theorem calculate_efficiency_edges (l c r : float) (s : State) :
  let total := total_losses powf l r (duty_cycle (mem s)) in
  let e := fst (calculate_efficiency powf l c r s) in
  (F32.is_nan total = true -> e = F1_0)
  /\ (F32.ltb total F0_0 = true -> e = F1_0)
  /\ (total = S754_infinity false -> e = F0_0).
Proof.
  cbv zeta. rewrite calculate_efficiency_run. cbn [fst].
  unfold efficiency_value.
  destruct (total_losses powf l r (duty_cycle (mem s))) as [[|]|[|]| |[|] m e];
    cbn [F32.is_nan]; repeat split; intros H; try discriminate H;
    try reflexivity.
Qed.

End EfficiencyEdges.

(** * The controller at rest *)

Lemma MIN_DUTY_CYCLE_value : MIN_DUTY_CYCLE = S754_finite false 13421773 (-28).
Proof. vm_compute. reflexivity. Qed.

Lemma MAX_DUTY_CYCLE_value : MAX_DUTY_CYCLE = S754_finite false 15938355 (-24).
Proof. vm_compute. reflexivity. Qed.

Section ControllerAtRest.

(** Two finite numbers that compare equal are the same number. *)
Lemma compare_eq_finite (s1 s2 : bool) (m1 m2 : positive) (e1 e2 : Z) :
  SFcompare (S754_finite s1 m1 e1) (S754_finite s2 m2 e2) = Some Eq ->
  S754_finite s1 m1 e1 = S754_finite s2 m2 e2.
Proof.
  cbn [SFcompare]. intros H. injection H as H.
  destruct s1, s2; try discriminate H;
    destruct (e1 ?= e2) eqn:He; try discriminate H;
    apply Z.compare_eq in He; subst e2;
    change (Pos.compare_cont Eq m1 m2) with (Pos.compare m1 m2) in H.
  - destruct (m1 ?= m2)%positive eqn:Hm; try discriminate H.
    apply Pos.compare_eq in Hm. now subst.
  - apply Pos.compare_eq in H. now subst.
Qed.

(** A value within the duty-cycle bounds is a finite number. *)
Lemma in_bounds_finite (d : float) :
  F32.within MIN_DUTY_CYCLE MAX_DUTY_CYCLE d = true ->
  exists s m e, d = S754_finite s m e.
Proof.
  unfold F32.within. rewrite MIN_DUTY_CYCLE_value, MAX_DUTY_CYCLE_value.
  intros Hin. apply andb_prop in Hin. destruct Hin as [Hlo Hhi].
  destruct d as [sd|sd| |sd md ed].
  - destruct sd; discriminate Hlo.
  - destruct sd; [discriminate Hlo | discriminate Hhi].
  - discriminate Hlo.
  - now exists sd, md, ed.
Qed.

(** Clamping a duty cycle that is already within the bounds returns
    it. *)
Lemma clamp_in_bounds (d : float) :
  F32.within MIN_DUTY_CYCLE MAX_DUTY_CYCLE d = true ->
  F32.fmaxf MIN_DUTY_CYCLE (F32.fminf MAX_DUTY_CYCLE d) = d.
Proof.
  intros Hin. destruct (in_bounds_finite d Hin) as (sd & md & ed & ->).
  revert Hin. unfold F32.within.
  rewrite MIN_DUTY_CYCLE_value, MAX_DUTY_CYCLE_value.
  intros Hin. apply andb_prop in Hin. destruct Hin as [Hlo Hhi].
  assert (Hmin : F32.fminf (S754_finite false 15938355 (-24)) (S754_finite sd md ed)
                 = S754_finite sd md ed).
  { unfold F32.fminf. cbn [F32.is_nan].
    destruct (F32.ltb (S754_finite sd md ed) (S754_finite false 15938355 (-24)))
      eqn:Hlt; [reflexivity|].
    unfold F32.leb, F32.ltb, SFleb, SFltb in Hhi, Hlt.
    destruct (SFcompare (S754_finite sd md ed) (S754_finite false 15938355 (-24)))
      as [[| |]|] eqn:Hc; try discriminate.
    symmetry. now apply compare_eq_finite. }
  rewrite Hmin. unfold F32.fmaxf. cbn [F32.is_nan].
  destruct (F32.ltb (S754_finite false 13421773 (-28)) (S754_finite sd md ed))
    eqn:Hlt; [reflexivity|].
  unfold F32.leb, F32.ltb, SFleb, SFltb in Hlo, Hlt.
  destruct (SFcompare (S754_finite false 13421773 (-28)) (S754_finite sd md ed))
    as [[| |]|] eqn:Hc; try discriminate.
  now apply compare_eq_finite.
Qed.

(** With the efficiency on target the correction step is a zero. *)
Lemma zero_step (target : float) :
  is_finite target = true ->
  exists sz, F32.mul (F32.sub target target) F0_05 = S754_zero sz.
Proof.
  destruct target as [[|]| | |s m e]; try discriminate; intros _.
  - exists false. reflexivity.
  - exists false. reflexivity.
  - exists false. unfold F32.sub, SFsub. rewrite Z.sub_diag. reflexivity.
Qed.

(** X22.  At the target the controller is at rest: when the stored
    efficiency equals the (finite) target and the duty cycle is within its
    bounds, [adjust_duty_cycle] returns [false] and leaves the duty cycle
    as it is, rate-limited or not. *)
Theorem controller_at_rest (target : float) (s : State) :
  is_finite target = true ->
  efficiency (mem s) = target ->
  duty_in_bounds (mem s) = true ->
  fst (adjust_duty_cycle target s) = false
  /\ duty_cycle (mem (snd (adjust_duty_cycle target s))) = duty_cycle (mem s).
Proof.
  intros Hfin Heff Hin. rewrite adjust_duty_cycle_run. cbv zeta.
  split_if; [split; reflexivity|].
  assert (Hcand : candidate_duty target (efficiency (mem s)) (duty_cycle (mem s))
                  = duty_cycle (mem s)).
  { unfold candidate_duty. rewrite Heff.
    destruct (zero_step target Hfin) as [sz ->].
    unfold duty_in_bounds in Hin.
    destruct (in_bounds_finite _ Hin) as (sd & md & ed & Hd).
    assert (Hadd : F32.add (duty_cycle (mem s)) (S754_zero sz) = duty_cycle (mem s)).
    { rewrite Hd. reflexivity. }
    rewrite Hadd. now apply clamp_in_bounds. }
  rewrite Hcand, sub_self_in_deadband. split; reflexivity.
Qed.

End ControllerAtRest.

(** The controller on target, with the duty cycle at 0.5. *)
Lemma controller_at_rest_witness :
  is_finite TARGET_EFFICIENCY = true /\
  efficiency (mem on_target) = TARGET_EFFICIENCY /\
  duty_in_bounds (mem on_target) = true /\
  (fst (adjust_duty_cycle TARGET_EFFICIENCY on_target) = false
   /\ duty_cycle (mem (snd (adjust_duty_cycle TARGET_EFFICIENCY on_target)))
      = duty_cycle (mem on_target)).
Proof.
  split; [vm_compute; reflexivity|]. split; [reflexivity|].
  split; [vm_compute; reflexivity|].
  apply (controller_at_rest TARGET_EFFICIENCY on_target); vm_compute; reflexivity.
Defined.

(** * Facts about the operator console *)

Module CliFacts.

Import Ascii String Cli.

Lemma trace_bind {A B : Type} (m : Run A) (k : A -> Run B) :
  trace (bind m k)
  = (trace m ++ match result m with
                | Return a => trace (k a)
                | Exit _ => []
                end)%list.
Proof.
  unfold bind. destruct (result m); cbn [trace]; [reflexivity|].
  now rewrite app_nil_r.
Qed.

Lemma result_bind {A B : Type} (m : Run A) (k : A -> Run B) :
  result (bind m k)
  = match result m with
    | Return a => result (k a)
    | Exit status => Exit status
    end.
Proof. unfold bind. destruct (result m); reflexivity. Qed.

Lemma show_usage_returns (program_name : string) :
  result (show_usage program_name) = Return tt.
Proof. reflexivity. Qed.

(** Case analysis on the option letter, in the order of the [switch]. *)
Ltac config_fields :=
  cbn [endpoint verbose secure_mode cert_file key_file ca_file
       set_endpoint set_verbose set_secure_mode set_cert_file set_key_file
       set_ca_file with_defaults fst snd].

Ltac option_letter opt :=
  repeat match goal with
         | |- context [Ascii.eqb opt ?c] =>
             let H := fresh "Hopt" in
             destruct (Ascii.eqb opt c) eqn:H;
             [apply Ascii.eqb_eq in H; subst opt;
              cbn [Ascii.eqb Bool.eqb andb orb]|]
         end.

Lemma option_loop_run (program_name : string) (opts : list (ascii * string))
    (config : cli_config_t) :
  match first_stop opts with
  | None =>
      option_loop program_name opts config
      = {| trace := []; result := Return (fold_left apply_setting opts config) |}
  | Some opt =>
      result (option_loop program_name opts config)
      = Exit (if Ascii.eqb opt "h" then EXIT_SUCCESS else EXIT_FAILURE)
  end.
Proof.
  revert config. induction opts as [|[opt optarg] rest IH]; intros config.
  - reflexivity.
  - cbn [first_stop option_loop fold_left].
    remember (fold_left apply_setting rest) as final eqn:Hfinal.
    unfold is_setting, apply_setting.
    option_letter opt; subst final; try apply IH; try reflexivity.
    cbn [orb]. rewrite Hopt5. reflexivity.
Qed.

(** ** String buffers *)

Lemma strncpy_strncpy (dest : buffer) (s1 s2 : string) (n : nat) :
  strncpy (strncpy dest s1 n) s2 n = strncpy dest s2 n.
Proof.
  unfold strncpy. f_equal.
  rewrite skipn_app, length_firstn, length_app, repeat_length.
  replace (Nat.min n (List.length (chars s1) + n)) with n by lia.
  rewrite Nat.sub_diag. cbn [skipn].
  rewrite skipn_all2; [reflexivity|].
  rewrite length_firstn, length_app, repeat_length. lia.
Qed.

Lemma in_firstn {A : Type} (n : nat) (l : list A) (x : A) :
  In x (firstn n l) -> In x l.
Proof.
  revert l. induction n as [|n IH]; intros [|y l]; cbn; try contradiction.
  intros [-> | Hin]; [now left | right; now apply IH].
Qed.

Lemma until_nul_clean (l : list ascii) (c : ascii) :
  In c (until_nul l) -> Ascii.eqb c NUL = false.
Proof.
  induction l as [|x l IH]; cbn [until_nul]; [contradiction|].
  destruct (Ascii.eqb x NUL) eqn:Hx; [contradiction|].
  intros [<- | Hin]; [exact Hx | now apply IH].
Qed.

Lemma c_string_terminated (l rest : list ascii) :
  (forall c, In c l -> Ascii.eqb c NUL = false) ->
  c_string (l ++ NUL :: rest) = Some l.
Proof.
  induction l as [|x l IH]; intros Hclean.
  - reflexivity.
  - cbn [app c_string]. rewrite (Hclean x (or_introl eq_refl)).
    rewrite IH; [reflexivity|]. intros c Hc. apply Hclean. now right.
Qed.

Lemma c_string_missing (l : list ascii) :
  (forall c, In c l -> Ascii.eqb c NUL = false) -> c_string l = None.
Proof.
  induction l as [|x l IH]; intros Hclean.
  - reflexivity.
  - cbn [c_string]. rewrite (Hclean x (or_introl eq_refl)).
    rewrite IH; [reflexivity|]. intros c Hc. apply Hclean. now right.
Qed.

(** A string of fewer than [n] characters is stored whole and
    terminated. *)
Lemma strncpy_short (dest : buffer) (src : string) (n : nat) :
  (List.length (chars src) < n)%nat ->
  c_string (strncpy dest src n) = Some (chars src).
Proof.
  intros Hshort. unfold strncpy.
  rewrite firstn_app, firstn_all2 by lia.
  destruct (n - List.length (chars src))%nat as [|k] eqn:Hk; [lia|].
  destruct n as [|n]; [lia|]. cbn [repeat firstn].
  rewrite <- app_assoc. cbn [app].
  apply c_string_terminated. intros c. apply until_nul_clean.
Qed.

(** A string of [n] characters or more fills the first [n] bytes and
    brings no terminator; byte [n], the last of a buffer of [n + 1], is
    not written. *)
Lemma strncpy_long (dest : buffer) (src : string) (n : nat) :
  (n <= List.length (chars src))%nat ->
  List.length dest = S n ->
  nth n (strncpy dest src n) NUL = nth n dest NUL
  /\ (Ascii.eqb (nth n dest NUL) NUL = false ->
      c_string (strncpy dest src n) = None).
Proof.
  intros Hlong Hlen. unfold strncpy.
  rewrite firstn_app. replace (n - List.length (chars src))%nat with 0%nat by lia.
  cbn [firstn]. rewrite app_nil_r.
  assert (Hn : List.length (firstn n (chars src)) = n)
    by (rewrite length_firstn; lia).
  split.
  - rewrite app_nth2 by lia. rewrite Hn, Nat.sub_diag.
    rewrite <- (firstn_skipn n dest) at 2.
    rewrite app_nth2 by (rewrite length_firstn; lia).
    rewrite length_firstn. replace (n - Nat.min n (List.length dest))%nat with 0%nat by lia.
    reflexivity.
  - intros Hlast. apply c_string_missing. intros c Hc.
    apply in_app_or in Hc. destruct Hc as [Hc|Hc].
    + apply (until_nul_clean (list_ascii_of_string src)).
      exact (in_firstn _ _ _ Hc).
    + assert (Hskip : skipn n dest = [nth n dest NUL]).
      { rewrite <- (firstn_skipn n dest) at 2.
        rewrite app_nth2 by (rewrite length_firstn; lia).
        rewrite length_firstn.
        replace (n - Nat.min n (List.length dest))%nat with 0%nat by lia.
        pose proof (length_skipn n dest) as Hsl. rewrite Hlen in Hsl.
        replace (S n - n)%nat with 1%nat in Hsl by lia.
        destruct (skipn n dest) as [|x [|y t]]; cbn in Hsl; try lia.
        reflexivity. }
      rewrite Hskip in Hc. destruct Hc as [<- | []]. exact Hlast.
Qed.

(** ** The option scan *)

Ltac setting_step IH :=
  match goal with
  | o : (ascii * string)%type, rest : list (ascii * string) |- _ =>
      let opt := fresh "opt" in
      let optarg := fresh "optarg" in
      let final := fresh "final" in
      destruct o as [opt optarg];
      cbn [fold_left existsb fst snd];
      remember (fold_left apply_setting rest) as final;
      unfold apply_setting;
      option_letter opt;
      subst final;
      try (apply IH; config_fields; assumption)
  end.

Lemma fold_endpoint (opts : list (ascii * string)) (config : cli_config_t)
    (dest : buffer) (s0 : string) :
  endpoint config = strncpy dest s0 (MAX_BUFFER_SIZE - 1) ->
  endpoint (fold_left apply_setting opts config)
  = strncpy dest (last_arg "e" opts s0) (MAX_BUFFER_SIZE - 1).
Proof.
  unfold last_arg.
  revert config s0. induction opts as [|o rest IH]; intros config s0 Hc.
  - exact Hc.
  - setting_step IH.
    apply IH. config_fields. rewrite Hc. apply strncpy_strncpy.
Qed.

Lemma fold_cert_file (opts : list (ascii * string)) (config : cli_config_t)
    (dest : buffer) (s0 : string) :
  cert_file config = strncpy dest s0 (MAX_BUFFER_SIZE - 1) ->
  cert_file (fold_left apply_setting opts config)
  = strncpy dest (last_arg "c" opts s0) (MAX_BUFFER_SIZE - 1).
Proof.
  unfold last_arg.
  revert config s0. induction opts as [|o rest IH]; intros config s0 Hc.
  - exact Hc.
  - setting_step IH.
    apply IH. config_fields. rewrite Hc. apply strncpy_strncpy.
Qed.

Lemma fold_key_file (opts : list (ascii * string)) (config : cli_config_t)
    (dest : buffer) (s0 : string) :
  key_file config = strncpy dest s0 (MAX_BUFFER_SIZE - 1) ->
  key_file (fold_left apply_setting opts config)
  = strncpy dest (last_arg "k" opts s0) (MAX_BUFFER_SIZE - 1).
Proof.
  unfold last_arg.
  revert config s0. induction opts as [|o rest IH]; intros config s0 Hc.
  - exact Hc.
  - setting_step IH.
    apply IH. config_fields. rewrite Hc. apply strncpy_strncpy.
Qed.

Lemma fold_ca_file (opts : list (ascii * string)) (config : cli_config_t)
    (dest : buffer) (s0 : string) :
  ca_file config = strncpy dest s0 (MAX_BUFFER_SIZE - 1) ->
  ca_file (fold_left apply_setting opts config)
  = strncpy dest (last_arg "a" opts s0) (MAX_BUFFER_SIZE - 1).
Proof.
  unfold last_arg.
  revert config s0. induction opts as [|o rest IH]; intros config s0 Hc.
  - exact Hc.
  - setting_step IH.
    apply IH. config_fields. rewrite Hc. apply strncpy_strncpy.
Qed.

Lemma fold_verbose (opts : list (ascii * string)) (config : cli_config_t) :
  verbose (fold_left apply_setting opts config)
  = if seen "v" opts then 1 else verbose config.
Proof.
  unfold seen.
  revert config. induction opts as [|o rest IH]; intros config.
  - reflexivity.
  - destruct o as [opt optarg]. cbn [fold_left existsb fst].
    rewrite IH. unfold apply_setting.
    option_letter opt; config_fields; try reflexivity.
    destruct (existsb _ rest); reflexivity.
Qed.

Lemma fold_secure_mode (opts : list (ascii * string)) (config : cli_config_t) :
  secure_mode (fold_left apply_setting opts config)
  = if seen "s" opts then 1 else secure_mode config.
Proof.
  unfold seen.
  revert config. induction opts as [|o rest IH]; intros config.
  - reflexivity.
  - destruct o as [opt optarg]. cbn [fold_left existsb fst].
    rewrite IH. unfold apply_setting.
    option_letter opt; config_fields; try reflexivity.
    destruct (existsb _ rest); reflexivity.
Qed.

Lemma fold_is_parsed_config (g : getopt_scan) (config : cli_config_t) :
  fold_left apply_setting (returned g) (with_defaults config)
  = parsed_config g config.
Proof.
  pose proof (fold_endpoint (returned g) (with_defaults config)
                (endpoint config) DEFAULT_ENDPOINT eq_refl) as He.
  pose proof (fold_cert_file (returned g) (with_defaults config)
                (cert_file config) CERT_FILE eq_refl) as Hc.
  pose proof (fold_key_file (returned g) (with_defaults config)
                (key_file config) KEY_FILE eq_refl) as Hk.
  pose proof (fold_ca_file (returned g) (with_defaults config)
                (ca_file config) CA_FILE eq_refl) as Ha.
  pose proof (fold_verbose (returned g) (with_defaults config)) as Hv.
  pose proof (fold_secure_mode (returned g) (with_defaults config)) as Hs.
  destruct (fold_left apply_setting (returned g) (with_defaults config)).
  unfold parsed_config. config_fields. cbn [endpoint verbose secure_mode
    cert_file key_file ca_file] in *.
  now subst.
Qed.

(** What a call of [parse_arguments] comes to. *)
Lemma parse_arguments_run (g : getopt_scan) (config : cli_config_t) :
  match first_stop (returned g) with
  | None =>
      parse_arguments g config
      = {| trace := [];
           result := Return (parse_command g, parsed_config g config) |}
  | Some opt =>
      result (parse_arguments g config)
      = Exit (if Ascii.eqb opt "h" then EXIT_SUCCESS else EXIT_FAILURE)
  end.
Proof.
  unfold parse_arguments.
  pose proof (option_loop_run (nth 0 (argv g) ""%string) (returned g)
                (with_defaults config)) as Hloop.
  destruct (first_stop (returned g)) as [opt|].
  - rewrite result_bind, Hloop. reflexivity.
  - rewrite Hloop. unfold bind. cbn [result trace app ret].
    now rewrite fold_is_parsed_config.
Qed.

(** X13.  [parse_arguments] returns exactly when every value handed back
    by [getopt_long] is one of the settings v, s, e, c, k, a, and then it
    has printed nothing.  Otherwise the first other value decides: the
    program exits with status 0 if it is [h] and with status 1 if it is
    anything else, whatever follows it on the command line. *)
Theorem parse_arguments_outcome (g : getopt_scan) (config : cli_config_t) :
  (first_stop (returned g) = None <->
   exists parsed, result (parse_arguments g config) = Return parsed)
  /\ (first_stop (returned g) = None -> trace (parse_arguments g config) = [])
  /\ (forall opt, first_stop (returned g) = Some opt ->
      result (parse_arguments g config)
      = Exit (if Ascii.eqb opt "h" then 0 else 1)).
Proof.
  pose proof (parse_arguments_run g config) as Hrun.
  destruct (first_stop (returned g)) as [opt|].
  - split; [split|split].
    + discriminate.
    + intros [parsed Hp]. rewrite Hrun in Hp. discriminate.
    + discriminate.
    + intros opt' [= <-]. exact Hrun.
  - rewrite Hrun. cbn [result trace]. split; [split|split]; eauto.
    discriminate.
Qed.

(** X14.  When [parse_arguments] returns, the configuration it has filled
    in is determined by the scan alone, apart from the last byte of each
    buffer: [verbose] and [secure_mode] are 1 if the option occurred and
    0 if not, and each string is the argument of the last occurrence of
    its option, or the default, copied with [strncpy] over what the buffer
    held.  The command is the one named by [argv[optind]]. *)
Theorem parse_arguments_settings (g : getopt_scan) (config : cli_config_t)
    (command : command_type_t) (config' : cli_config_t) :
  result (parse_arguments g config) = Return (command, config') ->
  command = parse_command g
  /\ verbose config' = (if seen "v" (returned g) then 1 else 0)
  /\ secure_mode config' = (if seen "s" (returned g) then 1 else 0)
  /\ endpoint config'
     = strncpy (endpoint config)
         (last_arg "e" (returned g) DEFAULT_ENDPOINT) (MAX_BUFFER_SIZE - 1)
  /\ cert_file config'
     = strncpy (cert_file config)
         (last_arg "c" (returned g) CERT_FILE) (MAX_BUFFER_SIZE - 1)
  /\ key_file config'
     = strncpy (key_file config)
         (last_arg "k" (returned g) KEY_FILE) (MAX_BUFFER_SIZE - 1)
  /\ ca_file config'
     = strncpy (ca_file config)
         (last_arg "a" (returned g) CA_FILE) (MAX_BUFFER_SIZE - 1).
Proof.
  intros Hret. pose proof (parse_arguments_run g config) as Hrun.
  destruct (first_stop (returned g)) as [opt|].
  - rewrite Hrun in Hret. discriminate.
  - rewrite Hrun in Hret. cbn [result] in Hret.
    injection Hret as <- <-. repeat split.
Qed.

(** X15.  A string argument shorter than 1023 bytes (or, without the
    option, the default) is in its buffer whole and NUL-terminated once
    [parse_arguments] has returned, whatever the buffer held before. *)
Theorem parsed_strings_terminated (g : getopt_scan) (config : cli_config_t)
    (command : command_type_t) (config' : cli_config_t) :
  result (parse_arguments g config) = Return (command, config') ->
  ((List.length (chars (last_arg "e" (returned g) DEFAULT_ENDPOINT)) < 1023)%nat ->
   c_string (endpoint config')
   = Some (chars (last_arg "e" (returned g) DEFAULT_ENDPOINT)))
  /\ ((List.length (chars (last_arg "c" (returned g) CERT_FILE)) < 1023)%nat ->
      c_string (cert_file config')
      = Some (chars (last_arg "c" (returned g) CERT_FILE)))
  /\ ((List.length (chars (last_arg "k" (returned g) KEY_FILE)) < 1023)%nat ->
      c_string (key_file config')
      = Some (chars (last_arg "k" (returned g) KEY_FILE)))
  /\ ((List.length (chars (last_arg "a" (returned g) CA_FILE)) < 1023)%nat ->
      c_string (ca_file config')
      = Some (chars (last_arg "a" (returned g) CA_FILE))).
Proof.
  intros Hret. pose proof (parse_arguments_run g config) as Hrun.
  destruct (first_stop (returned g)) as [opt|];
    rewrite Hrun in Hret; [discriminate|].
  cbn [result] in Hret. injection Hret as _ <-.
  unfold parsed_config. config_fields.
  change (MAX_BUFFER_SIZE - 1)%nat with 1023%nat.
  repeat split; intros Hshort; now apply strncpy_short.
Qed.

(** X16.  [parse_arguments] never writes the last byte of a buffer.  With
    an endpoint (or certificate path) of 1023 bytes or more, the first
    1023 bytes of the buffer are taken by the argument and byte 1023 is
    what the uninitialised [config] of [main] held there: unless that
    byte happened to be 0, the buffer holds no terminated string. *)
Theorem long_strings_unterminated (g : getopt_scan) (config : cli_config_t)
    (command : command_type_t) (config' : cli_config_t) :
  result (parse_arguments g config) = Return (command, config') ->
  (List.length (endpoint config) = MAX_BUFFER_SIZE ->
   (1023 <= List.length (chars (last_arg "e" (returned g) DEFAULT_ENDPOINT)))%nat ->
   nth 1023 (endpoint config') NUL = nth 1023 (endpoint config) NUL
   /\ (Ascii.eqb (nth 1023 (endpoint config) NUL) NUL = false ->
       c_string (endpoint config') = None))
  /\ (List.length (cert_file config) = MAX_BUFFER_SIZE ->
      (1023 <= List.length (chars (last_arg "c" (returned g) CERT_FILE)))%nat ->
      nth 1023 (cert_file config') NUL = nth 1023 (cert_file config) NUL
      /\ (Ascii.eqb (nth 1023 (cert_file config) NUL) NUL = false ->
          c_string (cert_file config') = None)).
Proof.
  intros Hret. pose proof (parse_arguments_run g config) as Hrun.
  destruct (first_stop (returned g)) as [opt|];
    rewrite Hrun in Hret; [discriminate|].
  cbn [result] in Hret. injection Hret as _ <-.
  unfold parsed_config. config_fields.
  change (MAX_BUFFER_SIZE - 1)%nat with 1023%nat.
  split; intros Hlen Hlong; now apply strncpy_long.
Qed.

(** ** Certificates *)


(** ** The commands and [main] *)

Ltac command_cases env config :=
  destruct (Z.eqb (secure_mode config) 0) eqn:?;
  try (destruct (fopen_succeeds env (cert_file config)) eqn:?;
       [destruct (PEM_read_X509_succeeds env (cert_file config)) eqn:?;
        [destruct (serial_number env (cert_file config)) as [[?|]|] eqn:?|]|]).

Lemma run_command_returns (env : Env) (program_name : string)
    (command : command_type_t) (config : cli_config_t) :
  result (run_command env program_name command config) = Return tt.
Proof.
  destruct command; cbn [run_command];
    unfold cmd_status, cmd_configure, cmd_monitor, cmd_certinfo,
      cmd_diagnostics, load_certificate;
    try reflexivity; command_cases env config; reflexivity.
Qed.

(** A run of [main] that gets past the options: OpenSSL set-up if secure
    mode was asked for, the command, the matching clean-up, status 0. *)
Lemma main_run (env : Env) (g : getopt_scan) (config : cli_config_t) :
  first_stop (returned g) = None ->
  main env g config
  = {| trace :=
         (if seen "s" (returned g) then init_calls else [])
         ++ trace (run_command env (nth 0 (argv g) ""%string)
                     (parse_command g) (parsed_config g config))
         ++ (if seen "s" (returned g) then cleanup_calls else []);
       result := Return 0 |}.
Proof.
  intros Hscan. pose proof (parse_arguments_run g config) as Hrun.
  rewrite Hscan in Hrun. unfold main. rewrite Hrun.
  unfold bind at 1. cbn [result trace fst snd app].
  change (match parse_command g with
          | CMD_HELP => show_usage (nth 0 (argv g) ""%string)
          | CMD_STATUS => cmd_status env (parsed_config g config)
          | CMD_CONFIGURE => cmd_configure env (parsed_config g config)
          | CMD_MONITOR => cmd_monitor (parsed_config g config)
          | CMD_CERTINFO => cmd_certinfo env (parsed_config g config)
          | CMD_DIAGNOSTICS => cmd_diagnostics (parsed_config g config)
          end)
    with (run_command env (nth 0 (argv g) ""%string) (parse_command g)
            (parsed_config g config)).
  pose proof (run_command_returns env (nth 0 (argv g) ""%string)
                (parse_command g) (parsed_config g config)) as Hret.
  destruct (run_command env (nth 0 (argv g) ""%string) (parse_command g)
              (parsed_config g config)) as [body res].
  cbn [result trace] in *. subst res.
  assert (Hsec : negb (Z.eqb (secure_mode (parsed_config g config)) 0)
                 = seen "s" (returned g)).
  { unfold parsed_config. cbn [secure_mode].
    destruct (seen "s" (returned g)); reflexivity. }
  rewrite !Hsec.
  destruct (seen "s" (returned g)); cbn; rewrite ?app_nil_r; reflexivity.
Qed.

(** X18.  [cmd_configure] reports "Configuration updated successfully"
    exactly when secure mode is off or the certificate file opens and
    parses.  In secure mode with a certificate that does not load, its
    last call is the "Authentication failed" message on [stderr]. *)
Theorem configure_needs_certificate (env : Env) (config : cli_config_t) :
  let loads := fopen_succeeds env (cert_file config)
               && PEM_read_X509_succeeds env (cert_file config) in
  (In configuration_updated (trace (cmd_configure env config)) <->
   Z.eqb (secure_mode config) 0 || loads = true)
  /\ (Z.eqb (secure_mode config) 0 || loads = false ->
      last (trace (cmd_configure env config)) configuration_updated
      = authentication_failed).
Proof.
  cbv zeta. unfold cmd_configure, load_certificate.
  command_cases env config; cbn;
    (split; [split; intros H; try reflexivity; try discriminate H;
             unfold configuration_updated in *; intuition discriminate
            | intros H; try discriminate H; reflexivity]).
Qed.

(** X19.  Once the options are accepted, [main] returns 0 whatever the
    command does, a failed authentication included.  Its calls are the
    three OpenSSL initialisation routines if [-s] was given, then those of
    the command, then the two clean-up routines if [-s] was given: set-up
    and clean-up always come in a pair. *)
Theorem main_returns_zero (env : Env) (g : getopt_scan) (config : cli_config_t) :
  first_stop (returned g) = None ->
  result (main env g config) = Return 0
  /\ trace (main env g config)
     = (if seen "s" (returned g) then init_calls else [])
       ++ trace (run_command env (nth 0 (argv g) ""%string)
                   (parse_command g) (parsed_config g config))
       ++ (if seen "s" (returned g) then cleanup_calls else []).
Proof.
  intros Hscan. rewrite (main_run env g config Hscan). split; reflexivity.
Qed.

Lemma show_usage_touches_nothing (program_name : string) :
  forallb touches_nothing (trace (show_usage program_name)) = true.
Proof. reflexivity. Qed.

Lemma option_loop_touches_nothing (program_name : string)
    (opts : list (ascii * string)) (config : cli_config_t) :
  forallb touches_nothing (trace (option_loop program_name opts config)) = true.
Proof.
  revert config. induction opts as [|[opt optarg] rest IH]; intros config.
  - reflexivity.
  - cbn [option_loop]. option_letter opt; try apply IH; reflexivity.
Qed.

Lemma insecure_command_touches_nothing (env : Env) (program_name : string)
    (command : command_type_t) (config : cli_config_t) :
  secure_mode config = 0 ->
  forallb touches_nothing (trace (run_command env program_name command config))
  = true.
Proof.
  intros Hs. destruct command; cbn [run_command];
    unfold cmd_status, cmd_configure, cmd_monitor, cmd_certinfo, cmd_diagnostics;
    rewrite ?Hs; reflexivity.
Qed.

Lemma quiet_run (env : Env) (g : getopt_scan)
    (config : cli_config_t) :
  seen "s" (returned g) = false \/ first_stop (returned g) <> None ->
  forallb touches_nothing (trace (main env g config)) = true.
Proof.
  intros Hcase. destruct (first_stop (returned g)) as [opt|] eqn:Hscan.
  - unfold main, parse_arguments.
    pose proof (option_loop_run (nth 0 (argv g) ""%string) (returned g)
                  (with_defaults config)) as Hloop.
    rewrite Hscan in Hloop.
    pose proof (option_loop_touches_nothing (nth 0 (argv g) ""%string)
                  (returned g) (with_defaults config)) as Hquiet.
    rewrite !trace_bind, !result_bind, Hloop. now rewrite !app_nil_r.
  - destruct Hcase as [Hs|Hne]; [|congruence].
    rewrite (main_run env g config Hscan), Hs. cbn [app]. rewrite app_nil_r.
    apply insecure_command_touches_nothing.
    unfold parsed_config. cbn [secure_mode]. now rewrite Hs.
Qed.

(** X20.  Without [-s] the program opens no file and calls no OpenSSL
    routine, whatever the command and whatever the other options; the
    same holds for any run that ends in [parse_arguments] (help or an
    unknown option). *)
Theorem insecure_run_touches_nothing (env : Env) (g : getopt_scan)
    (config : cli_config_t) (c : Call) :
  seen "s" (returned g) = false \/ first_stop (returned g) <> None ->
  In c (trace (main env g config)) ->
  is_fopen c = false /\ is_openssl c = false.
Proof.
  intros Hcase Hin. pose proof (quiet_run env g config Hcase) as Hquiet.
  rewrite forallb_forall in Hquiet. specialize (Hquiet c Hin).
  unfold touches_nothing in Hquiet. apply negb_true_iff in Hquiet.
  now apply orb_false_iff in Hquiet.
Qed.

Lemma command_fopens (env : Env) (program_name : string)
    (command : command_type_t) (config : cli_config_t) :
  filter is_fopen (trace (run_command env program_name command config))
  = if negb (Z.eqb (secure_mode config) 0) && reads_certificate command
    then [fopen (cert_file config) "r"] else [].
Proof.
  destruct command; cbn [run_command reads_certificate];
    unfold cmd_status, cmd_configure, cmd_monitor, cmd_certinfo,
      cmd_diagnostics, load_certificate;
    try (rewrite andb_false_r; command_cases env config; reflexivity);
    command_cases env config; reflexivity.
Qed.

(** X21.  With a certificate path shorter than 1023 bytes (the [-c]
    argument, or the default without one), the only file the program ever
    opens is the certificate file, for reading, and only in secure mode:
    the array handed to [fopen] holds that path, NUL-terminated.  The
    private key file and the CA file named with [-k] and [-a] (or their
    defaults) are never opened.  (A longer [-c] argument can leave the
    array without a terminator, see X16; [fopen] then reads past the end
    of the array, and the statement does not cover that case.) *)
Theorem only_certificate_opened (env : Env) (g : getopt_scan)
    (config : cli_config_t) (path : buffer) (mode : string) :
  (List.length (chars (last_arg "c" (returned g) CERT_FILE)) < 1023)%nat ->
  In (fopen path mode) (trace (main env g config)) ->
  c_string path = Some (chars (last_arg "c" (returned g) CERT_FILE))
  /\ mode = "r"%string
  /\ seen "s" (returned g) = true.
Proof.
  intros Hshort Hin. destruct (first_stop (returned g)) as [opt|] eqn:Hscan.
  - pose proof (quiet_run env g config) as Hquiet.
    rewrite Hscan in Hquiet.
    assert (Hq : forallb touches_nothing (trace (main env g config)) = true).
    { apply Hquiet. right. discriminate. }
    rewrite forallb_forall in Hq. specialize (Hq _ Hin).
    cbv in Hq. discriminate Hq.
  - rewrite (main_run env g config Hscan) in Hin. cbn [trace] in Hin.
    apply in_app_or in Hin. destruct Hin as [Hin|Hin].
    { destruct (seen "s" (returned g)).
      - cbn [init_calls In] in Hin.
        destruct Hin as [H|[H|[H|[]]]]; discriminate H.
      - destruct Hin. }
    apply in_app_or in Hin. destruct Hin as [Hin|Hin].
    + assert (Hf : In (fopen path mode)
                     (filter is_fopen
                        (trace (run_command env (nth 0 (argv g) ""%string)
                                  (parse_command g) (parsed_config g config)))))
        by (apply filter_In; split; [exact Hin | reflexivity]).
      rewrite command_fopens in Hf.
      unfold parsed_config in Hf. cbn [secure_mode cert_file] in Hf.
      destruct (seen "s" (returned g)); cbn [Z.eqb negb andb] in Hf;
        [|contradiction].
      destruct (reads_certificate (parse_command g)); cbn [andb] in Hf;
        [|contradiction].
      destruct Hf as [Heq|[]]. injection Heq as <- <-.
      split; [|split; reflexivity].
      change (MAX_BUFFER_SIZE - 1)%nat with 1023%nat.
      now apply strncpy_short.
    + destruct (seen "s" (returned g)).
      * cbn [cleanup_calls In] in Hin.
        destruct Hin as [H|[H|[]]]; discriminate H.
      * destruct Hin.
Qed.

Lemma parse_arguments_settings_witness :
  result (parse_arguments secure_configure stack_config)
  = Return (CMD_CONFIGURE, parsed_config secure_configure stack_config) /\
  (CMD_CONFIGURE = parse_command secure_configure
   /\ verbose (parsed_config secure_configure stack_config)
      = (if seen "v" (returned secure_configure) then 1 else 0)
   /\ secure_mode (parsed_config secure_configure stack_config)
      = (if seen "s" (returned secure_configure) then 1 else 0)
   /\ endpoint (parsed_config secure_configure stack_config)
      = strncpy (endpoint stack_config)
          (last_arg "e" (returned secure_configure) DEFAULT_ENDPOINT)
          (MAX_BUFFER_SIZE - 1)
   /\ cert_file (parsed_config secure_configure stack_config)
      = strncpy (cert_file stack_config)
          (last_arg "c" (returned secure_configure) CERT_FILE)
          (MAX_BUFFER_SIZE - 1)
   /\ key_file (parsed_config secure_configure stack_config)
      = strncpy (key_file stack_config)
          (last_arg "k" (returned secure_configure) KEY_FILE)
          (MAX_BUFFER_SIZE - 1)
   /\ ca_file (parsed_config secure_configure stack_config)
      = strncpy (ca_file stack_config)
          (last_arg "a" (returned secure_configure) CA_FILE)
          (MAX_BUFFER_SIZE - 1)).
Proof.
  split.
  - vm_compute. reflexivity.
  - apply (parse_arguments_settings secure_configure stack_config).
    vm_compute. reflexivity.
Defined.

Lemma parsed_strings_terminated_witness :
  result (parse_arguments secure_configure stack_config)
  = Return (CMD_CONFIGURE, parsed_config secure_configure stack_config) /\
  c_string (endpoint (parsed_config secure_configure stack_config))
  = Some (list_ascii_of_string "10.0.0.7:8080").
Proof.
  split.
  - vm_compute. reflexivity.
  - destruct (parsed_strings_terminated secure_configure stack_config
                CMD_CONFIGURE (parsed_config secure_configure stack_config))
      as [Hendpoint _].
    + vm_compute. reflexivity.
    + rewrite Hendpoint.
      * vm_compute. reflexivity.
      * vm_compute. lia.
Defined.

Lemma long_strings_unterminated_witness :
  result (parse_arguments long_endpoint_scan stack_config)
  = Return (CMD_STATUS, parsed_config long_endpoint_scan stack_config) /\
  c_string (endpoint (parsed_config long_endpoint_scan stack_config)) = None.
Proof.
  split.
  - vm_compute. reflexivity.
  - destruct (long_strings_unterminated long_endpoint_scan stack_config
                CMD_STATUS (parsed_config long_endpoint_scan stack_config))
      as [Hendpoint _].
    + vm_compute. reflexivity.
    + destruct Hendpoint as [_ Hnone].
      * reflexivity.
      * vm_compute. lia.
      * apply Hnone. vm_compute. reflexivity.
Defined.

Lemma main_returns_zero_witness :
  first_stop (returned secure_configure) = None /\
  (result (main no_files secure_configure stack_config) = Return 0
   /\ trace (main no_files secure_configure stack_config)
      = (if seen "s" (returned secure_configure) then init_calls else [])
        ++ trace (run_command no_files (nth 0 (argv secure_configure) ""%string)
                    (parse_command secure_configure)
                    (parsed_config secure_configure stack_config))
        ++ (if seen "s" (returned secure_configure) then cleanup_calls else [])).
Proof.
  split.
  - reflexivity.
  - apply (main_returns_zero no_files secure_configure stack_config).
    reflexivity.
Defined.

Lemma insecure_run_touches_nothing_witness :
  (seen "s" (returned plain_status) = false
   \/ first_stop (returned plain_status) <> None) /\
  In (printf "AdaptivePWM System Status\n" [])
    (trace (main good_files plain_status stack_config)) /\
  (is_fopen (printf "AdaptivePWM System Status\n" []) = false
   /\ is_openssl (printf "AdaptivePWM System Status\n" []) = false).
Proof.
  assert (Hin : In (printf "AdaptivePWM System Status\n" [])
                  (trace (main good_files plain_status stack_config))).
  { vm_compute. left. reflexivity. }
  split; [left; reflexivity|]. split; [exact Hin|].
  apply (insecure_run_touches_nothing good_files plain_status stack_config).
  - left. reflexivity.
  - exact Hin.
Defined.

Lemma only_certificate_opened_witness :
  (List.length (chars (last_arg "c" (returned secure_configure) CERT_FILE))
   < 1023)%nat /\
  In (fopen (cert_file (parsed_config secure_configure stack_config)) "r")
    (trace (main no_files secure_configure stack_config)) /\
  (c_string (cert_file (parsed_config secure_configure stack_config))
   = Some (chars (last_arg "c" (returned secure_configure) CERT_FILE))
   /\ "r"%string = "r"%string
   /\ seen "s" (returned secure_configure) = true).
Proof.
  assert (Hshort : (List.length
                      (chars (last_arg "c" (returned secure_configure) CERT_FILE))
                    < 1023)%nat).
  { vm_compute. lia. }
  assert (Hin : In (fopen (cert_file (parsed_config secure_configure stack_config)) "r")
                  (trace (main no_files secure_configure stack_config))).
  { vm_compute. do 6 right. left. reflexivity. }
  split; [exact Hshort|]. split; [exact Hin|].
  exact (only_certificate_opened no_files secure_configure stack_config _ _
           Hshort Hin).
Defined.

End CliFacts.
